(** * esp32-poolmon: the pump controllers and the display engine

    A shallow embedding of [main/control.c] and of the page engine of
    [main/display.c], followed by the properties of the design document
    that are decided by that code.

    - [Float32]   : the C type [float] (IEEE-754 binary32) on top of the
                    specification floats of the standard library.
    - [Control]   : [control_cp_task] and [control_pp_task], one loop
                    iteration as a function of the values read from the
                    datastore during that iteration.
    - [Display]   : page registry, transition table, dispatch, row padding,
                    the retry wrappers around the LCD driver and one
                    iteration of [display_task].

    Task start-up (the settling delay, the initialisation of the bus and of
    the display), the waits between iterations and debug-level logging are
    not part of the embedding; the text the content pages print is kept
    abstract, apart from the rows and numbers modelled under "Further parts
    of the page handlers".  [display_init] and [display_delete] are
    embedded as functions of the two statics they share. *)

From Stdlib Require Import ZArith Lia Bool List.
From Stdlib Require Import Floats.SpecFloat.
From Stdlib Require Import Strings.Byte Strings.String DecimalString.
From stdpp Require Import base option list.

Local Open Scope Z_scope.

(** ** Machine integers *)

(** [uint32_t] and [TickType_t] are 32-bit unsigned: arithmetic wraps. *)
Definition UINT32_MODULUS : Z := 2 ^ 32.

Definition wrap32 (z : Z) : Z := z mod UINT32_MODULUS.

Definition is_uint32 (z : Z) : Prop := 0 <= z < UINT32_MODULUS.

(** ** The C type [float] *)

Module Float32.

Definition prec : Z := 24.
Definition emax : Z := 128.

Definition float : Type := spec_float.

(** [0.0f] *)
Definition zero : float := S754_zero false.

(** The value [m * 2^e], rounded to the nearest binary32. *)
Definition of_scaled (m e : Z) : float := binary_normalize prec emax m e false.

(** Integer to [float] conversion, as in [duration * configTICK_RATE_HZ]. *)
Definition of_Z (z : Z) : float := of_scaled z 0.

Definition sub (x y : float) : float := SFsub prec emax x y.
Definition mul (x y : float) : float := SFmul prec emax x y.

(** [x < y], [x <= y] and [x >= y]; every comparison with a NaN is false. *)
Definition lt (x y : float) : bool := SFltb x y.
Definition le (x y : float) : bool := SFleb x y.
Definition ge (x y : float) : bool :=
  match SFcompare x y with
  | Some (Gt | Eq) => true
  | _ => false
  end.

(** The cast [(TickType_t) x]: the fractional part is discarded.  C leaves
    the cast undefined when the truncated value does not fit the unsigned
    type (this includes infinities and NaN): [None]. *)
Definition to_uint32 (x : float) : option Z :=
  match x with
  | S754_zero _ => Some 0
  | S754_finite s m e =>
      let t := Z.shiftl (Zpos m) e in
      if s then (if t =? 0 then Some 0 else None)
      else if t <? UINT32_MODULUS then Some t else None
  | S754_infinity _ | S754_nan => None
  end.

End Float32.

Abbreviation float := Float32.float.

(** ** control.c *)

Module Control.

(** Modelled from the spec: the enumeration [avr_pump_state_t], declared
    in avr_support.h and not in control.c; a pump is OFF or ON. *)
Inductive avr_pump_state_t : Set :=
| AVR_PUMP_STATE_OFF
| AVR_PUMP_STATE_ON.

Global Instance avr_pump_state_eq_dec : EqDecision avr_pump_state_t.
Proof. solve_decision. Defined.

(** The calls a controller makes to the AVR support layer. *)
Inductive actuation : Set :=
| avr_support_set_cp_pump (s : avr_pump_state_t)
| avr_support_set_pp_pump (s : avr_pump_state_t).

(** The resources the two controllers read.  A value of this record is
    what the [datastore_get_*] calls of one loop iteration deliver, each
    in the type of the variable it is read into; every resource is read at
    most once per iteration. *)
Record datastore_t : Type := {
  RESOURCE_ID_TEMP_VALUE : Z -> float;  (* by instance *)
  RESOURCE_ID_CONTROL_CP_ON_DELTA : float;
  RESOURCE_ID_CONTROL_CP_OFF_DELTA : float;
  RESOURCE_ID_FLOW_RATE : float;
  RESOURCE_ID_PUMPS_CP_STATE : avr_pump_state_t;
  RESOURCE_ID_CONTROL_FLOW_THRESHOLD : float;
  RESOURCE_ID_CONTROL_PP_CYCLE_COUNT : Z;  (* uint32_t *)
  RESOURCE_ID_CONTROL_PP_CYCLE_ON_DURATION : float;
  RESOURCE_ID_CONTROL_PP_CYCLE_PAUSE_DURATION : float
}.

(** *** control_cp_task *)

(** Before the loop: [state = AVR_PUMP_STATE_OFF] and the pump is
    switched off. *)
Definition control_cp_init : avr_pump_state_t * list actuation :=
  (AVR_PUMP_STATE_OFF, [avr_support_set_cp_pump AVR_PUMP_STATE_OFF]).

(** The "transitions" part of the loop body: new state and the
    [transition] flag. *)
Definition control_cp_transitions (datastore : datastore_t)
    (state : avr_pump_state_t) : avr_pump_state_t * bool :=
  let t1 := RESOURCE_ID_TEMP_VALUE datastore 0 in
  let t2 := RESOURCE_ID_TEMP_VALUE datastore 1 in
  if decide (state = AVR_PUMP_STATE_OFF) then
    let delta := RESOURCE_ID_CONTROL_CP_ON_DELTA datastore in
    if Float32.ge (Float32.sub t1 t2) delta
    then (AVR_PUMP_STATE_ON, true)
    else (state, false)
  else
    let delta := RESOURCE_ID_CONTROL_CP_OFF_DELTA datastore in
    if Float32.le (Float32.sub t1 t2) delta
    then (AVR_PUMP_STATE_OFF, true)
    else (state, false).

(** One iteration of the loop: the new state and the actuation calls
    made, in order. *)
Definition control_cp_tick (datastore : datastore_t)
    (state : avr_pump_state_t) : avr_pump_state_t * list actuation :=
  let '(state', transition) := control_cp_transitions datastore state in
  (state', if transition then [avr_support_set_cp_pump state'] else []).

(** *** control_pp_task *)

Inductive state_t : Set :=
| STATE_PP_OFF
| STATE_PP_ON
| STATE_PP_PAUSE.

Global Instance state_eq_dec : EqDecision state_t.
Proof. solve_decision. Defined.

(** The locals of [control_pp_task] that live across iterations. *)
Record pp_locals : Type := {
  state : state_t;
  cycle_start_time : Z;  (* TickType_t *)
  n : Z                  (* uint32_t *)
}.

Definition control_pp_init : pp_locals * list actuation :=
  ({| state := STATE_PP_OFF; cycle_start_time := 0; n := 0 |},
   [avr_support_set_pp_pump AVR_PUMP_STATE_OFF]).

Section PP.

(** FreeRTOS configuration constant (FreeRTOSConfig.h). *)
Variable configTICK_RATE_HZ : Z.

(** [cycle_start_time + (TickType_t)(duration * configTICK_RATE_HZ)] *)
Definition cycle_end_time (cycle_start_time : Z) (duration : float)
  : option Z :=
  ticks ← Float32.to_uint32
            (Float32.mul duration (Float32.of_Z configTICK_RATE_HZ));
  Some (wrap32 (cycle_start_time + ticks)).

(** One iteration of the loop; [last_wake_time] is the tick count read
    at its start.  [None]: the iteration runs into an undefined
    float-to-integer cast. *)
Definition control_pp_tick (datastore : datastore_t) (last_wake_time : Z)
    (l : pp_locals) : option (pp_locals * list actuation) :=
  match state l with
  | STATE_PP_OFF =>
      let flow_rate := RESOURCE_ID_FLOW_RATE datastore in
      let cp_state := RESOURCE_ID_PUMPS_CP_STATE datastore in
      let flow_threshold := RESOURCE_ID_CONTROL_FLOW_THRESHOLD datastore in
      if bool_decide (cp_state = AVR_PUMP_STATE_ON)
         && Float32.le flow_rate flow_threshold
      then
        Some ({| state := STATE_PP_ON;
                 cycle_start_time := last_wake_time;
                 n := wrap32 (RESOURCE_ID_CONTROL_PP_CYCLE_COUNT datastore - 1) |},
              [avr_support_set_pp_pump AVR_PUMP_STATE_ON])
      else Some (l, [])
  | STATE_PP_ON =>
      let duration := RESOURCE_ID_CONTROL_PP_CYCLE_ON_DURATION datastore in
      cycle_end ← cycle_end_time (cycle_start_time l) duration;
      if cycle_end <=? last_wake_time
      then
        Some ({| state := STATE_PP_PAUSE;
                 cycle_start_time := last_wake_time;
                 n := n l |},
              [avr_support_set_pp_pump AVR_PUMP_STATE_OFF])
      else Some (l, [])
  | STATE_PP_PAUSE =>
      let duration := RESOURCE_ID_CONTROL_PP_CYCLE_PAUSE_DURATION datastore in
      cycle_end ← cycle_end_time (cycle_start_time l) duration;
      if 0 <? n l then
        if cycle_end <=? last_wake_time
        then
          Some ({| state := STATE_PP_ON;
                   cycle_start_time := last_wake_time;
                   n := wrap32 (n l - 1) |},
                [avr_support_set_pp_pump AVR_PUMP_STATE_ON])
        else Some (l, [])
      else
        if cycle_end <=? last_wake_time
        then
          Some ({| state := STATE_PP_OFF;
                   cycle_start_time := cycle_start_time l;
                   n := n l |},
                [avr_support_set_pp_pump AVR_PUMP_STATE_OFF])
        else Some (l, [])
  end.

(** The loop over a finite sequence of iterations, each given by the
    datastore contents and the tick count it sees.  The result lists,
    per iteration, the locals after it and the calls it made. *)
Fixpoint control_pp_run (inputs : list (datastore_t * Z)) (l : pp_locals)
  : option (list (pp_locals * list actuation)) :=
  match inputs with
  | [] => Some []
  | (datastore, last_wake_time) :: rest =>
      r ← control_pp_tick datastore last_wake_time l;
      tail ← control_pp_run rest r.1;
      Some (r :: tail)
  end.

End PP.

(** *** Vocabulary for runs of the pool-pump controller *)

(** The states the controller enters during a run: one entry for every
    iteration that changes the state; [prev] is the state before the run. *)
Fixpoint entered (prev : state_t) (steps : list (pp_locals * list actuation))
  : list state_t :=
  match steps with
  | [] => []
  | step :: rest =>
      if decide (state step.1 = prev) then entered prev rest
      else state step.1 :: entered (state step.1) rest
  end.

(** A sequence of states up to and including the first [STATE_PP_OFF]. *)
Fixpoint until_off (ss : list state_t) : list state_t :=
  match ss with
  | [] => []
  | s :: rest => if decide (s = STATE_PP_OFF) then [s] else s :: until_off rest
  end.

(** [pairs] ON/PAUSE pairs followed by the return to OFF. *)
Definition cycle (pairs : nat) : list state_t :=
  concat (replicate pairs [STATE_PP_ON; STATE_PP_PAUSE]) ++ [STATE_PP_OFF].

(** The OFF state takes the transition to ON. *)
Definition pp_trigger (datastore : datastore_t) : bool :=
  bool_decide (RESOURCE_ID_PUMPS_CP_STATE datastore = AVR_PUMP_STATE_ON)
  && Float32.le (RESOURCE_ID_FLOW_RATE datastore)
                (RESOURCE_ID_CONTROL_FLOW_THRESHOLD datastore).

(** The temperature difference the controller compares: [t1 - t2]. *)
Definition cp_diff (datastore : datastore_t) : float :=
  Float32.sub (RESOURCE_ID_TEMP_VALUE datastore 0)
              (RESOURCE_ID_TEMP_VALUE datastore 1).

(** What is left of the current cycle, as a sequence of states still to be
    entered: in ON with [n] cycles remaining, a pause and then [n] further
    ON/PAUSE pairs. *)
Definition remaining_states (l : pp_locals) : list state_t :=
  match state l with
  | STATE_PP_ON => STATE_PP_PAUSE :: cycle (Z.to_nat (n l))
  | STATE_PP_PAUSE => cycle (Z.to_nat (n l))
  | STATE_PP_OFF => []
  end.

(** *** Sample datastore contents *)

(** [T1], [T2], the two deltas, flow rate, CP state, flow threshold, cycle
    count and the two durations in seconds; the temperatures, deltas and
    rates are given in tenths. *)
Definition sample (t1 t2 on_delta off_delta : Z) (flow : Z)
    (cp_state : avr_pump_state_t) (threshold : Z) (cycle_count : Z)
    (on_seconds pause_seconds : Z) : datastore_t :=
  let tenths z := SFdiv Float32.prec Float32.emax (Float32.of_Z z) (Float32.of_Z 10) in
  {| RESOURCE_ID_TEMP_VALUE := fun instance => if instance =? 0 then tenths t1 else tenths t2;
     RESOURCE_ID_CONTROL_CP_ON_DELTA := tenths on_delta;
     RESOURCE_ID_CONTROL_CP_OFF_DELTA := tenths off_delta;
     RESOURCE_ID_FLOW_RATE := tenths flow;
     RESOURCE_ID_PUMPS_CP_STATE := cp_state;
     RESOURCE_ID_CONTROL_FLOW_THRESHOLD := tenths threshold;
     RESOURCE_ID_CONTROL_PP_CYCLE_COUNT := cycle_count;
     RESOURCE_ID_CONTROL_PP_CYCLE_ON_DURATION := Float32.of_Z on_seconds;
     RESOURCE_ID_CONTROL_PP_CYCLE_PAUSE_DURATION := Float32.of_Z pause_seconds |}.

(** *** The loops over several iterations *)

(** [control_cp_task]'s loop over a finite sequence of iterations, each
    given by the datastore contents it reads: per iteration, the state
    after it and the calls it made. *)
Fixpoint control_cp_run (inputs : list datastore_t) (state : avr_pump_state_t)
  : list (avr_pump_state_t * list actuation) :=
  match inputs with
  | [] => []
  | datastore :: rest =>
      let r := control_cp_tick datastore state in
      r :: control_cp_run rest r.1
  end.

(** All the calls of a task, in order: those made before the loop, then
    those of every iteration. *)
Definition calls_made {S : Type} (init : S * list actuation)
    (steps : list (S * list actuation)) : list actuation :=
  init.2 ++ concat (snd <$> steps).

(** The state a task is in after its iterations. *)
Definition final_state {S : Type} (init : S * list actuation)
    (steps : list (S * list actuation)) : S :=
  default init.1 (fst <$> last steps).

(** No two consecutive elements are equal. *)
Fixpoint adjacent_distinct {A : Type} (l : list A) : Prop :=
  match l with
  | a :: rest =>
      match rest with
      | b :: _ => a <> b
      | [] => True
      end /\ adjacent_distinct rest
  | [] => True
  end.

(** The pump state that goes with a state of the pool-pump controller. *)
Definition pump_of (s : state_t) : avr_pump_state_t :=
  match s with
  | STATE_PP_ON => AVR_PUMP_STATE_ON
  | STATE_PP_OFF | STATE_PP_PAUSE => AVR_PUMP_STATE_OFF
  end.

(** A datastore whose first temperature is not a number. *)
Definition sample_nan : datastore_t :=
  {| RESOURCE_ID_TEMP_VALUE := fun instance =>
       if instance =? 0 then S754_nan else Float32.of_Z 24;
     RESOURCE_ID_CONTROL_CP_ON_DELTA := Float32.of_Z 5;
     RESOURCE_ID_CONTROL_CP_OFF_DELTA := Float32.of_Z 2;
     RESOURCE_ID_FLOW_RATE := Float32.zero;
     RESOURCE_ID_PUMPS_CP_STATE := AVR_PUMP_STATE_OFF;
     RESOURCE_ID_CONTROL_FLOW_THRESHOLD := Float32.zero;
     RESOURCE_ID_CONTROL_PP_CYCLE_COUNT := 0;
     RESOURCE_ID_CONTROL_PP_CYCLE_ON_DURATION := Float32.zero;
     RESOURCE_ID_CONTROL_PP_CYCLE_PAUSE_DURATION := Float32.zero |}.


(** The duration the controller reads in a state, in seconds. *)
Definition phase_duration (datastore : datastore_t) (s : state_t) : float :=
  match s with
  | STATE_PP_ON => RESOURCE_ID_CONTROL_PP_CYCLE_ON_DURATION datastore
  | STATE_PP_OFF | STATE_PP_PAUSE =>
      RESOURCE_ID_CONTROL_PP_CYCLE_PAUSE_DURATION datastore
  end.


End Control.

(** ** display.c *)

Module Display.

Definition LCD_NUM_ROWS : nat := 4.
Definition LCD_NUM_COLUMNS : nat := 40.
Definition LCD_NUM_VISIBLE_COLUMNS : nat := 20.

Definition DISPLAY_WIDTH : nat := LCD_NUM_VISIBLE_COLUMNS.
Definition ROW_STRING_WIDTH : nat := DISPLAY_WIDTH + 1.

(** *** Page identifiers *)

Definition display_page_id_t : Set := Z.

(** Modelled from the spec: the enumeration [display_page_id_t], declared
    in display.h and not in display.c.  The pages are numbered from zero in
    the order of the registry [page_specs] (dispatch checks that the entry
    at position [i] carries the identifier [i]), [DISPLAY_PAGE_LAST] is the
    number of pages (asserted by dispatch) and the "ignore" sentinel lies
    below the range, where the range check of the loop rejects it. *)
Definition DISPLAY_PAGE_IGNORE : display_page_id_t := -1.
Definition DISPLAY_PAGE_BLANK : display_page_id_t := 0.
Definition DISPLAY_PAGE_MAIN : display_page_id_t := 1.
Definition DISPLAY_PAGE_SENSORS_TEMP : display_page_id_t := 2.
Definition DISPLAY_PAGE_SENSORS_TEMP_2 : display_page_id_t := 3.
Definition DISPLAY_PAGE_SENSORS_LIGHT : display_page_id_t := 4.
Definition DISPLAY_PAGE_SENSORS_FLOW : display_page_id_t := 5.
Definition DISPLAY_PAGE_POWER : display_page_id_t := 6.
Definition DISPLAY_PAGE_SWITCHES : display_page_id_t := 7.
Definition DISPLAY_PAGE_PUMP_STATUS : display_page_id_t := 8.
Definition DISPLAY_PAGE_CP_CONTROL : display_page_id_t := 9.
Definition DISPLAY_PAGE_PP_CONTROL : display_page_id_t := 10.
Definition DISPLAY_PAGE_ALARM : display_page_id_t := 11.
Definition DISPLAY_PAGE_WIFI_STATUS : display_page_id_t := 12.
Definition DISPLAY_PAGE_MQTT_STATUS : display_page_id_t := 13.
Definition DISPLAY_PAGE_RESOURCE_STATUS : display_page_id_t := 14.
Definition DISPLAY_PAGE_AVR_STATUS : display_page_id_t := 15.
Definition DISPLAY_PAGE_LAST : display_page_id_t := 16.

Definition INITIAL_PAGE : display_page_id_t := DISPLAY_PAGE_MAIN.

(** The guard [page >= 0 && page < DISPLAY_PAGE_LAST]. *)
Definition page_in_range (page : display_page_id_t) : bool :=
  (0 <=? page) && (page <? DISPLAY_PAGE_LAST).

(** *** Input events *)

(** Modelled from the spec: the four input kinds, whose constants are
    declared in button.h and rotary_encoder.h and not in display.c.
    [INPUT_OTHER code] stands for every other value of the [int] that
    [_handle_transition] switches on. *)
Inductive input_t : Set :=
| ROTARY_ENCODER_EVENT_CLOCKWISE
| ROTARY_ENCODER_EVENT_COUNTER_CLOCKWISE
| BUTTON_EVENT_SHORT
| BUTTON_EVENT_LONG
| INPUT_OTHER (code : Z).

Global Instance input_eq_dec : EqDecision input_t.
Proof. solve_decision. Defined.

(** *** Page transition table *)

Record transition_t : Set := {
  current : display_page_id_t;
  on_counter_clockwise : display_page_id_t;
  on_clockwise : display_page_id_t;
  on_short : display_page_id_t;
  on_long : display_page_id_t
}.

Definition transitions : list transition_t := [
  Build_transition_t DISPLAY_PAGE_BLANK           DISPLAY_PAGE_MAIN            DISPLAY_PAGE_MAIN            DISPLAY_PAGE_IGNORE         DISPLAY_PAGE_IGNORE;
  Build_transition_t DISPLAY_PAGE_MAIN            DISPLAY_PAGE_AVR_STATUS      DISPLAY_PAGE_SENSORS_TEMP    DISPLAY_PAGE_IGNORE         DISPLAY_PAGE_IGNORE;
  Build_transition_t DISPLAY_PAGE_SENSORS_TEMP    DISPLAY_PAGE_MAIN            DISPLAY_PAGE_SENSORS_LIGHT   DISPLAY_PAGE_SENSORS_TEMP_2 DISPLAY_PAGE_IGNORE;
  Build_transition_t DISPLAY_PAGE_SENSORS_TEMP_2  DISPLAY_PAGE_MAIN            DISPLAY_PAGE_SENSORS_LIGHT   DISPLAY_PAGE_SENSORS_TEMP   DISPLAY_PAGE_IGNORE;
  Build_transition_t DISPLAY_PAGE_SENSORS_LIGHT   DISPLAY_PAGE_SENSORS_TEMP    DISPLAY_PAGE_SENSORS_FLOW    DISPLAY_PAGE_IGNORE         DISPLAY_PAGE_IGNORE;
  Build_transition_t DISPLAY_PAGE_SENSORS_FLOW    DISPLAY_PAGE_SENSORS_LIGHT   DISPLAY_PAGE_POWER           DISPLAY_PAGE_IGNORE         DISPLAY_PAGE_IGNORE;
  Build_transition_t DISPLAY_PAGE_POWER           DISPLAY_PAGE_SENSORS_FLOW    DISPLAY_PAGE_SWITCHES        DISPLAY_PAGE_IGNORE         DISPLAY_PAGE_IGNORE;
  Build_transition_t DISPLAY_PAGE_SWITCHES        DISPLAY_PAGE_SENSORS_FLOW    DISPLAY_PAGE_PUMP_STATUS     DISPLAY_PAGE_IGNORE         DISPLAY_PAGE_IGNORE;
  Build_transition_t DISPLAY_PAGE_PUMP_STATUS     DISPLAY_PAGE_SWITCHES        DISPLAY_PAGE_CP_CONTROL      DISPLAY_PAGE_IGNORE         DISPLAY_PAGE_IGNORE;
  Build_transition_t DISPLAY_PAGE_CP_CONTROL      DISPLAY_PAGE_PUMP_STATUS     DISPLAY_PAGE_PP_CONTROL      DISPLAY_PAGE_IGNORE         DISPLAY_PAGE_IGNORE;
  Build_transition_t DISPLAY_PAGE_PP_CONTROL      DISPLAY_PAGE_CP_CONTROL      DISPLAY_PAGE_ALARM           DISPLAY_PAGE_IGNORE         DISPLAY_PAGE_IGNORE;
  Build_transition_t DISPLAY_PAGE_ALARM           DISPLAY_PAGE_PP_CONTROL      DISPLAY_PAGE_WIFI_STATUS     DISPLAY_PAGE_IGNORE         DISPLAY_PAGE_IGNORE;
  Build_transition_t DISPLAY_PAGE_WIFI_STATUS     DISPLAY_PAGE_ALARM           DISPLAY_PAGE_MQTT_STATUS     DISPLAY_PAGE_IGNORE         DISPLAY_PAGE_IGNORE;
  Build_transition_t DISPLAY_PAGE_MQTT_STATUS     DISPLAY_PAGE_WIFI_STATUS     DISPLAY_PAGE_RESOURCE_STATUS DISPLAY_PAGE_IGNORE         DISPLAY_PAGE_IGNORE;
  Build_transition_t DISPLAY_PAGE_RESOURCE_STATUS DISPLAY_PAGE_MQTT_STATUS     DISPLAY_PAGE_AVR_STATUS      DISPLAY_PAGE_IGNORE         DISPLAY_PAGE_IGNORE;
  Build_transition_t DISPLAY_PAGE_AVR_STATUS      DISPLAY_PAGE_RESOURCE_STATUS DISPLAY_PAGE_MAIN            DISPLAY_PAGE_IGNORE         DISPLAY_PAGE_IGNORE
].

(** *** Row buffers *)

(** A row is the [char] array allocated by [display_task]
    ([LCD_NUM_COLUMNS + 1] bytes); a page buffer holds [LCD_NUM_ROWS] rows. *)
Abbreviation page_buffer_t := (list (list byte)).

(** [buffer->row[i]]; the struct always has its [LCD_NUM_ROWS] rows, a
    list that lacks one reads as an empty array. *)
Definition row (buffer : page_buffer_t) (i : nat) : list byte :=
  default [] (buffer !! i).

Definition NUL : byte := x00.
Definition SPACE : byte := x20.

(** [strlen]: the number of bytes before the first NUL.  On an array
    without NUL the C function reads past its end; here the scan stops at
    the end of the array. *)
Fixpoint strlen (s : list byte) : nat :=
  match s with
  | [] => 0
  | c :: rest => if Byte.eqb c NUL then 0 else S (strlen rest)
  end.

(** The C string an array holds. *)
Definition c_string (s : list byte) : list byte := take (strlen s) s.

(** [for (i = lo; i < hi; ++i) a = body i a] *)
Definition for_range {A : Type} (lo hi : nat) (body : nat -> A -> A) (a : A) : A :=
  foldl (fun acc i => body i acc) a (seq lo (hi - lo)).

(** [row[i][0] = '\0'] for every row: the body of [_handle_page_blank],
    and the first thing [display_task] does in each iteration. *)
Definition clear_rows (buffer : page_buffer_t) : page_buffer_t :=
  for_range 0 LCD_NUM_ROWS (fun i b => alter (fun r => <[0%nat := NUL]> r) i b) buffer.

Definition extend_row (r : list byte) : list byte :=
  <[LCD_NUM_VISIBLE_COLUMNS := NUL]>
    (for_range (strlen r) LCD_NUM_VISIBLE_COLUMNS (fun j r => <[j := SPACE]> r) r).

Definition _extend_page_buffer_rows (buffer : page_buffer_t) : page_buffer_t :=
  for_range 0 LCD_NUM_ROWS (fun i b => alter extend_row i b) buffer.

(** [snprintf(dst, size, text)] for a text without conversions: at most
    [size - 1] bytes of the text, then NUL, written over the start of the
    array. *)
Definition snprintf_text (dst : list byte) (size : nat) (text : list byte)
  : list byte :=
  match size with
  | O => dst
  | S room => list_inserts 0 (take room text ++ [NUL]) dst
  end.

(** [_split_time]: the four output parameters, in order. *)
Definition _split_time (time : Z) : Z * Z * Z * Z :=
  (time / 60 / 60 / 24, time / 60 / 60 mod 24, time / 60 mod 60, time mod 60).

(** *** The LCD driver and the world the display task acts on *)

Definition esp_err_t : Set := Z.
Definition ESP_OK : esp_err_t := 0.
Definition ESP_FAIL : esp_err_t := -1.

(** Custom glyphs. *)
Definition degrees_C : list Z := [0x10; 0x06; 0x09; 0x08; 0x08; 0x09; 0x06; 0x00].
Definition arrow_down : list Z := [0; 31; 31; 14; 14; 4; 4; 0].
Definition arrow_up : list Z := [0; 4; 4; 14; 14; 31; 31; 0].
Definition delta : list Z := [0; 1; 3; 5; 9; 17; 31; 0].

(** The primitives of the i2c-lcd1602 driver that display.c calls. *)
Inductive lcd_op : Type :=
| i2c_lcd1602_reset
| i2c_lcd1602_define_char (index : nat) (glyph : list Z)
| i2c_lcd1602_clear
| i2c_lcd1602_move_cursor (col row : Z)
| i2c_lcd1602_write_string (s : list byte)
| i2c_lcd1602_set_backlight (on : bool).

(** Which primitive an operation is, whatever its arguments. *)
Inductive lcd_op_kind : Set :=
| KReset | KDefineChar | KClear | KMoveCursor | KWriteString | KSetBacklight.

Global Instance lcd_op_kind_eq_dec : EqDecision lcd_op_kind.
Proof. solve_decision. Defined.

Definition kind_of (op : lcd_op) : lcd_op_kind :=
  match op with
  | i2c_lcd1602_reset => KReset
  | i2c_lcd1602_define_char _ _ => KDefineChar
  | i2c_lcd1602_clear => KClear
  | i2c_lcd1602_move_cursor _ _ => KMoveCursor
  | i2c_lcd1602_write_string _ => KWriteString
  | i2c_lcd1602_set_backlight _ => KSetBacklight
  end.

(** The driver and the device behind it are not part of display.c: a
    device of state [D] answers each primitive with an error code and a
    new state. *)
Class LcdDriver (D : Type) : Type :=
  lcd_exec : lcd_op -> D -> esp_err_t * D.

(** What the task does to its environment, in order. *)
Inductive event : Type :=
| EvLcd (op : lcd_op) (result : esp_err_t)
| EvTaskDelay (ms : Z)
| EvLogI (message : string)
| EvLogW (message : string) (arg : Z)
| EvLogE (message : string) (arg : Z)
| EvI2cLock
| EvI2cUnlock
| EvDatastoreSetPage (page : display_page_id_t)
| EvDumpDatastore.

Record world (D : Type) : Type := {
  device : D;
  trace : list event
}.
Arguments device {D} _.
Arguments trace {D} _.

(** Computations of the display task: they act on the world and either
    deliver a result or stop ([None]: an array read outside its bounds or
    a failed [assert]). *)
Definition M (D A : Type) : Type := world D -> option (A * world D).

Definition ret {D A : Type} (a : A) : M D A := fun w => Some (a, w).

Definition bind {D A B : Type} (c : M D A) (k : A -> M D B) : M D B :=
  fun w => match c w with
           | Some (a, w') => k a w'
           | None => None
           end.

Global Instance M_ret {D : Type} : MRet (M D) := @ret D.
Global Instance M_bind {D : Type} : MBind (M D) :=
  fun A B k c => bind c k.

Definition emit {D : Type} (e : event) : M D unit :=
  fun w => Some (tt, {| device := device w; trace := trace w ++ [e] |}).

Definition stop {D A : Type} : M D A := fun _ => None.

Definition lift_option {D A : Type} (o : option A) : M D A :=
  match o with
  | Some a => ret a
  | None => stop
  end.

(** [for (i = lo; i < hi; ++i) body i] *)
Definition for_each {D : Type} (lo hi : nat) (body : nat -> M D unit) : M D unit :=
  foldr (fun i rest => bind (body i) (fun _ => rest)) (ret tt) (seq lo (hi - lo)).

(** The number of calls of the primitive [k] recorded in a trace. *)
Definition is_call (k : lcd_op_kind) (e : event) : bool :=
  match e with
  | EvLcd op _ => bool_decide (kind_of op = k)
  | _ => false
  end.

Definition calls_of (k : lcd_op_kind) (t : list event) : nat :=
  length (filter (fun e => is_call k e) t).

(** *** The fault-tolerant output layer *)

Section Output.

Context {D : Type} {driver : LcdDriver D}.

(** A call of a driver primitive. *)
Definition lcd_call (op : lcd_op) : M D esp_err_t :=
  fun w =>
    let '(err, d) := lcd_exec op (device w) in
    Some (err, {| device := d; trace := trace w ++ [EvLcd op err] |}).

Definition vTaskDelay (ms : Z) : M D unit := emit (EvTaskDelay ms).

(** [I2C_LCD1602_ERROR_CHECK] (i2c-lcd1602.h) logs a warning when the code
    is not [ESP_OK]; it does not stop the task. *)
Definition I2C_LCD1602_ERROR_CHECK (err : esp_err_t) : M D unit :=
  if err =? ESP_OK then ret tt else emit (EvLogW "I2C error" err).

(** One "if (err == ESP_OK) { err = define_char; check }" step of
    [_display_reset]. *)
Definition define_char_if_ok (err : esp_err_t) (index : nat) (glyph : list Z)
  : M D esp_err_t :=
  if err =? ESP_OK then
    err ← lcd_call (i2c_lcd1602_define_char index glyph);
    I2C_LCD1602_ERROR_CHECK err;;
    ret err
  else ret err.

Definition _display_reset : M D esp_err_t :=
  emit (EvLogI "display reset");;
  err ← lcd_call i2c_lcd1602_reset;
  err ← define_char_if_ok err 0 degrees_C;
  err ← define_char_if_ok err 1 arrow_down;
  err ← define_char_if_ok err 2 arrow_up;
  err ← define_char_if_ok err 3 delta;
  ret err.

(** The loop shared by [_clear], [_move_cursor] and [_write_string]:

      while (count < 10 && (err = op(...)) != ESP_OK)
        { ++count; vTaskDelay(10 ms); _display_reset(); ESP_LOGW(...); }
      return err;

    [attempts_left] is [10 - count]; the recursion is on it. *)
Fixpoint retry (name : string) (op : lcd_op) (attempts_left : nat)
    (err : esp_err_t) : M D esp_err_t :=
  match attempts_left with
  | O => ret err
  | S k =>
      err ← lcd_call op;
      if err =? ESP_OK then ret err
      else
        let count := 10 - Z.of_nat k in
        vTaskDelay 10;;
        _display_reset;;
        emit (EvLogW name count);;
        retry name op k err
  end.

Definition _clear : M D esp_err_t :=
  retry "retry _clear" i2c_lcd1602_clear 10 ESP_FAIL.

Definition _move_cursor (col row : Z) : M D esp_err_t :=
  retry "retry _move_cursor" (i2c_lcd1602_move_cursor col row) 10 ESP_FAIL.

Definition _write_string (s : list byte) : M D esp_err_t :=
  retry "retry _write_string" (i2c_lcd1602_write_string s) 10 ESP_FAIL.

Definition _render_page_buffer (buffer : page_buffer_t) : M D unit :=
  emit EvI2cLock;;
  for_each 0 LCD_NUM_ROWS (fun i =>
    err ← _move_cursor 0 (Z.of_nat i);
    I2C_LCD1602_ERROR_CHECK err;;
    err ← _write_string (c_string (row buffer i));
    I2C_LCD1602_ERROR_CHECK err);;
  emit EvI2cUnlock.

(** [_handle_transition]; [table] is the array [transitions].  The array
    is read in the branch of the event at hand; the computation stops when
    the index is outside the array. *)
Definition handle_transition_in (table : list transition_t)
    (input : input_t) (current_page : display_page_id_t)
  : M D display_page_id_t :=
  let new_page := DISPLAY_PAGE_BLANK in
  if page_in_range current_page then
    match input with
    | ROTARY_ENCODER_EVENT_CLOCKWISE =>
        entry ← lift_option (table !! Z.to_nat current_page);
        ret (on_clockwise entry)
    | ROTARY_ENCODER_EVENT_COUNTER_CLOCKWISE =>
        entry ← lift_option (table !! Z.to_nat current_page);
        ret (on_counter_clockwise entry)
    | BUTTON_EVENT_SHORT =>
        entry ← lift_option (table !! Z.to_nat current_page);
        ret (on_short entry)
    | BUTTON_EVENT_LONG =>
        entry ← lift_option (table !! Z.to_nat current_page);
        ret (on_long entry)
    | INPUT_OTHER code =>
        emit (EvLogE "invalid input %d" code);;
        ret current_page
    end
  else ret new_page.

Definition _handle_transition
  : input_t -> display_page_id_t -> M D display_page_id_t :=
  handle_transition_in transitions.

End Output.

(** *** Page registry and dispatch *)

(** The two static flags page handlers animate with. *)
Inductive state_cell : Set := main_activity | blink_arrow.

Record static_cells : Set := {
  main_activity_value : bool;
  blink_arrow_value : bool
}.

(** Reading and writing through the [void * state] of a registry entry;
    [None] is the null pointer. *)
Definition load (p : option state_cell) (c : static_cells) : option bool :=
  match p with
  | Some main_activity => Some (main_activity_value c)
  | Some blink_arrow => Some (blink_arrow_value c)
  | None => None
  end.

Definition store (p : option state_cell) (v : option bool) (c : static_cells)
  : static_cells :=
  match p, v with
  | Some main_activity, Some b =>
      {| main_activity_value := b; blink_arrow_value := blink_arrow_value c |}
  | Some blink_arrow, Some b =>
      {| main_activity_value := main_activity_value c; blink_arrow_value := b |}
  | _, _ => c
  end.

Section Pages.

Context {D : Type} {driver : LcdDriver D}.

(** Snapshots of the datastore, as the page handlers read it. *)
Context {datastore_t : Type}.

(** A page handler fills the row buffer; it is handed the content of its
    state cell and returns the new content. *)
Definition page_handler_t : Type :=
  page_buffer_t -> option bool -> datastore_t -> page_buffer_t * option bool.

Record page_spec_t : Type := {
  id : display_page_id_t;
  handler : option page_handler_t;
  state : option state_cell
}.

Definition _handle_page_blank : page_handler_t :=
  fun page_buffer state datastore => (clear_rows page_buffer, state).

Definition _handle_page_alarm : page_handler_t :=
  fun page_buffer state datastore =>
    (alter (fun r => snprintf_text r ROW_STRING_WIDTH (list_byte_of_string "ALARM"))
           0%nat page_buffer,
     state).

(** The handlers of the other pages format datastore values with
    [snprintf]; their text is not modelled. *)
Class PageHandlers : Type := {
  _handle_page_main : page_handler_t;
  _handle_page_sensors_temp : page_handler_t;
  _handle_page_sensors_temp2 : page_handler_t;
  _handle_page_sensors_light : page_handler_t;
  _handle_page_sensors_flow : page_handler_t;
  _handle_page_power : page_handler_t;
  _handle_page_switches : page_handler_t;
  _handle_page_pump_status : page_handler_t;
  _handle_page_cp_control : page_handler_t;
  _handle_page_pp_control : page_handler_t;
  _handle_page_wifi_status : page_handler_t;
  _handle_page_mqtt_status : page_handler_t;
  _handle_page_resource_status : page_handler_t;
  _handle_page_avr_status : page_handler_t
}.

Context {handlers : PageHandlers}.

Definition page_specs : list page_spec_t := [
  Build_page_spec_t DISPLAY_PAGE_BLANK           (Some _handle_page_blank)           None;
  Build_page_spec_t DISPLAY_PAGE_MAIN            (Some _handle_page_main)            (Some main_activity);
  Build_page_spec_t DISPLAY_PAGE_SENSORS_TEMP    (Some _handle_page_sensors_temp)    (Some blink_arrow);
  Build_page_spec_t DISPLAY_PAGE_SENSORS_TEMP_2  (Some _handle_page_sensors_temp2)   (Some blink_arrow);
  Build_page_spec_t DISPLAY_PAGE_SENSORS_LIGHT   (Some _handle_page_sensors_light)   None;
  Build_page_spec_t DISPLAY_PAGE_SENSORS_FLOW    (Some _handle_page_sensors_flow)    None;
  Build_page_spec_t DISPLAY_PAGE_POWER           (Some _handle_page_power)           None;
  Build_page_spec_t DISPLAY_PAGE_SWITCHES        (Some _handle_page_switches)        None;
  Build_page_spec_t DISPLAY_PAGE_PUMP_STATUS     (Some _handle_page_pump_status)     None;
  Build_page_spec_t DISPLAY_PAGE_CP_CONTROL      (Some _handle_page_cp_control)      None;
  Build_page_spec_t DISPLAY_PAGE_PP_CONTROL      (Some _handle_page_pp_control)      None;
  Build_page_spec_t DISPLAY_PAGE_ALARM           (Some _handle_page_alarm)           None;
  Build_page_spec_t DISPLAY_PAGE_WIFI_STATUS     (Some _handle_page_wifi_status)     None;
  Build_page_spec_t DISPLAY_PAGE_MQTT_STATUS     (Some _handle_page_mqtt_status)     None;
  Build_page_spec_t DISPLAY_PAGE_RESOURCE_STATUS (Some _handle_page_resource_status) None;
  Build_page_spec_t DISPLAY_PAGE_AVR_STATUS      (Some _handle_page_avr_status)      None
].

(** [dispatch_to_handler]; [specs] is the array [page_specs].  The function
    starts with [assert(number of entries == DISPLAY_PAGE_LAST)].  In the
    three error branches the source assigns [DISPLAY_PAGE_BLANK] to its own
    parameter [current_page] and returns: no handler runs. *)
Definition dispatch_to_handler_in (specs : list page_spec_t)
    (buffer : page_buffer_t) (cells : static_cells)
    (current_page : display_page_id_t) (datastore : datastore_t)
  : M D (page_buffer_t * static_cells) :=
  if decide (Z.of_nat (length specs) = DISPLAY_PAGE_LAST) then
    if page_in_range current_page then
      spec ← lift_option (specs !! Z.to_nat current_page);
      if id spec =? current_page then
        match handler spec with
        | Some h =>
            let '(buffer', v) := h buffer (load (state spec) cells) datastore in
            ret (buffer', store (state spec) v cells)
        | None =>
            emit (EvLogE "page %d has no handler" current_page);;
            ret (buffer, cells)
        end
      else
        emit (EvLogE "page spec mismatch at position %d" current_page);;
        ret (buffer, cells)
    else
      emit (EvLogE "current page %d out of range" current_page);;
      ret (buffer, cells)
  else stop.

Definition dispatch_to_handler
  : page_buffer_t -> static_cells -> display_page_id_t -> datastore_t ->
    M D (page_buffer_t * static_cells) :=
  dispatch_to_handler_in page_specs.

(** *** display_task *)

(** The locals of [display_task] that live across iterations, and the two
    static flags. *)
Record task_locals : Type := {
  current_page : display_page_id_t;
  buffer : page_buffer_t;
  backlight_timestamp : Z;  (* uint32_t, seconds *)
  cells : static_cells
}.

(** What one iteration of the loop receives from outside. *)
Record iteration_input : Type := {
  datastore : datastore_t;
  queue_receive : option input_t;  (* xQueueReceive: an event, or a timeout *)
  seconds_at_input : Z;            (* seconds_since_boot() after the receive *)
  backlight_timeout : Z;           (* RESOURCE_ID_DISPLAY_BACKLIGHT_TIMEOUT *)
  seconds_at_timeout_check : Z     (* seconds_since_boot() in the timeout test *)
}.

(** The locals on entry to the loop; [buffer0] is the freshly allocated
    buffer and [now] the value of [seconds_since_boot()]. *)
Definition display_task_locals (buffer0 : page_buffer_t) (now : Z) : task_locals :=
  {| current_page := INITIAL_PAGE;
     buffer := buffer0;
     backlight_timestamp := now;
     cells := {| main_activity_value := false; blink_arrow_value := false |} |}.

(** The part of the loop body that handles a received input: the new
    current page. *)
Definition handle_input (input : input_t) (current_page : display_page_id_t)
  : M D display_page_id_t :=
  emit (EvLogI "from queue");;
  lcd_call (i2c_lcd1602_set_backlight true);;
  new_page ← _handle_transition input current_page;
  current_page ←
    (if negb (new_page =? current_page) && page_in_range new_page then
       emit (EvLogI "change to page");;
       emit (EvDatastoreSetPage new_page);;
       (if new_page =? DISPLAY_PAGE_MAIN then
          _display_reset;;
          err ← _clear;
          I2C_LCD1602_ERROR_CHECK err
        else ret tt);;
       ret new_page
     else ret current_page);
  (if (current_page =? DISPLAY_PAGE_MAIN) && bool_decide (input = BUTTON_EVENT_SHORT)
   then emit EvDumpDatastore
   else ret tt);;
  ret current_page.

(** One iteration of [while (1)] in [display_task]. *)
Definition display_task_iteration (inp : iteration_input) (l : task_locals)
  : M D task_locals :=
  let buffer := clear_rows (buffer l) in
  r ← dispatch_to_handler buffer (cells l) (current_page l) (datastore inp);
  let buffer := _extend_page_buffer_rows r.1 in
  _render_page_buffer buffer;;
  l' ← match queue_receive inp with
        | Some input =>
            current_page ← handle_input input (current_page l);
            ret {| current_page := current_page;
                   buffer := buffer;
                   backlight_timestamp := seconds_at_input inp;
                   cells := r.2 |}
        | None =>
            ret {| current_page := current_page l;
                   buffer := buffer;
                   backlight_timestamp := backlight_timestamp l;
                   cells := r.2 |}
        end;
  (if (0 <? backlight_timeout inp)
      && (backlight_timeout inp
            <? wrap32 (seconds_at_timeout_check inp - backlight_timestamp l'))
   then lcd_call (i2c_lcd1602_set_backlight false);; ret tt
   else ret tt);;
  ret l'.

(** The loop, over a finite sequence of iterations. *)
Fixpoint display_task_run (inputs : list iteration_input) (l : task_locals)
  : M D task_locals :=
  match inputs with
  | [] => ret l
  | inp :: rest =>
      l' ← display_task_iteration inp l;
      display_task_run rest l'
  end.

End Pages.

(** *** Further parts of the page handlers *)

(** The four numbers [_handle_page_wifi_status] prints for an address:
    [ip & 0xff], [(ip & 0xff00) >> 8], [(ip & 0xff0000) >> 16] and
    [(ip & 0xff000000) >> 24]. *)
Definition ip_octets (ip_address : Z) : Z * Z * Z * Z :=
  (Z.land ip_address 0xff,
   Z.shiftr (Z.land ip_address 0xff00) 8,
   Z.shiftr (Z.land ip_address 0xff0000) 16,
   Z.shiftr (Z.land ip_address 0xff000000) 24).

(** The countdown of [_handle_page_pp_control]: hours, minutes and seconds
    remaining until the daily time, from the local time of day.  The
    operands are [int]s and [/] truncates. *)
Definition daily_countdown (tm_hour tm_min tm_sec daily_hour daily_minute : Z)
  : Z * Z * Z :=
  let now_seconds := tm_hour * 60 * 60 + tm_min * 60 + tm_sec in
  let set_seconds := daily_hour * 60 * 60 + daily_minute * 60 in
  let rem_seconds :=
    if now_seconds - 1 <? set_seconds
    then set_seconds - now_seconds
    else 24 * 60 * 60 - now_seconds + set_seconds in
  let hours_remaining := rem_seconds ÷ 60 ÷ 60 in
  let minutes_remaining := (rem_seconds - hours_remaining * 60 * 60) ÷ 60 in
  let seconds_remaining :=
    rem_seconds - hours_remaining * 60 * 60 - minutes_remaining * 60 in
  (hours_remaining, minutes_remaining, seconds_remaining).

(** *** Formatted rows *)

(** The conversions of [snprintf] that the rows below use, as the C
    standard defines them. *)

(** [%d] of an [int]: its decimal digits, after a minus sign when it is
    negative. *)
Definition decimal (n : Z) : list byte :=
  list_byte_of_string (NilZero.string_of_int (Z.to_int n)).

(** A [uint32_t] argument read by [%d] as an [int]. *)
Definition int_of_uint32 (v : Z) : Z :=
  if v <? 2 ^ 31 then v else v - UINT32_MODULUS.

(** [%<width>d]: at least [width] characters, spaces on the left. *)
Definition format_d (width : nat) (n : Z) : list byte :=
  replicate (width - length (decimal n)) SPACE ++ decimal n.

(** [%-<width>d]: at least [width] characters, spaces on the right. *)
Definition format_d_left (width : nat) (n : Z) : list byte :=
  decimal n ++ replicate (width - length (decimal n)) SPACE.

(** [%0<width>d]: at least [width] characters, zeros after the sign. *)
Definition format_0d (width : nat) (n : Z) : list byte :=
  if n <? 0
  then "-"%byte :: replicate (width - length (decimal n)) "0"%byte ++ decimal (- n)
  else replicate (width - length (decimal n)) "0"%byte ++ decimal n.

(** [%-<width>s]: the string, spaces on the right up to [width]. *)
Definition format_s_left (width : nat) (s : list byte) : list byte :=
  s ++ replicate (width - length s) SPACE.

(** [%.<precision>s]: at most [precision] characters of the string. *)
Definition format_s_max (precision : nat) (s : list byte) : list byte :=
  take precision s.

(** The text of [_render_uptime],
    ["Up %4dd %02d:%02d:%02d"] of the four numbers of [_split_time]. *)
Definition uptime_text (uptime : Z) : list byte :=
  let '(days, hours, minutes, seconds) := _split_time uptime in
  list_byte_of_string "Up " ++ format_d 4 (int_of_uint32 days)
    ++ list_byte_of_string "d " ++ format_0d 2 (int_of_uint32 hours)
    ++ list_byte_of_string ":" ++ format_0d 2 (int_of_uint32 minutes)
    ++ list_byte_of_string ":" ++ format_0d 2 (int_of_uint32 seconds).

Definition _render_uptime (buffer : list byte) (size : nat) (uptime : Z)
  : list byte :=
  snprintf_text buffer size (uptime_text uptime).

(** The second row of [_handle_page_wifi_status]: the array [ssid] is cut
    by [ssid[8] = 0] and printed with the signal strength, an [int8_t], by
    ["%-16s %3d"]. *)
Definition wifi_signal_text (ssid : list byte) (rssi : Z) : list byte :=
  let ssid := <[8%nat := NUL]> ssid in
  format_s_left 16 (c_string ssid) ++ [SPACE] ++ format_d 3 rssi.

Definition wifi_signal_row (row ssid : list byte) (rssi : Z) : list byte :=
  snprintf_text row ROW_STRING_WIDTH (wifi_signal_text ssid rssi).

(** The second row of [_handle_page_mqtt_status]: the port is printed
    into [char port[6]] to measure it, and the address gets the columns
    the port and the colon leave: ["%.*s:%-*d"]. *)
Definition mqtt_broker_row (row broker_address : list byte) (broker_port : Z)
  : list byte :=
  let port := snprintf_text (replicate 6 NUL) 6 (decimal (int_of_uint32 broker_port)) in
  let port_len := strlen port in
  let addr_len := (DISPLAY_WIDTH - port_len - 1)%nat in
  snprintf_text row ROW_STRING_WIDTH
    (format_s_max addr_len (c_string broker_address)
       ++ list_byte_of_string ":"
       ++ format_d_left port_len (int_of_uint32 broker_port)).

(** [P] on the [count] integers from [n] on. *)
Fixpoint all_from (count : nat) (n : Z) (P : Z -> bool) : bool :=
  match count with
  | O => true
  | S count' => P n && all_from count' (n + 1) P
  end.

Global Instance byte_eq_dec : EqDecision byte := Byte.byte_eq_dec.

(** No byte of the text is NUL. *)
Definition no_NUL (text : list byte) : bool :=
  forallb (fun c => negb (Byte.eqb c NUL)) text.

(** [display_is_currently].  The datastore argument is [None] for a null
    pointer; otherwise it holds what [datastore_get_int32] finds under
    [RESOURCE_ID_DISPLAY_PAGE] ([None]: the read does not return
    [DATASTORE_STATUS_OK]). *)
Definition display_is_currently (datastore : option (option display_page_id_t))
    (page : display_page_id_t) : bool :=
  let displaying := false in
  match datastore with
  | Some (Some current_page) => page =? current_page
  | Some None | None => displaying
  end.

(** *** display_init and display_delete *)

(** The calls the two functions make. *)
Inductive lifecycle_call : Set :=
| xQueueCreate
| xTaskCreate_display_task
| button_init
| rotary_encoder_init
| rotary_encoder_delete
| button_delete
| vTaskDelete_task_handle
| LogE_display_already_initialised.

Global Instance lifecycle_call_eq_dec : EqDecision lifecycle_call.
Proof. solve_decision. Defined.

(** The statics [init] (of [display_init]) and [_task_handle]; the handle
    is kept as "null or not". *)
Record lifecycle : Set := {
  init : bool;
  task_handle_set : bool
}.

(** Before the first call. *)
Definition lifecycle_start : lifecycle :=
  {| init := false; task_handle_set := false |}.

(** [display_init]; [malloc_ok] tells whether [malloc] returns memory and
    [task_ok] whether [xTaskCreate] then stores a handle. *)
Definition display_init (malloc_ok task_ok : bool) (s : lifecycle)
  : lifecycle * list lifecycle_call :=
  if negb (init s) then
    ({| init := true;
        task_handle_set := if malloc_ok && task_ok then true else task_handle_set s |},
     [xQueueCreate]
       ++ (if malloc_ok then [xTaskCreate_display_task] else [])
       ++ [button_init; rotary_encoder_init])
  else (s, [LogE_display_already_initialised]).

Definition display_delete (s : lifecycle) : lifecycle * list lifecycle_call :=
  (s, [rotary_encoder_delete; button_delete]
        ++ (if task_handle_set s then [vTaskDelete_task_handle] else [])).

(** A call of the module's interface. *)
Inductive lifecycle_request : Set :=
| DisplayInit (malloc_ok task_ok : bool)
| DisplayDelete.

Fixpoint lifecycle_run (requests : list lifecycle_request) (s : lifecycle)
  : lifecycle * list lifecycle_call :=
  match requests with
  | [] => (s, [])
  | request :: rest =>
      let r := match request with
               | DisplayInit malloc_ok task_ok => display_init malloc_ok task_ok s
               | DisplayDelete => display_delete s
               end in
      let r' := lifecycle_run rest r.1 in
      (r'.1, r.2 ++ r'.2)
  end.

(** How often a call is made. *)
Definition calls_to (c : lifecycle_call) (calls : list lifecycle_call) : nat :=
  length (filter (fun x => x = c) calls).

(** *** Vocabulary for the properties of the display engine *)

(** The number of entries of the transition table for a page. *)
Definition entries_for (page : display_page_id_t) : nat :=
  length (filter (fun t => current t = page) transitions).

Section Vocabulary.

Context {D : Type} {driver : LcdDriver D}.

(** [runs c P]: in every world the computation [c] returns, and its
    result [a] and the events [t] it adds to the trace satisfy [P a t]. *)
Definition runs {A : Type} (c : M D A) (P : A -> list event -> Prop) : Prop :=
  forall w : world D,
    exists (a : A) (t : list event) (d : D),
      c w = Some (a, {| device := d; trace := trace w ++ t |}) /\ P a t.

(** The events of [_display_reset]: one reset, and otherwise nothing but
    glyph definitions. *)
Definition reset_events (t : list event) : Prop :=
  calls_of KReset t = 1%nat
  /\ forall k, k <> KReset -> k <> KDefineChar -> calls_of k t = 0%nat.

(** One failed attempt of a wrapper: the call returns the error [err], the
    task waits 10 ms, re-initialises the display and logs a warning. *)
Definition failed_attempt (op : lcd_op) (err : esp_err_t) (block : list event)
  : Prop :=
  exists (rs : list event) (name : string) (count : Z),
    err <> ESP_OK
    /\ block = EvLcd op err :: EvTaskDelay 10 :: rs ++ [EvLogW name count]
    /\ reset_events rs.

(** A wrapper gives up: all it does is a sequence of [attempts] failed
    attempts, and it returns the error code of the last one. *)
Definition gives_up (op : lcd_op) (attempts : nat) (w : world D)
    (result : option (esp_err_t * world D)) : Prop :=
  exists (err : esp_err_t) (w' : world D) (blocks : list (list event)),
    result = Some (err, w')
    /\ err <> ESP_OK
    /\ trace w' = trace w ++ concat blocks
    /\ length blocks = attempts
    /\ Forall (fun block => exists e, failed_attempt op e block) blocks
    /\ (exists block, last blocks = Some block /\ failed_attempt op err block)
    /\ calls_of (kind_of op) (concat blocks) = attempts
    /\ calls_of KReset (concat blocks) = attempts.

(** The error dispatch logs when it is handed a page outside the range. *)
Definition out_of_range_log (e : event) : Prop :=
  exists page, e = EvLogE "current page %d out of range" page.

Definition no_out_of_range_log (t : list event) : Prop :=
  Forall (fun e => ~ out_of_range_log e) t.

End Vocabulary.

(** *** Vocabulary for the traces of the display task *)

(** The LCD calls a trace records, with their results. *)
Definition lcd_calls (t : list event) : list (lcd_op * esp_err_t) :=
  omap (fun e => match e with
                 | EvLcd op err => Some (op, err)
                 | _ => None
                 end) t.

(** The results of the calls of the primitive [k], in order. *)
Definition results_of (k : lcd_op_kind) (t : list event) : list esp_err_t :=
  omap (fun e => match e with
                 | EvLcd op err => if decide (kind_of op = k) then Some err else None
                 | _ => None
                 end) t.

(** The pages written to [RESOURCE_ID_DISPLAY_PAGE], in order. *)
Definition published (t : list event) : list display_page_id_t :=
  omap (fun e => match e with
                 | EvDatastoreSetPage page => Some page
                 | _ => None
                 end) t.

Definition log_event (e : event) : bool :=
  match e with
  | EvLogI _ | EvLogW _ _ | EvLogE _ _ => true
  | _ => false
  end.

(** What the output layer does: LCD calls other than the backlight
    switch, delays and log lines. *)
Definition output_event (e : event) : bool :=
  match e with
  | EvLcd op _ => negb (bool_decide (kind_of op = KSetBacklight))
  | EvTaskDelay _ | EvLogI _ | EvLogW _ _ | EvLogE _ _ => true
  | _ => false
  end.

Definition lock_event (e : event) : bool :=
  match e with
  | EvI2cLock | EvI2cUnlock => true
  | _ => false
  end.

Definition backlight_off (e : event) : bool :=
  match e with
  | EvLcd (i2c_lcd1602_set_backlight false) _ => true
  | _ => false
  end.

Definition is_delay (e : event) : bool :=
  match e with
  | EvTaskDelay _ => true
  | _ => false
  end.

(** The primitives [_display_reset] calls when none of them fails. *)
Definition reset_sequence : list lcd_op :=
  [i2c_lcd1602_reset;
   i2c_lcd1602_define_char 0 degrees_C;
   i2c_lcd1602_define_char 1 arrow_down;
   i2c_lcd1602_define_char 2 arrow_up;
   i2c_lcd1602_define_char 3 delta].

(** A wrapper's calls of its primitive [k]: it stops at the first success
    and makes at most [attempts] calls; [resets] counts the
    re-initialisations of the display and [delays] the 10 ms waits. *)
Definition stops_at_first_success (k : lcd_op_kind) (attempts : nat)
    (err : esp_err_t) (t : list event) : Prop :=
  exists failures : list esp_err_t,
    results_of k t = failures ++ [err]
    /\ Forall (fun e => e <> ESP_OK) failures
    /\ (length failures < attempts)%nat
    /\ (err <> ESP_OK -> S (length failures) = attempts)
    /\ calls_of KReset t
       = (length failures + (if (err =? ESP_OK)%Z then 0 else 1))%nat
    /\ length (filter (fun e => is_delay e) t) = calls_of KReset t.

(** The value [_handle_transition] returns; it does not depend on the
    world. *)
Definition transition_target (input : input_t) (current_page : display_page_id_t)
  : display_page_id_t :=
  if page_in_range current_page then
    match input, transitions !! Z.to_nat current_page with
    | INPUT_OTHER _, _ => current_page
    | _, None => DISPLAY_PAGE_BLANK
    | ROTARY_ENCODER_EVENT_CLOCKWISE, Some entry => on_clockwise entry
    | ROTARY_ENCODER_EVENT_COUNTER_CLOCKWISE, Some entry => on_counter_clockwise entry
    | BUTTON_EVENT_SHORT, Some entry => on_short entry
    | BUTTON_EVENT_LONG, Some entry => on_long entry
    end
  else DISPLAY_PAGE_BLANK.

(** The current page after [display_task] has handled an input. *)
Definition next_page (input : input_t) (current_page : display_page_id_t)
  : display_page_id_t :=
  let new_page := transition_target input current_page in
  if negb (new_page =? current_page) && page_in_range new_page
  then new_page else current_page.

(** The events with which a healthy device shows [text] in row [i]. *)
Definition row_shown (i : nat) (text : list byte) : list event :=
  [EvLcd (i2c_lcd1602_move_cursor 0 (Z.of_nat i)) ESP_OK;
   EvLcd (i2c_lcd1602_write_string text) ESP_OK].

(** The visible width of a row's text: cut, or filled with spaces. *)
Definition visible_text (r : list byte) : list byte :=
  take LCD_NUM_VISIBLE_COLUMNS (c_string r ++ replicate LCD_NUM_VISIBLE_COLUMNS SPACE).


(** What handling one input adds to the trace, from the page [page] to the
    page [page']: the log line, the backlight switched on, the log of an
    invalid input ([tr]), the commit of a new page with, on the main page,
    the re-initialisation and clearing of the display ([out]), and the
    datastore dump. *)
Definition input_handled (input : input_t) (page page' : display_page_id_t)
    (t : list event) : Prop :=
  page' = next_page input page
  /\ exists (err : esp_err_t) (tr out : list event),
       t = [EvLogI "from queue"; EvLcd (i2c_lcd1602_set_backlight true) err]
             ++ tr
             ++ (if negb (page' =? page)
                 then [EvLogI "change to page"; EvDatastoreSetPage page']
                 else [])
             ++ out
             ++ (if (page' =? DISPLAY_PAGE_MAIN)
                    && bool_decide (input = BUTTON_EVENT_SHORT)
                 then [EvDumpDatastore] else [])
       /\ Forall (fun e => log_event e) tr
       /\ Forall (fun e => output_event e) out
       /\ (if negb (page' =? page) && (page' =? DISPLAY_PAGE_MAIN)
           then (1 <= calls_of KReset out)%nat
           else out = []).

(** The test that ends an iteration of [display_task]: the backlight has
    a timeout and it has passed since [timestamp]. *)
Definition backlight_due (backlight_timeout seconds_since_boot timestamp : Z) : bool :=
  (0 <? backlight_timeout)
  && (backlight_timeout <? wrap32 (seconds_since_boot - timestamp)).

(** The pages a rotation can reach and leave: all but the blank page. *)
Definition page_shown (page : display_page_id_t) : bool :=
  (DISPLAY_PAGE_MAIN <=? page) && (page <? DISPLAY_PAGE_LAST).


(** *** The exact traces of the output layer and of an iteration *)

(** What [I2C_LCD1602_ERROR_CHECK] adds to the trace for a code. *)
Definition error_check_events (err : esp_err_t) : list event :=
  if err =? ESP_OK then [] else [EvLogW "I2C error" err].

(** The glyph definitions [ops] that answer [results], each followed by
    its error check. *)
Fixpoint glyph_events (ops : list lcd_op) (results : list esp_err_t)
  : list event :=
  match ops, results with
  | op :: ops', err :: results' =>
      EvLcd op err :: error_check_events err ++ glyph_events ops' results'
  | _, _ => []
  end.

(** The trace of [_display_reset] when the calls it makes answer
    [results]: the log line, the reset (which no error check follows) and
    the glyph definitions. *)
Definition reset_events_of (results : list esp_err_t) : list event :=
  match reset_sequence, results with
  | reset :: glyphs, err :: results' =>
      EvLogI "display reset" :: EvLcd reset err :: glyph_events glyphs results'
  | _, _ => []
  end.

(** [rs] is the trace of one [_display_reset] that returns [err]: the
    calls before the last one made answer [ESP_OK]. *)
Definition display_reset_done (err : esp_err_t) (rs : list event) : Prop :=
  exists n : nat,
    (n < length reset_sequence)%nat
    /\ (err = ESP_OK -> S n = length reset_sequence)
    /\ rs = reset_events_of (replicate n ESP_OK ++ [err]).

(** The failed attempts of a wrapper, in order: each is the call with its
    code, the wait of 10 ms, the trace of the [_display_reset] and the
    warning with the number of the attempt; the first one logs [count]. *)
Fixpoint failed_attempts (name : string) (op : lcd_op) (count : Z)
    (failures : list (esp_err_t * list event)) : list event :=
  match failures with
  | [] => []
  | (err, rs) :: rest =>
      [EvLcd op err; EvTaskDelay 10] ++ rs ++ [EvLogW name count]
        ++ failed_attempts name op (count + 1) rest
  end.

(** Every failure has a code other than [ESP_OK] and is followed by one
    [_display_reset]. *)
Definition failures_reset (failures : list (esp_err_t * list event)) : Prop :=
  Forall (fun f => f.1 <> ESP_OK /\ exists e, display_reset_done e f.2) failures.

(** [t] is the trace of a wrapper that returns [err]: fewer than ten
    failed attempts and then the call that succeeds, or ten failed
    attempts, the last of which gives the code returned. *)
Definition wrapper_done (name : string) (op : lcd_op) (err : esp_err_t)
    (t : list event) : Prop :=
  exists failures : list (esp_err_t * list event),
    failures_reset failures
    /\ ((err = ESP_OK /\ (length failures < 10)%nat
         /\ t = failed_attempts name op 1 failures ++ [EvLcd op ESP_OK])
        \/ (err <> ESP_OK /\ length failures = 10%nat
            /\ fst <$> last failures = Some err
            /\ t = failed_attempts name op 1 failures)).

(** [t] is the rendering of row [i]: the cursor is moved to the start of
    the row and the row's string is written, each through its wrapper and
    followed by its error check. *)
Definition row_rendered (buffer : page_buffer_t) (i : nat) (t : list event)
  : Prop :=
  exists (moved written : esp_err_t) (tm tw : list event),
    wrapper_done "retry _move_cursor"
                 (i2c_lcd1602_move_cursor 0 (Z.of_nat i)) moved tm
    /\ wrapper_done "retry _write_string"
                    (i2c_lcd1602_write_string (c_string (row buffer i))) written tw
    /\ t = tm ++ error_check_events moved ++ tw ++ error_check_events written.

(** [t] is the rendering of the four rows, in order. *)
Definition page_rendered (buffer : page_buffer_t) (t : list event) : Prop :=
  exists t0 t1 t2 t3 : list event,
    row_rendered buffer 0 t0 /\ row_rendered buffer 1 t1
    /\ row_rendered buffer 2 t2 /\ row_rendered buffer 3 t3
    /\ t = t0 ++ t1 ++ t2 ++ t3.

(** [t] is what the loop does on the way to the main page: one
    [_display_reset], then [_clear] and its error check. *)
Definition main_entered (t : list event) : Prop :=
  exists (e cleared : esp_err_t) (rs tc : list event),
    display_reset_done e rs
    /\ wrapper_done "retry _clear" i2c_lcd1602_clear cleared tc
    /\ t = rs ++ tc ++ error_check_events cleared.

(** [t] is the trace of the handling of one input, from the page [page]
    to the page [page']. *)
Definition input_run (input : input_t) (page page' : display_page_id_t)
    (t : list event) : Prop :=
  page' = next_page input page
  /\ exists (lit : esp_err_t) (to_main : list event),
       t = [EvLogI "from queue"; EvLcd (i2c_lcd1602_set_backlight true) lit]
             ++ match input with
                | INPUT_OTHER code =>
                    if page_in_range page
                    then [EvLogE "invalid input %d" code] else []
                | _ => []
                end
             ++ (if negb (page' =? page)
                 then [EvLogI "change to page"; EvDatastoreSetPage page']
                 else [])
             ++ to_main
             ++ (if (page' =? DISPLAY_PAGE_MAIN)
                    && bool_decide (input = BUTTON_EVENT_SHORT)
                 then [EvDumpDatastore] else [])
       /\ (if negb (page' =? page) && (page' =? DISPLAY_PAGE_MAIN)
           then main_entered to_main
           else to_main = []).

(** [t] is what an iteration does after it has released the lock: the
    handling of the input it received, if any, and the switching off of
    the backlight when it is due. *)
Definition after_unlock (input : option input_t) (page page' : display_page_id_t)
    (due : bool) (t : list event) : Prop :=
  exists post off : list event,
    t = post ++ off
    /\ match input with
       | Some input => input_run input page page' post
       | None => post = [] /\ page' = page
       end
    /\ (if due
        then exists err, off = [EvLcd (i2c_lcd1602_set_backlight false) err]
        else off = []).


(** *** Sample devices, handlers and buffers *)

(** A device that answers every primitive with the same code. *)
Definition constant_driver (err : esp_err_t) : LcdDriver unit :=
  fun _ d => (err, d).

(** A device on which [i2c_lcd1602_clear] fails as many times as its
    state says, and everything else succeeds. *)
Definition flaky_driver : LcdDriver nat :=
  fun op d =>
    match op, d with
    | i2c_lcd1602_clear, S d' => (ESP_FAIL, d')
    | _, _ => (ESP_OK, d)
    end.

(** Handlers that all render the blank page, for a datastore without
    content. *)
Definition blank_handlers : PageHandlers (datastore_t := unit) :=
  {| _handle_page_main := _handle_page_blank;
     _handle_page_sensors_temp := _handle_page_blank;
     _handle_page_sensors_temp2 := _handle_page_blank;
     _handle_page_sensors_light := _handle_page_blank;
     _handle_page_sensors_flow := _handle_page_blank;
     _handle_page_power := _handle_page_blank;
     _handle_page_switches := _handle_page_blank;
     _handle_page_pump_status := _handle_page_blank;
     _handle_page_cp_control := _handle_page_blank;
     _handle_page_pp_control := _handle_page_blank;
     _handle_page_wifi_status := _handle_page_blank;
     _handle_page_mqtt_status := _handle_page_blank;
     _handle_page_resource_status := _handle_page_blank;
     _handle_page_avr_status := _handle_page_blank |}.

Definition empty_world {D : Type} (d : D) : world D :=
  {| device := d; trace := [] |}.

(** A sample buffer: the text of each row, NUL-padded to the allocated
    [LCD_NUM_COLUMNS + 1] bytes. *)
Definition sample_row (text : string) : list byte :=
  take (S LCD_NUM_COLUMNS)
       (list_byte_of_string text ++ replicate (S LCD_NUM_COLUMNS) NUL).

Definition sample_buffer : page_buffer_t :=
  [sample_row "ALARM"; sample_row ""; sample_row "Flow Rate  ---.- LPM";
   sample_row "Tasks             12"].

End Display.

(** * Properties of the controllers *)

Section ControlProperties.

Import Control.

(** ** Comparisons of floats *)

(** A strict "less than" one way excludes "less or equal" the other way. *)
Lemma SFcompare_Lt_swap (x y : spec_float) :
  SFcompare x y = Some Lt -> SFcompare y x = Some Gt.
Proof.
  destruct x as [sx | sx | | sx mx ex], y as [sy | sy | | sy my ey];
    cbn; try discriminate;
    try (destruct sx; discriminate); try (destruct sy; discriminate);
    try (destruct sx, sy; cbn; congruence).
  destruct sx, sy; try congruence; intros H; f_equal.
  - rewrite (Z.compare_antisym ex ey).
    destruct (ex ?= ey) eqn:E; cbn; try congruence.
    pose proof (Pos.compare_cont_antisym mx my Eq) as Hm; cbn in Hm.
    rewrite <- Hm.
    destruct (Pos.compare_cont Eq mx my); cbn in *; congruence.
  - rewrite (Z.compare_antisym ex ey).
    destruct (ex ?= ey) eqn:E; cbn; try congruence.
    pose proof (Pos.compare_cont_antisym mx my Eq) as Hm; cbn in Hm.
    rewrite <- Hm.
    destruct (Pos.compare_cont Eq mx my); cbn in *; congruence.
Qed.

Lemma float_lt_not_ge (x y : float) :
  Float32.lt x y = true -> Float32.ge x y = false.
Proof.
  unfold Float32.lt, Float32.ge, SFltb.
  destruct (SFcompare x y) as [[]|]; congruence.
Qed.

Lemma float_lt_not_le (x y : float) :
  Float32.lt x y = true -> Float32.le y x = false.
Proof.
  unfold Float32.lt, Float32.le, SFltb, SFleb; intros H.
  destruct (SFcompare x y) as [[]|] eqn:E; try discriminate.
  now rewrite (SFcompare_Lt_swap _ _ E).
Qed.

(** ** The circulation-pump controller *)

(** C1.  One iteration of the CP loop is a hysteresis step.  In state OFF
    with [T1 - T2 >= on-delta] the state becomes ON; in state ON with
    [T1 - T2 <= off-delta] the state becomes OFF; and whenever [T1 - T2]
    lies strictly between off-delta and on-delta the state is unchanged and
    no actuation call is made.  The difference and the comparisons are
    those of the C type [float]. *)
Theorem cp_hysteresis_step (datastore : datastore_t) (state : avr_pump_state_t) :
  (state = AVR_PUMP_STATE_OFF ->
   Float32.ge (cp_diff datastore) (RESOURCE_ID_CONTROL_CP_ON_DELTA datastore) = true ->
   (control_cp_tick datastore state).1 = AVR_PUMP_STATE_ON)
  /\ (state = AVR_PUMP_STATE_ON ->
      Float32.le (cp_diff datastore) (RESOURCE_ID_CONTROL_CP_OFF_DELTA datastore) = true ->
      (control_cp_tick datastore state).1 = AVR_PUMP_STATE_OFF)
  /\ (Float32.lt (RESOURCE_ID_CONTROL_CP_OFF_DELTA datastore) (cp_diff datastore) = true ->
      Float32.lt (cp_diff datastore) (RESOURCE_ID_CONTROL_CP_ON_DELTA datastore) = true ->
      control_cp_tick datastore state = (state, [])).
Proof.
  unfold control_cp_tick, control_cp_transitions, cp_diff.
  repeat split.
  - intros -> Hge. cbn. now rewrite Hge.
  - intros -> Hle. cbn. now rewrite Hle.
  - intros Hoff Hon. destruct state; cbn.
    + now rewrite (float_lt_not_ge _ _ Hon).
    + now rewrite (float_lt_not_le _ _ Hoff).
Qed.

(** The scenario of the design document: 30.0/24.0 with on-delta 5.0
    switches on; with off-delta 2.0 the pump stays on; 25.5/24.0 switches
    off; and 27.0/24.0 lies inside the band. *)
Lemma cp_hysteresis_step_witness :
  (control_cp_tick (sample 300 240 50 20 0 AVR_PUMP_STATE_OFF 0 0 0 0)
     AVR_PUMP_STATE_OFF).1 = AVR_PUMP_STATE_ON
  /\ (control_cp_tick (sample 255 240 50 20 0 AVR_PUMP_STATE_OFF 0 0 0 0)
        AVR_PUMP_STATE_ON).1 = AVR_PUMP_STATE_OFF
  /\ control_cp_tick (sample 270 240 50 20 0 AVR_PUMP_STATE_OFF 0 0 0 0)
       AVR_PUMP_STATE_ON = (AVR_PUMP_STATE_ON, []).
Proof.
  split; [|split].
  - apply (cp_hysteresis_step (sample 300 240 50 20 0 AVR_PUMP_STATE_OFF 0 0 0 0));
      [reflexivity | vm_compute; reflexivity].
  - apply (cp_hysteresis_step (sample 255 240 50 20 0 AVR_PUMP_STATE_OFF 0 0 0 0));
      [reflexivity | vm_compute; reflexivity].
  - apply (cp_hysteresis_step (sample 270 240 50 20 0 AVR_PUMP_STATE_OFF 0 0 0 0));
      vm_compute; reflexivity.
Defined.

(** ** Actuation *)

(** Every iteration of the PP loop either leaves the locals alone and
    calls nothing, or changes the state and makes one call. *)
Lemma control_pp_tick_cases (hz : Z) (datastore : datastore_t)
    (last_wake_time : Z) (l l' : pp_locals) (acts : list actuation) :
  control_pp_tick hz datastore last_wake_time l = Some (l', acts) ->
  (l' = l /\ acts = [])
  \/ (state l' <> state l /\ exists s, acts = [avr_support_set_pp_pump s]).
Proof.
  unfold control_pp_tick. intros H.
  destruct (state l) eqn:Hs.
  - destruct (_ && _); simplify_eq; [right | left; auto].
    cbn; split; [congruence | eauto].
  - destruct (cycle_end_time _ _ _) as [e|]; cbn in H; [|discriminate].
    destruct (e <=? last_wake_time); simplify_eq; [right | left; auto].
    cbn; split; [congruence | eauto].
  - destruct (cycle_end_time _ _ _) as [e|]; cbn in H; [|discriminate].
    destruct (0 <? n l), (e <=? last_wake_time); simplify_eq;
      try (left; split; reflexivity);
      right; cbn; (split; [congruence | eauto]).
Qed.

(** An iteration is defined unless it needs a cycle end that the cast
    from [float] leaves undefined. *)
Lemma control_pp_tick_defined (hz : Z) (datastore : datastore_t)
    (last_wake_time : Z) (l : pp_locals) :
  is_Some (control_pp_tick hz datastore last_wake_time l)
  <-> match state l with
      | STATE_PP_OFF => True
      | STATE_PP_ON =>
          is_Some (cycle_end_time hz (cycle_start_time l)
                     (RESOURCE_ID_CONTROL_PP_CYCLE_ON_DURATION datastore))
      | STATE_PP_PAUSE =>
          is_Some (cycle_end_time hz (cycle_start_time l)
                     (RESOURCE_ID_CONTROL_PP_CYCLE_PAUSE_DURATION datastore))
      end.
Proof.
  unfold control_pp_tick. destruct (state l).
  - destruct (_ && _); split; eauto.
  - destruct (cycle_end_time _ _ _) as [e|]; cbn.
    + destruct (e <=? last_wake_time); split; eauto.
    + split; intros [? ?]; discriminate.
  - destruct (cycle_end_time _ _ _) as [e|]; cbn.
    + destruct (0 <? n l), (e <=? last_wake_time); split; eauto.
    + split; intros [? ?]; discriminate.
Qed.

(** When the duration of the current phase has elapsed the controller
    moves on: from ON to PAUSE, and from PAUSE to ON while cycles remain,
    to OFF when none does. *)
Lemma control_pp_tick_when_due (hz : Z) (datastore : datastore_t)
    (last_wake_time cycle_end : Z) (l : pp_locals) :
  cycle_end <= last_wake_time ->
  (state l = STATE_PP_ON ->
   cycle_end_time hz (cycle_start_time l)
     (RESOURCE_ID_CONTROL_PP_CYCLE_ON_DURATION datastore) = Some cycle_end ->
   control_pp_tick hz datastore last_wake_time l
   = Some ({| state := STATE_PP_PAUSE; cycle_start_time := last_wake_time;
              n := n l |},
           [avr_support_set_pp_pump AVR_PUMP_STATE_OFF]))
  /\ (state l = STATE_PP_PAUSE ->
      cycle_end_time hz (cycle_start_time l)
        (RESOURCE_ID_CONTROL_PP_CYCLE_PAUSE_DURATION datastore) = Some cycle_end ->
      control_pp_tick hz datastore last_wake_time l
      = Some (if 0 <? n l
              then ({| state := STATE_PP_ON; cycle_start_time := last_wake_time;
                       n := wrap32 (n l - 1) |},
                    [avr_support_set_pp_pump AVR_PUMP_STATE_ON])
              else ({| state := STATE_PP_OFF;
                       cycle_start_time := cycle_start_time l; n := n l |},
                    [avr_support_set_pp_pump AVR_PUMP_STATE_OFF]))).
Proof.
  intros Hdue. apply Z.leb_le in Hdue.
  split; intros Hs He; unfold control_pp_tick; rewrite Hs, He; cbn;
    rewrite Hdue; [reflexivity|].
  now destruct (0 <? n l).
Qed.

(** C4.  Both controllers actuate on transitions only: an iteration makes a
    pump-actuation call if and only if it changes the controller's state. *)
Theorem actuation_only_on_transitions :
  (forall (datastore : datastore_t) (state : avr_pump_state_t),
      (control_cp_tick datastore state).2 <> []
      <-> (control_cp_tick datastore state).1 <> state)
  /\ (forall (hz : Z) (datastore : datastore_t) (last_wake_time : Z)
             (l l' : pp_locals) (acts : list actuation),
         control_pp_tick hz datastore last_wake_time l = Some (l', acts) ->
         (acts <> [] <-> state l' <> state l)).
Proof.
  split.
  - intros datastore state.
    unfold control_cp_tick, control_cp_transitions.
    destruct state; case_decide; try congruence;
      match goal with |- context [if ?b then _ else _] => destruct b end;
      cbn; split; congruence.
  - intros hz datastore last_wake_time l l' acts H.
    destruct (control_pp_tick_cases _ _ _ _ _ _ H) as [[-> ->] | [Hne [s ->]]];
      split; congruence.
Qed.

(** Both directions on sample ticks: a CP tick inside the band and one
    that switches on; a PP tick that changes nothing and one that starts a
    cycle. *)
Lemma actuation_only_on_transitions_witness :
  ((control_cp_tick (sample 270 240 50 20 0 AVR_PUMP_STATE_OFF 0 0 0 0)
      AVR_PUMP_STATE_ON).2 <> []
   <-> (control_cp_tick (sample 270 240 50 20 0 AVR_PUMP_STATE_OFF 0 0 0 0)
          AVR_PUMP_STATE_ON).1 <> AVR_PUMP_STATE_ON)
  /\ ([avr_support_set_pp_pump AVR_PUMP_STATE_ON] <> []
      <-> STATE_PP_ON <> state control_pp_init.1)
  /\ (@nil actuation <> [] <-> STATE_PP_OFF <> state control_pp_init.1).
Proof.
  destruct actuation_only_on_transitions as [Hcp Hpp].
  split; [apply Hcp | split].
  - apply (Hpp 100 (sample 300 240 50 20 20 AVR_PUMP_STATE_ON 50 2 60 30) 1000
             control_pp_init.1
             {| state := STATE_PP_ON; cycle_start_time := 1000; n := 1 |}).
    vm_compute; reflexivity.
  - apply (Hpp 100 (sample 300 240 50 20 20 AVR_PUMP_STATE_OFF 50 2 60 30) 1000
             control_pp_init.1 control_pp_init.1).
    vm_compute; reflexivity.
Defined.

(** ** The pool-pump controller leaves OFF *)

(** C6.  In state OFF the controller goes to ON exactly when the CP state
    read from the datastore is ON and the flow rate is at most the flow
    threshold.  On that transition it switches the pump on, records the
    tick count as cycle start and sets the remaining-cycle counter to the
    configured cycle count minus one (an unsigned 32-bit decrement: exactly
    [count - 1] for a count of at least one).  Otherwise nothing changes
    and nothing is called. *)
Theorem pp_off_to_on_trigger (hz : Z) (datastore : datastore_t)
    (last_wake_time : Z) (l : pp_locals) :
  state l = STATE_PP_OFF ->
  is_uint32 (RESOURCE_ID_CONTROL_PP_CYCLE_COUNT datastore) ->
  exists l' acts,
    control_pp_tick hz datastore last_wake_time l = Some (l', acts)
    /\ (state l' = STATE_PP_ON
        <-> RESOURCE_ID_PUMPS_CP_STATE datastore = AVR_PUMP_STATE_ON
            /\ Float32.le (RESOURCE_ID_FLOW_RATE datastore)
                          (RESOURCE_ID_CONTROL_FLOW_THRESHOLD datastore) = true)
    /\ (state l' = STATE_PP_ON ->
        acts = [avr_support_set_pp_pump AVR_PUMP_STATE_ON]
        /\ cycle_start_time l' = last_wake_time
        /\ n l' = wrap32 (RESOURCE_ID_CONTROL_PP_CYCLE_COUNT datastore - 1)
        /\ (1 <= RESOURCE_ID_CONTROL_PP_CYCLE_COUNT datastore ->
            n l' = RESOURCE_ID_CONTROL_PP_CYCLE_COUNT datastore - 1))
    /\ (state l' <> STATE_PP_ON -> l' = l /\ acts = []).
Proof.
  intros Hoff Hcount. unfold control_pp_tick. rewrite Hoff.
  destruct (bool_decide _) eqn:Hcp;
    [apply bool_decide_eq_true in Hcp | apply bool_decide_eq_false in Hcp];
    cbn [andb].
  - destruct (Float32.le _ _) eqn:Hflow; eexists _, _; (split; [reflexivity|]); cbn.
    + repeat split; try congruence.
      intros H1. unfold wrap32. apply Z.mod_small.
      unfold is_uint32 in Hcount. lia.
    + rewrite Hoff. repeat split; try congruence; intros []; congruence.
  - eexists _, _; (split; [reflexivity|]); cbn.
    rewrite Hoff. repeat split; try congruence; intros []; congruence.
Qed.

(** The scenario of the design document: PP OFF, CP ON, flow 2.0,
    threshold 5.0 and a cycle count of 2. *)
Lemma pp_off_to_on_trigger_witness :
  exists l' acts,
    control_pp_tick 100 (sample 300 240 50 20 20 AVR_PUMP_STATE_ON 50 2 60 30)
      1000 control_pp_init.1 = Some (l', acts)
    /\ (state l' = STATE_PP_ON <-> AVR_PUMP_STATE_ON = AVR_PUMP_STATE_ON /\ true = true)
    /\ (state l' = STATE_PP_ON ->
        acts = [avr_support_set_pp_pump AVR_PUMP_STATE_ON]
        /\ cycle_start_time l' = 1000
        /\ n l' = wrap32 (2 - 1)
        /\ (1 <= 2 -> n l' = 2 - 1))
    /\ (state l' <> STATE_PP_ON -> l' = control_pp_init.1 /\ acts = []).
Proof.
  apply (pp_off_to_on_trigger 100
           (sample 300 240 50 20 20 AVR_PUMP_STATE_ON 50 2 60 30) 1000
           control_pp_init.1).
  - reflexivity.
  - unfold is_uint32, UINT32_MODULUS, sample;
      cbn [RESOURCE_ID_CONTROL_PP_CYCLE_COUNT]; lia.
Defined.


(** ** Cycle accounting of the pool-pump controller *)

Lemma cycle_succ (k : nat) :
  cycle (S k) = STATE_PP_ON :: STATE_PP_PAUSE :: cycle k.
Proof. reflexivity. Qed.

Lemma wrap32_pred (z : Z) : 0 < z < UINT32_MODULUS -> wrap32 (z - 1) = z - 1.
Proof. intros H. unfold wrap32. apply Z.mod_small. lia. Qed.

(** Once a cycle has started, the controller can only walk down the rest
    of it, whatever the datastore holds and whenever the iterations run;
    and when it is back in OFF it has walked all of it. *)
Lemma pp_run_follows_cycle (hz : Z) (inputs : list (datastore_t * Z)) :
  forall (l : pp_locals) (steps : list (pp_locals * list actuation)),
    state l <> STATE_PP_OFF ->
    is_uint32 (n l) ->
    control_pp_run hz inputs l = Some steps ->
    until_off (entered (state l) steps) `prefix_of` remaining_states l
    /\ (STATE_PP_OFF ∈ entered (state l) steps ->
        until_off (entered (state l) steps) = remaining_states l).
Proof.
  induction inputs as [|[datastore now] rest IH]; intros l steps Hl Hn Hrun.
  - cbn in Hrun. simplify_eq. cbn. split.
    + apply prefix_nil.
    + intros H. inversion H.
  - cbn in Hrun.
    destruct (control_pp_tick hz datastore now l) as [[l' acts]|] eqn:Htick;
      cbn in Hrun; [|discriminate].
    destruct (control_pp_run hz rest l') as [tail|] eqn:Htail;
      cbn in Hrun; [|discriminate].
    injection Hrun as <-. cbn [entered fst].
    assert (Hstay : l' = l ->
              until_off (entered (state l) tail) `prefix_of` remaining_states l
              /\ (STATE_PP_OFF ∈ entered (state l) tail ->
                  until_off (entered (state l) tail) = remaining_states l)).
    { intros ->. now apply IH. }
    unfold control_pp_tick in Htick.
    destruct (state l) eqn:Hs; [congruence| |].
    + (* ON *)
      destruct (cycle_end_time _ _ _) as [e|]; cbn in Htick; [|discriminate].
      destruct (e <=? now); injection Htick as <- <-.
      * cbn [state]. rewrite decide_False by discriminate.
        cbn [until_off]. rewrite decide_False by discriminate.
        eapply IH in Htail as [IH1 IH2]; [| cbn; discriminate | exact Hn].
        cbn in IH1, IH2. unfold remaining_states. rewrite Hs. split.
        -- now apply prefix_cons.
        -- intros Hin. apply elem_of_cons in Hin as [Hin|Hin]; [discriminate|].
           now rewrite IH2.
      * rewrite decide_True by assumption. now apply Hstay.
    + (* PAUSE *)
      destruct (cycle_end_time _ _ _) as [e|]; cbn in Htick; [|discriminate].
      unfold is_uint32 in Hn.
      destruct (0 <? n l) eqn:Hpos;
        [apply Z.ltb_lt in Hpos | apply Z.ltb_ge in Hpos];
        destruct (e <=? now); injection Htick as <- <-.
      * cbn [state]. rewrite decide_False by discriminate.
        cbn [until_off]. rewrite decide_False by discriminate.
        eapply IH in Htail as [IH1 IH2];
          [| cbn; discriminate
           | cbn; rewrite wrap32_pred by lia; unfold is_uint32; lia].
        cbn in IH1, IH2. unfold remaining_states. rewrite Hs.
        rewrite wrap32_pred in IH1, IH2 by lia.
        replace (Z.to_nat (n l)) with (S (Z.to_nat (n l - 1))) by lia.
        rewrite cycle_succ. split.
        -- now apply prefix_cons.
        -- intros Hin. apply elem_of_cons in Hin as [Hin|Hin]; [discriminate|].
           now rewrite IH2.
      * rewrite decide_True by assumption. now apply Hstay.
      * cbn [state]. rewrite decide_False by discriminate.
        cbn [until_off]. rewrite decide_True by reflexivity.
        unfold remaining_states. rewrite Hs.
        replace (n l) with 0 by lia. cbn. split; [reflexivity | auto].
      * rewrite decide_True by assumption. now apply Hstay.
Qed.

(** The same from the tick that takes the OFF -> ON transition: with a
    configured cycle count [N] the decrement leaves [wrap32 (N - 1)], and
    the controller goes through one more pair than that. *)
Lemma pp_run_after_trigger (hz : Z) (datastore : datastore_t) (now : Z)
    (inputs : list (datastore_t * Z)) (l : pp_locals)
    (steps : list (pp_locals * list actuation)) :
  state l = STATE_PP_OFF ->
  pp_trigger datastore = true ->
  control_pp_run hz ((datastore, now) :: inputs) l = Some steps ->
  let pairs := S (Z.to_nat (wrap32 (RESOURCE_ID_CONTROL_PP_CYCLE_COUNT datastore - 1))) in
  until_off (entered STATE_PP_OFF steps) `prefix_of` cycle pairs
  /\ (STATE_PP_OFF ∈ entered STATE_PP_OFF steps ->
      until_off (entered STATE_PP_OFF steps) = cycle pairs).
Proof.
  intros Hoff Htrig Hrun pairs. cbn in Hrun.
  unfold control_pp_tick in Hrun. rewrite Hoff in Hrun.
  unfold pp_trigger in Htrig. rewrite Htrig in Hrun. cbn in Hrun.
  destruct (control_pp_run _ _ _) as [tail|] eqn:Htail; cbn in Hrun; [|discriminate].
  simplify_eq. cbn [entered fst state].
  rewrite decide_False by discriminate.
  cbn [until_off]. rewrite decide_False by discriminate.
  assert (Hn : is_uint32 (wrap32 (RESOURCE_ID_CONTROL_PP_CYCLE_COUNT datastore - 1))).
  { unfold is_uint32, wrap32. apply Z.mod_pos_bound. reflexivity. }
  eapply pp_run_follows_cycle in Htail as [H1 H2];
    [| cbn; discriminate | exact Hn].
  cbn in H1, H2. subst pairs. rewrite cycle_succ. split.
  - now apply prefix_cons.
  - intros Hin. apply elem_of_cons in Hin as [Hin|Hin]; [discriminate|].
    now rewrite H2.
Qed.

(** For a cycle count [N >= 1]: exactly [N] ON/PAUSE pairs, then OFF. *)
Lemma pp_cycle_accounting (hz : Z) (datastore : datastore_t) (now : Z)
    (inputs : list (datastore_t * Z)) (l : pp_locals)
    (steps : list (pp_locals * list actuation)) :
  state l = STATE_PP_OFF ->
  pp_trigger datastore = true ->
  1 <= RESOURCE_ID_CONTROL_PP_CYCLE_COUNT datastore < UINT32_MODULUS ->
  control_pp_run hz ((datastore, now) :: inputs) l = Some steps ->
  let pairs := Z.to_nat (RESOURCE_ID_CONTROL_PP_CYCLE_COUNT datastore) in
  until_off (entered STATE_PP_OFF steps) `prefix_of` cycle pairs
  /\ (STATE_PP_OFF ∈ entered STATE_PP_OFF steps ->
      until_off (entered STATE_PP_OFF steps) = cycle pairs).
Proof.
  intros Hoff Htrig HN Hrun pairs.
  pose proof (pp_run_after_trigger hz datastore now inputs l steps Hoff Htrig Hrun) as H.
  cbn zeta in H. rewrite wrap32_pred in H by lia.
  replace (S (Z.to_nat (RESOURCE_ID_CONTROL_PP_CYCLE_COUNT datastore - 1)))
    with pairs in H by (subst pairs; lia).
  exact H.
Qed.

(** The cycle counts 1 and 3, every duration elapsing on time (tick rate
    100 Hz, 60 s on, 30 s pause). *)
Example pp_cycle_count_one :
  let d := sample 300 240 50 20 20 AVR_PUMP_STATE_ON 50 1 60 30 in
  (fun steps => until_off (entered STATE_PP_OFF steps))
    <$> control_pp_run 100 [(d, 1000); (d, 7000); (d, 10000)] control_pp_init.1
  = Some (cycle 1).
Proof. vm_compute. reflexivity. Qed.

Example pp_cycle_count_three :
  let d := sample 300 240 50 20 20 AVR_PUMP_STATE_ON 50 3 60 30 in
  (fun steps => until_off (entered STATE_PP_OFF steps))
    <$> control_pp_run 100
          [(d, 1000); (d, 7000); (d, 10000); (d, 16000); (d, 19000);
           (d, 25000); (d, 28000)] control_pp_init.1
  = Some (cycle 3).
Proof. vm_compute. reflexivity. Qed.

(** C2, at a configured cycle count of zero.  The decrement [--n] wraps the
    unsigned counter to 4294967295; after the first ON/PAUSE pair the
    controller does not return to OFF but starts the next pair, and so on:
    the run below is in its third ON phase. *)
Theorem pp_cycle_count_zero_keeps_cycling :
  let d := sample 300 240 50 20 20 AVR_PUMP_STATE_ON 50 0 60 30 in
  exists steps,
    control_pp_run 100
      [(d, 1000); (d, 7000); (d, 10000); (d, 16000); (d, 19000)]
      control_pp_init.1 = Some steps
    /\ n <$> (fst <$> head steps) = Some 4294967295
    /\ entered STATE_PP_OFF steps
       = [STATE_PP_ON; STATE_PP_PAUSE; STATE_PP_ON; STATE_PP_PAUSE; STATE_PP_ON]
    /\ until_off (entered STATE_PP_OFF steps) <> cycle 0.
Proof.
  eexists. split; [vm_compute; reflexivity|].
  split; [reflexivity|]. split; [reflexivity|]. cbn. discriminate.
Qed.

(** With a cycle count of zero the controller is bound to 2^32 pairs. *)
Lemma pp_cycle_count_zero_pairs (hz : Z) (datastore : datastore_t) (now : Z)
    (inputs : list (datastore_t * Z)) (l : pp_locals)
    (steps : list (pp_locals * list actuation)) :
  state l = STATE_PP_OFF ->
  pp_trigger datastore = true ->
  RESOURCE_ID_CONTROL_PP_CYCLE_COUNT datastore = 0 ->
  control_pp_run hz ((datastore, now) :: inputs) l = Some steps ->
  STATE_PP_OFF ∈ entered STATE_PP_OFF steps ->
  until_off (entered STATE_PP_OFF steps) = cycle (Z.to_nat UINT32_MODULUS).
Proof.
  intros Hoff Htrig HN Hrun Hin.
  destruct (pp_run_after_trigger hz datastore now inputs l steps Hoff Htrig Hrun)
    as [_ H].
  rewrite (H Hin), HN.
  assert (Hw : wrap32 (0 - 1) = UINT32_MODULUS - 1) by (vm_compute; reflexivity).
  assert (Hm : 0 < UINT32_MODULUS) by reflexivity.
  rewrite Hw.
  replace (S (Z.to_nat (UINT32_MODULUS - 1))) with (Z.to_nat UINT32_MODULUS) by lia.
  reflexivity.
Qed.


End ControlProperties.

(** * Properties of the display engine *)

Section DisplayProperties.

Import Display.

(** ** Time decomposition *)

(** C10.  For every 32-bit unsigned number of seconds [_split_time] yields
    days, hours, minutes and seconds with hours < 24, minutes < 60 and
    seconds < 60 that recompose to the input; no term of the recomposition
    exceeds the input, so it does not overflow. *)
Theorem split_time_recomposes (time : Z) :
  is_uint32 time ->
  let '(days, hours, minutes, seconds) := _split_time time in
  0 <= days /\ 0 <= hours < 24 /\ 0 <= minutes < 60 /\ 0 <= seconds < 60
  /\ days * 86400 + hours * 3600 + minutes * 60 + seconds = time
  /\ is_uint32 (days * 86400)
  /\ is_uint32 (days * 86400 + hours * 3600)
  /\ is_uint32 (days * 86400 + hours * 3600 + minutes * 60).
Proof.
  unfold is_uint32, _split_time. intros Htime.
  assert (Hm : 0 < UINT32_MODULUS) by reflexivity.
  generalize dependent UINT32_MODULUS. intros modulus Htime Hm.
  Z.div_mod_to_equations. lia.
Qed.

Lemma split_time_recomposes_witness :
  let '(days, hours, minutes, seconds) := _split_time 200000 in
  0 <= days /\ 0 <= hours < 24 /\ 0 <= minutes < 60 /\ 0 <= seconds < 60
  /\ days * 86400 + hours * 3600 + minutes * 60 + seconds = 200000
  /\ is_uint32 (days * 86400)
  /\ is_uint32 (days * 86400 + hours * 3600)
  /\ is_uint32 (days * 86400 + hours * 3600 + minutes * 60).
Proof.
  apply (split_time_recomposes 200000).
  unfold is_uint32, UINT32_MODULUS. lia.
Defined.

Example split_time_two_days : _split_time 200000 = (2, 7, 33, 20).
Proof. reflexivity. Qed.

(** ** Row padding *)

(** The bytes before the first NUL are not NUL. *)
Lemma c_string_no_NUL (s : list byte) : Forall (fun c => c <> NUL) (c_string s).
Proof.
  unfold c_string. induction s as [|c s IH]; cbn; [constructor|].
  destruct (Byte.eqb c NUL) eqn:E; cbn; [constructor|].
  constructor; [|exact IH]. now apply Byte.eqb_false.
Qed.

Lemma strlen_le_length (s : list byte) : (strlen s <= length s)%nat.
Proof.
  induction s as [|c s IH]; cbn; [lia|].
  destruct (Byte.eqb c NUL); lia.
Qed.

(** A terminated string has the length of its text. *)
Lemma strlen_terminated (text rest : list byte) :
  Forall (fun c => c <> NUL) text -> strlen (text ++ NUL :: rest) = length text.
Proof.
  induction 1 as [|c text Hc _ IH]; cbn; [reflexivity|].
  destruct (Byte.eqb c NUL) eqn:E.
  - apply Byte.byte_dec_bl in E. contradiction.
  - now rewrite IH.
Qed.

(** The padding loop writes [x] into the positions [lo .. lo + k - 1]. *)
Lemma fill_range {A : Type} (x : A) (k : nat) :
  forall (lo : nat) (l : list A),
    (lo + k <= length l)%nat ->
    foldl (fun acc j => <[j := x]> acc) l (seq lo k)
    = take lo l ++ replicate k x ++ drop (lo + k) l.
Proof.
  induction k as [|k IH]; intros lo l Hlen; cbn [seq foldl replicate].
  - rewrite Nat.add_0_r. cbn. now rewrite take_drop.
  - rewrite IH by (rewrite length_insert; lia).
    assert (Hlo : (lo < length l)%nat) by lia.
    rewrite (take_S_r _ lo x) by (apply list_lookup_insert_eq; exact Hlo).
    rewrite take_insert_ge by lia.
    rewrite drop_insert_lt by lia.
    rewrite <- app_assoc. cbn.
    now replace (S (lo + k))%nat with (lo + S k)%nat by lia.
Qed.

(** One row after [extend_row]. *)
Lemma extend_row_spec (r : list byte) :
  (LCD_NUM_VISIBLE_COLUMNS < length r)%nat ->
  (strlen r <= LCD_NUM_VISIBLE_COLUMNS)%nat ->
  extend_row r
  = (c_string r ++ replicate (LCD_NUM_VISIBLE_COLUMNS - strlen r) SPACE)
      ++ NUL :: drop (S LCD_NUM_VISIBLE_COLUMNS) r.
Proof.
  intros Hlen Hstr. unfold extend_row, for_range.
  rewrite fill_range by lia.
  replace (strlen r + (LCD_NUM_VISIBLE_COLUMNS - strlen r))%nat
    with LCD_NUM_VISIBLE_COLUMNS by lia.
  fold (c_string r). rewrite app_assoc.
  assert (Hpre : length (c_string r ++ replicate (LCD_NUM_VISIBLE_COLUMNS - strlen r) SPACE)
                 = LCD_NUM_VISIBLE_COLUMNS).
  { rewrite length_app, length_replicate. unfold c_string.
    rewrite length_take_le by lia. lia. }
  rewrite insert_app_r_alt by lia.
  rewrite Hpre, Nat.sub_diag.
  destruct (lookup_lt_is_Some_2 r LCD_NUM_VISIBLE_COLUMNS Hlen) as [c Hc].
  now rewrite (drop_S _ c _ Hc).
Qed.

Lemma extend_rows_fmap (buffer : page_buffer_t) :
  length buffer = LCD_NUM_ROWS ->
  _extend_page_buffer_rows buffer = extend_row <$> buffer.
Proof.
  intros Hlen.
  destruct buffer as [|r0 [|r1 [|r2 [|r3 [|r4 rest]]]]]; try discriminate.
  reflexivity.
Qed.

(** C8.  When every rendered row fits the visible columns, the padding
    step leaves each of the four rows exactly [LCD_NUM_VISIBLE_COLUMNS]
    (20) characters long: the rendered text, space-filled on the right and
    NUL-terminated at the visible width.  The rows are the arrays
    [display_task] allocates, longer than the visible width. *)
Theorem extend_rows_pads (buffer : page_buffer_t) :
  length buffer = LCD_NUM_ROWS ->
  (forall (i : nat) (r : list byte), buffer !! i = Some r ->
     (LCD_NUM_VISIBLE_COLUMNS < length r)%nat
     /\ (strlen r <= LCD_NUM_VISIBLE_COLUMNS)%nat) ->
  length (_extend_page_buffer_rows buffer) = LCD_NUM_ROWS
  /\ forall i : nat, (i < LCD_NUM_ROWS)%nat ->
       let r := row buffer i in
       let r' := row (_extend_page_buffer_rows buffer) i in
       length r' = length r
       /\ strlen r' = LCD_NUM_VISIBLE_COLUMNS
       /\ c_string r'
          = c_string r ++ replicate (LCD_NUM_VISIBLE_COLUMNS - strlen r) SPACE
       /\ r' !! LCD_NUM_VISIBLE_COLUMNS = Some NUL.
Proof.
  intros Hrows Hfit. rewrite extend_rows_fmap by exact Hrows.
  split; [now rewrite length_fmap|].
  intros i Hi r r'. subst r r'. unfold row.
  rewrite list_lookup_fmap.
  destruct (lookup_lt_is_Some_2 buffer i ltac:(lia)) as [r Hr].
  rewrite Hr. cbn [fmap option_fmap option_map from_option Datatypes.id].
  destruct (Hfit i r Hr) as [Hlen Hstr].
  rewrite extend_row_spec by assumption.
  set (text := c_string r ++ replicate (LCD_NUM_VISIBLE_COLUMNS - strlen r) SPACE).
  assert (Htext : length text = LCD_NUM_VISIBLE_COLUMNS).
  { subst text. rewrite length_app, length_replicate. unfold c_string.
    rewrite length_take_le by lia. lia. }
  assert (Hnz : Forall (fun c => c <> NUL) text).
  { subst text. apply Forall_app. split; [apply c_string_no_NUL|].
    apply Forall_replicate. discriminate. }
  repeat split.
  - rewrite length_app. cbn [length]. rewrite length_drop. lia.
  - rewrite strlen_terminated by exact Hnz. exact Htext.
  - unfold c_string at 1. rewrite strlen_terminated by exact Hnz.
    now rewrite take_app_length.
  - rewrite lookup_app_r by lia. now rewrite Htext, Nat.sub_diag.
Qed.

Lemma extend_rows_pads_witness :
  length (_extend_page_buffer_rows sample_buffer) = LCD_NUM_ROWS
  /\ forall i : nat, (i < LCD_NUM_ROWS)%nat ->
       let r := row sample_buffer i in
       let r' := row (_extend_page_buffer_rows sample_buffer) i in
       length r' = length r
       /\ strlen r' = LCD_NUM_VISIBLE_COLUMNS
       /\ c_string r'
          = c_string r ++ replicate (LCD_NUM_VISIBLE_COLUMNS - strlen r) SPACE
       /\ r' !! LCD_NUM_VISIBLE_COLUMNS = Some NUL.
Proof.
  apply (extend_rows_pads sample_buffer).
  - reflexivity.
  - intros [|[|[|[|i]]]] r Hr; vm_compute in Hr; try discriminate;
      injection Hr as <-; vm_compute; split; lia.
Defined.

Example extend_rows_sample :
  c_string <$> _extend_page_buffer_rows sample_buffer
  = list_byte_of_string
      <$> ["ALARM               "; "                    ";
           "Flow Rate  ---.- LPM"; "Tasks             12"]%string.
Proof. vm_compute. reflexivity. Qed.


(** ** Page transitions *)

Section Transitions.

Context {D : Type} {driver : LcdDriver D}.
Context {datastore_t : Type} {handlers : PageHandlers (datastore_t := datastore_t)}.

(** The identifiers of the registry, in order. *)
Lemma page_specs_ids :
  id <$> page_specs
  = [DISPLAY_PAGE_BLANK; DISPLAY_PAGE_MAIN; DISPLAY_PAGE_SENSORS_TEMP;
     DISPLAY_PAGE_SENSORS_TEMP_2; DISPLAY_PAGE_SENSORS_LIGHT;
     DISPLAY_PAGE_SENSORS_FLOW; DISPLAY_PAGE_POWER; DISPLAY_PAGE_SWITCHES;
     DISPLAY_PAGE_PUMP_STATUS; DISPLAY_PAGE_CP_CONTROL; DISPLAY_PAGE_PP_CONTROL;
     DISPLAY_PAGE_ALARM; DISPLAY_PAGE_WIFI_STATUS; DISPLAY_PAGE_MQTT_STATUS;
     DISPLAY_PAGE_RESOURCE_STATUS; DISPLAY_PAGE_AVR_STATUS].
Proof. reflexivity. Qed.

(** The registry holds exactly the identifiers of the range. *)
Lemma registry_page_in_range (page : display_page_id_t) :
  page ∈ id <$> page_specs <-> page_in_range page = true.
Proof.
  rewrite page_specs_ids. unfold page_in_range, DISPLAY_PAGE_LAST. split.
  - intros H. repeat (apply elem_of_cons in H as [->|H]; [reflexivity|]).
    inversion H.
  - intros H. apply andb_true_iff in H as [H0 H1].
    apply Z.leb_le in H0. apply Z.ltb_lt in H1.
    assert (Hp : page = 0 \/ page = 1 \/ page = 2 \/ page = 3 \/ page = 4
                 \/ page = 5 \/ page = 6 \/ page = 7 \/ page = 8 \/ page = 9
                 \/ page = 10 \/ page = 11 \/ page = 12 \/ page = 13
                 \/ page = 14 \/ page = 15) by lia.
    repeat (destruct Hp as [-> | Hp]; [repeat constructor|]).
    subst. repeat constructor.
Qed.

(** C5.  The transition table is total over the registry.  Every page of
    the registry has exactly one entry in [transitions], found at the
    position the page indexes; for every such page and every input the
    lookup is defined and yields the ignore sentinel or a page of the
    registry; and an ignored input leaves the display on its page. *)
Theorem transition_table_total (page : display_page_id_t) :
  page ∈ id <$> page_specs ->
  entries_for page = 1%nat
  /\ current <$> transitions !! Z.to_nat page = Some page
  /\ forall (input : input_t) (w : world D),
       exists (next : display_page_id_t) (w' : world D),
         _handle_transition input page w = Some (next, w')
         /\ (next = DISPLAY_PAGE_IGNORE \/ next ∈ id <$> page_specs)
         /\ (next = DISPLAY_PAGE_IGNORE ->
             exists w'', handle_input input page w = Some (page, w'')).
Proof.
  intros Hpage. pose proof Hpage as Hrange.
  apply registry_page_in_range in Hrange.
  rewrite page_specs_ids in Hpage.
  split; [|split].
  - repeat (apply elem_of_cons in Hpage as [->|Hpage]; [reflexivity|]).
    inversion Hpage.
  - repeat (apply elem_of_cons in Hpage as [->|Hpage]; [reflexivity|]).
    inversion Hpage.
  - intros input w.
    unfold handle_input, _handle_transition, handle_transition_in.
    unfold mbind, M_bind, bind, emit, lcd_call, ret.
    rewrite Hrange.
    destruct (lcd_exec _ _) as [err d].
    repeat (apply elem_of_cons in Hpage as [->|Hpage];
            [destruct input; eexists _, _;
             (split; [reflexivity|]);
             (split; [first [left; reflexivity | right; repeat constructor]|]);
             intros Hnext; try discriminate Hnext;
             eexists; reflexivity|]).
    inversion Hpage.
Qed.

End Transitions.


(** ** The output layer *)

Section OutputLayer.

Context {D : Type} {driver : LcdDriver D}.

Lemma calls_of_app (k : lcd_op_kind) (t1 t2 : list event) :
  calls_of k (t1 ++ t2) = (calls_of k t1 + calls_of k t2)%nat.
Proof. unfold calls_of. now rewrite filter_app, length_app. Qed.

Lemma calls_of_lcd (k : lcd_op_kind) (op : lcd_op) (err : esp_err_t) :
  calls_of k [EvLcd op err] = if decide (kind_of op = k) then 1%nat else 0%nat.
Proof.
  unfold calls_of. rewrite filter_cons, filter_nil. cbn [is_call].
  destruct (decide (kind_of op = k)) as [Heq|Hne].
  - rewrite decide_True; [reflexivity|]. now apply bool_decide_pack.
  - rewrite decide_False; [reflexivity|].
    intros H. now apply bool_decide_unpack in H.
Qed.

Lemma calls_of_cons (k : lcd_op_kind) (e : event) (t : list event) :
  calls_of k (e :: t) = ((if is_call k e then 1 else 0) + calls_of k t)%nat.
Proof.
  unfold calls_of. rewrite filter_cons.
  destruct (is_call k e); [rewrite decide_True | rewrite decide_False];
    cbn; auto.
Qed.

Lemma runs_ret {A : Type} (a : A) (P : A -> list event -> Prop) :
  P a [] -> runs (D := D) (ret a) P.
Proof.
  intros HP w. exists a, [], (device w). split; [|exact HP].
  unfold ret. rewrite app_nil_r. now destruct w.
Qed.

Lemma runs_emit (e : event) (P : unit -> list event -> Prop) :
  P tt [e] -> runs (D := D) (emit e) P.
Proof. intros HP w. now exists tt, [e], (device w). Qed.

Lemma runs_lcd_call (op : lcd_op) (P : esp_err_t -> list event -> Prop) :
  (forall d, P (lcd_exec op d).1 [EvLcd op (lcd_exec op d).1]) ->
  runs (lcd_call op) P.
Proof.
  intros HP w. specialize (HP (device w)). unfold lcd_call.
  destruct (lcd_exec op (device w)) as [err d]. now exists err, [EvLcd op err], d.
Qed.

Lemma runs_bind {A B : Type} (c : M D A) (k : A -> M D B)
    (Q : B -> list event -> Prop) :
  runs c (fun a t1 => runs (k a) (fun b t2 => Q b (t1 ++ t2))) ->
  runs (c ≫= k) Q.
Proof.
  intros Hc w. destruct (Hc w) as (a & t1 & d & Hcw & Hk).
  destruct (Hk {| device := d; trace := trace w ++ t1 |})
    as (b & t2 & d' & Hkw & HQ).
  exists b, (t1 ++ t2), d'. split; [|exact HQ].
  unfold mbind, M_bind, bind. rewrite Hcw, Hkw. cbn. now rewrite app_assoc.
Qed.

Lemma runs_weaken {A : Type} (c : M D A) (P Q : A -> list event -> Prop) :
  runs c P -> (forall a t, P a t -> Q a t) -> runs c Q.
Proof.
  intros Hc HPQ w. destruct (Hc w) as (a & t & d & Hcw & HP).
  exists a, t, d. auto.
Qed.

Lemma define_char_if_ok_runs (err : esp_err_t) (index : nat) (glyph : list Z) :
  runs (define_char_if_ok err index glyph)
       (fun _ t => forall k, k <> KDefineChar -> calls_of k t = 0%nat).
Proof.
  unfold define_char_if_ok. destruct (err =? ESP_OK).
  - apply runs_bind, runs_lcd_call. intros d.
    apply runs_bind. unfold I2C_LCD1602_ERROR_CHECK.
    destruct (_ =? ESP_OK); [apply runs_ret | apply runs_emit];
      apply runs_ret; intros k Hk;
      rewrite !calls_of_app, calls_of_lcd, decide_False by (cbn; congruence);
      reflexivity.
  - apply runs_ret. reflexivity.
Qed.

Lemma display_reset_runs : runs _display_reset (fun _ t => reset_events t).
Proof.
  unfold _display_reset.
  apply runs_bind, runs_emit.
  apply runs_bind, runs_lcd_call. intros d.
  apply runs_bind. eapply runs_weaken; [apply define_char_if_ok_runs|].
  cbn beta. intros err0 t0 H0.
  apply runs_bind. eapply runs_weaken; [apply define_char_if_ok_runs|].
  cbn beta. intros err1 t1 H1.
  apply runs_bind. eapply runs_weaken; [apply define_char_if_ok_runs|].
  cbn beta. intros err2 t2 H2.
  apply runs_bind. eapply runs_weaken; [apply define_char_if_ok_runs|].
  cbn beta. intros err3 t3 H3.
  apply runs_ret. split.
  - rewrite !calls_of_app, calls_of_lcd, decide_True by reflexivity.
    rewrite H0, H1, H2, H3 by discriminate. reflexivity.
  - intros k Hk1 Hk2.
    rewrite !calls_of_app, calls_of_lcd, decide_False by (cbn; congruence).
    rewrite H0, H1, H2, H3 by assumption. reflexivity.
Qed.

Lemma failed_attempts_count (op : lcd_op) (blocks : list (list event)) :
  kind_of op <> KReset -> kind_of op <> KDefineChar ->
  Forall (fun block => exists e, failed_attempt op e block) blocks ->
  calls_of (kind_of op) (concat blocks) = length blocks
  /\ calls_of KReset (concat blocks) = length blocks.
Proof.
  intros Hk1 Hk2. induction 1 as [|block blocks Hb _ [IH1 IH2]]; [now split|].
  destruct Hb as (err & rs & name & count & _ & -> & Hreset & Hother).
  cbn [concat length]. rewrite !calls_of_app, IH1, IH2.
  rewrite !calls_of_cons, !calls_of_app, Hreset, (Hother _ Hk1 Hk2).
  cbn [is_call]. rewrite bool_decide_true by reflexivity.
  rewrite bool_decide_false by congruence. split; reflexivity.
Qed.

(** The retry loop on a primitive that always fails. *)
Lemma retry_runs (name : string) (op : lcd_op) :
  (forall d, (lcd_exec op d).1 <> ESP_OK) ->
  forall (attempts_left : nat) (err : esp_err_t),
    runs (retry name op attempts_left err)
         (fun e t =>
            (attempts_left = 0%nat -> e = err)
            /\ exists blocks,
                 t = concat blocks /\ length blocks = attempts_left
                 /\ Forall (fun block => exists e', failed_attempt op e' block) blocks
                 /\ (attempts_left <> 0%nat ->
                     exists block, last blocks = Some block
                                   /\ failed_attempt op e block)).
Proof.
  intros Hfail. induction attempts_left as [|k IH]; intros err; cbn [retry].
  - apply runs_ret. split; [reflexivity|]. exists [].
    split; [reflexivity|]. split; [reflexivity|]. split; [constructor|].
    intros H. now destruct H.
  - apply runs_bind, runs_lcd_call. intros d.
    destruct (_ =? ESP_OK) eqn:Hok;
      [apply Z.eqb_eq in Hok; now destruct (Hfail d)|].
    apply runs_bind, runs_emit.
    apply runs_bind. eapply runs_weaken; [apply display_reset_runs|].
    cbn beta. intros _ rs Hrs.
    apply runs_bind, runs_emit.
    eapply runs_weaken; [apply IH|].
    cbn beta. intros e t (He & blocks & -> & Hlen & Hblocks & Hlast).
    split; [discriminate|].
    set (block := EvLcd op (lcd_exec op d).1 :: EvTaskDelay 10
                    :: rs ++ [EvLogW name (10 - Z.of_nat k)]).
    assert (Hblock : failed_attempt op (lcd_exec op d).1 block)
      by (exists rs, name, (10 - Z.of_nat k); auto).
    exists (block :: blocks). repeat split.
    + subst block. cbn. now rewrite <- app_assoc.
    + cbn. now rewrite Hlen.
    + constructor; [eauto | exact Hblocks].
    + intros _. destruct k as [|k].
      * destruct blocks; [|discriminate]. rewrite He by reflexivity.
        exists block. split; [reflexivity | exact Hblock].
      * destruct (Hlast ltac:(discriminate)) as (b & Hb & Hfb).
        exists b. split; [|exact Hfb]. rewrite last_cons. now rewrite Hb.
Qed.

Lemma retry_gives_up (name : string) (op : lcd_op) (w : world D) :
  kind_of op <> KReset -> kind_of op <> KDefineChar ->
  (forall d, (lcd_exec op d).1 <> ESP_OK) ->
  gives_up op 10 w (retry name op 10 ESP_FAIL w).
Proof.
  intros Hk1 Hk2 Hfail.
  destruct (retry_runs name op Hfail 10 ESP_FAIL w)
    as (e & t & d & Hrun & _ & blocks & -> & Hlen & Hblocks & Hlast).
  destruct (failed_attempts_count op blocks Hk1 Hk2 Hblocks) as [Hc1 Hc2].
  destruct (Hlast ltac:(discriminate)) as (block & Hblock & Hfb).
  exists e, {| device := d; trace := trace w ++ concat blocks |}, blocks.
  rewrite Hc1, Hc2, Hlen. repeat split; eauto.
  now destruct Hfb as (_ & _ & _ & Hne & _).
Qed.

(** C3.  Each of the three wrappers is bounded: when the primitive it wraps
    fails on every call, the wrapper makes exactly ten attempts, each
    followed by a 10 ms wait and a re-initialisation of the display (one
    reset per failure), and then returns the failure of the last attempt
    to its caller. *)
Theorem output_layer_bounded_retry (w : world D) :
  ((forall d, (lcd_exec i2c_lcd1602_clear d).1 <> ESP_OK) ->
   gives_up i2c_lcd1602_clear 10 w (_clear w))
  /\ (forall col row : Z,
        (forall d, (lcd_exec (i2c_lcd1602_move_cursor col row) d).1 <> ESP_OK) ->
        gives_up (i2c_lcd1602_move_cursor col row) 10 w (_move_cursor col row w))
  /\ (forall s : list byte,
        (forall d, (lcd_exec (i2c_lcd1602_write_string s) d).1 <> ESP_OK) ->
        gives_up (i2c_lcd1602_write_string s) 10 w (_write_string s w)).
Proof.
  repeat split; intros; apply retry_gives_up; auto; discriminate.
Qed.


End OutputLayer.


(** ** Dispatch *)

Section Dispatch.

Context {D : Type} {driver : LcdDriver D}.
Context {datastore_t : Type} {handlers : PageHandlers (datastore_t := datastore_t)}.

(** A loop that alters the rows [lo .. lo + k - 1]. *)
Lemma for_range_alter_lookup {A : Type} (f : A -> A) (k : nat) :
  forall (lo : nat) (l : list A) (i : nat),
    foldl (fun acc j => alter f j acc) l (seq lo k) !! i
    = if decide (lo <= i < lo + k)%nat then f <$> l !! i else l !! i.
Proof.
  induction k as [|k IH]; intros lo l i; cbn [seq foldl].
  - rewrite decide_False by lia. reflexivity.
  - rewrite IH. destruct (decide (i = lo)) as [->|Hne].
    + rewrite decide_False by lia. rewrite decide_True by lia.
      apply list_lookup_alter_eq.
    + rewrite list_lookup_alter_ne by congruence.
      destruct (decide (S lo <= i < S lo + k)%nat);
        [rewrite decide_True by lia | rewrite decide_False by lia]; reflexivity.
Qed.

(** Clearing the rows twice is clearing them once. *)
Lemma clear_rows_idempotent (buffer : page_buffer_t) :
  clear_rows (clear_rows buffer) = clear_rows buffer.
Proof.
  apply list_eq. intros i. unfold clear_rows, for_range.
  rewrite !for_range_alter_lookup.
  destruct (decide _); [|reflexivity].
  destruct (buffer !! i) as [r|]; cbn; [|reflexivity].
  now rewrite list_insert_insert_eq.
Qed.

(** C7.  When the page identifier is out of range, or the registry entry
    at its position carries another identifier or has no handler, dispatch
    does not stop the task: it logs one error and returns, and the row
    buffer it leaves is what the blank page's handler produces.  The rows
    are those [display_task] hands over: it clears every row right before
    its call of [dispatch_to_handler], the only one.  Dispatch itself
    changes neither the rows nor the state cells in these branches; it
    assigns [DISPLAY_PAGE_BLANK] to its own parameter and runs no
    handler. *)
Theorem dispatch_failure_leaves_buffer (specs : list page_spec_t)
    (buffer : page_buffer_t) (cells : static_cells)
    (page : display_page_id_t) (datastore : datastore_t) (w : world D) :
  Z.of_nat (length specs) = DISPLAY_PAGE_LAST ->
  (page_in_range page = false
   \/ exists spec, specs !! Z.to_nat page = Some spec
                   /\ (id spec <> page \/ handler spec = None)) ->
  (forall (buffer0 : page_buffer_t) (state : option bool),
      buffer = clear_rows buffer0 ->
      exists message : string,
        dispatch_to_handler_in specs buffer cells page datastore w
        = Some (((_handle_page_blank buffer state datastore).1, cells),
                {| device := device w;
                   trace := trace w ++ [EvLogE message page] |}))
  /\ (exists message : string,
        dispatch_to_handler_in specs buffer cells page datastore w
        = Some ((buffer, cells),
                {| device := device w;
                   trace := trace w ++ [EvLogE message page] |})).
Proof.
  intros Hlen Hbad.
  assert (Hrun : exists message : string,
            dispatch_to_handler_in specs buffer cells page datastore w
            = Some ((buffer, cells),
                    {| device := device w;
                       trace := trace w ++ [EvLogE message page] |})).
  { unfold dispatch_to_handler_in. rewrite decide_True by exact Hlen.
    destruct Hbad as [Hrange | (spec & Hspec & Hbad)].
    - rewrite Hrange. eexists. reflexivity.
    - destruct (page_in_range page); [|eexists; reflexivity].
      unfold mbind, M_bind, bind. rewrite Hspec. cbn [lift_option ret].
      destruct (id spec =? page) eqn:Hid; [|eexists; reflexivity].
      apply Z.eqb_eq in Hid. destruct Hbad as [Hne | Hnone]; [contradiction|].
      rewrite Hnone. eexists. reflexivity. }
  split; [|exact Hrun].
  intros buffer0 state Hcleared. destruct Hrun as [message Hrun].
  exists message. rewrite Hrun. do 3 f_equal.
  subst buffer. cbn. symmetry. apply clear_rows_idempotent.
Qed.

End Dispatch.


(** ** The display loop *)

Section Loop.

Context {D : Type} {driver : LcdDriver D}.
Context {datastore_t : Type} {handlers : PageHandlers (datastore_t := datastore_t)}.

Ltac solve_quiet :=
  unfold no_out_of_range_log in *;
  repeat first
    [ assumption
    | apply Forall_nil_2
    | apply Forall_app_2
    | apply Forall_cons_2
    | (intros [? Hlog]; discriminate Hlog) ].

Lemma runs_lift_Some {A : Type} (o : option A) (a : A)
    (P : A -> list event -> Prop) :
  o = Some a -> P a [] -> runs (D := D) (lift_option o) P.
Proof. intros ->. apply runs_ret. Qed.

Lemma error_check_quiet (err : esp_err_t) :
  runs (D := D) (I2C_LCD1602_ERROR_CHECK err) (fun _ t => no_out_of_range_log t).
Proof.
  unfold I2C_LCD1602_ERROR_CHECK.
  destruct (err =? ESP_OK); [apply runs_ret | apply runs_emit]; solve_quiet.
Qed.

Lemma define_char_if_ok_quiet (err : esp_err_t) (index : nat) (glyph : list Z) :
  runs (define_char_if_ok err index glyph) (fun _ t => no_out_of_range_log t).
Proof.
  unfold define_char_if_ok. destruct (err =? ESP_OK).
  - apply runs_bind, runs_lcd_call. intros d.
    apply runs_bind. eapply runs_weaken; [apply error_check_quiet|].
    cbn beta. intros _ t Ht. apply runs_ret. solve_quiet.
  - apply runs_ret. solve_quiet.
Qed.

Lemma display_reset_quiet :
  runs _display_reset (fun _ t => no_out_of_range_log t).
Proof.
  unfold _display_reset.
  apply runs_bind, runs_emit.
  apply runs_bind, runs_lcd_call. intros d.
  do 4 (apply runs_bind;
        eapply runs_weaken; [apply define_char_if_ok_quiet|];
        cbn beta; intros ? ? ?).
  apply runs_ret. solve_quiet.
Qed.

Lemma retry_quiet (name : string) (op : lcd_op) (attempts_left : nat) :
  forall err, runs (retry name op attempts_left err)
                   (fun _ t => no_out_of_range_log t).
Proof.
  induction attempts_left as [|k IH]; intros err; cbn [retry].
  - apply runs_ret. solve_quiet.
  - apply runs_bind, runs_lcd_call. intros d.
    destruct (_ =? ESP_OK); [apply runs_ret; solve_quiet|].
    apply runs_bind, runs_emit.
    apply runs_bind. eapply runs_weaken; [apply display_reset_quiet|].
    cbn beta. intros _ rs Hrs.
    apply runs_bind, runs_emit.
    eapply runs_weaken; [apply IH|].
    cbn beta. intros _ t Ht. solve_quiet.
Qed.

Lemma for_each_quiet (body : nat -> M D unit) (k : nat) :
  (forall i, runs (body i) (fun _ t => no_out_of_range_log t)) ->
  forall lo, runs (foldr (fun i rest => bind (body i) (fun _ => rest)) (ret tt)
                         (seq lo k))
                  (fun _ t => no_out_of_range_log t).
Proof.
  intros Hbody. induction k as [|k IH]; intros lo; cbn [seq foldr].
  - apply runs_ret. solve_quiet.
  - apply (runs_bind (body lo)). eapply runs_weaken; [apply Hbody|].
    cbn beta. intros _ t1 Ht1.
    eapply runs_weaken; [apply IH|].
    cbn beta. intros _ t2 Ht2. solve_quiet.
Qed.

Lemma render_page_buffer_quiet (buffer : page_buffer_t) :
  runs (_render_page_buffer buffer) (fun _ t => no_out_of_range_log t).
Proof.
  unfold _render_page_buffer.
  apply runs_bind, runs_emit.
  apply runs_bind. eapply runs_weaken.
  - apply for_each_quiet. intros i.
    apply runs_bind. eapply runs_weaken; [apply retry_quiet|].
    cbn beta. intros err t1 Ht1.
    apply runs_bind. eapply runs_weaken; [apply error_check_quiet|].
    cbn beta. intros _ t2 Ht2.
    apply runs_bind. eapply runs_weaken; [apply retry_quiet|].
    cbn beta. intros err' t3 Ht3.
    eapply runs_weaken; [apply error_check_quiet|].
    cbn beta. intros _ t4 Ht4. solve_quiet.
  - cbn beta. intros _ t Ht. apply runs_emit. solve_quiet.
Qed.

(** The transition lookup always returns. *)
Lemma handle_transition_quiet (input : input_t) (page : display_page_id_t) :
  runs (D := D) (_handle_transition input page)
       (fun _ t => no_out_of_range_log t).
Proof.
  unfold _handle_transition, handle_transition_in.
  destruct (page_in_range page) eqn:Hrange; [|apply runs_ret; solve_quiet].
  apply (registry_page_in_range (handlers := handlers)) in Hrange.
  rewrite page_specs_ids in Hrange.
  destruct input;
    try (apply runs_bind, runs_emit, runs_ret; solve_quiet);
    repeat (apply elem_of_cons in Hrange as [->|Hrange];
            [apply runs_bind;
             eapply runs_lift_Some; [reflexivity|];
             apply runs_ret; solve_quiet|]);
    inversion Hrange.
Qed.

(** Handling an input keeps the current page in range: a new page is
    committed only behind the range check. *)
Lemma handle_input_in_range (input : input_t) (page : display_page_id_t) :
  page_in_range page = true ->
  runs (handle_input input page)
       (fun page' t => page_in_range page' = true /\ no_out_of_range_log t).
Proof.
  intros Hrange. unfold handle_input.
  apply runs_bind, runs_emit.
  apply runs_bind, runs_lcd_call. intros d.
  apply runs_bind. eapply runs_weaken; [apply handle_transition_quiet|].
  cbn beta. intros new_page t1 Ht1.
  apply runs_bind.
  apply runs_weaken
    with (P := fun page' t => page_in_range page' = true /\ no_out_of_range_log t).
  - destruct (negb (new_page =? page)) eqn:Hnew; cbn [andb];
      [destruct (page_in_range new_page) eqn:Hnr|];
      try (apply runs_ret; split; [assumption | solve_quiet]).
    apply runs_bind, runs_emit.
    apply runs_bind, runs_emit.
    apply runs_bind.
    apply runs_weaken with (P := fun _ t => no_out_of_range_log t).
    + destruct (new_page =? DISPLAY_PAGE_MAIN); [|apply runs_ret; solve_quiet].
      apply runs_bind. eapply runs_weaken; [apply display_reset_quiet|].
      cbn beta. intros _ t2 Ht2.
      apply runs_bind. eapply runs_weaken; [apply retry_quiet|].
      cbn beta. intros err t3 Ht3.
      eapply runs_weaken; [apply error_check_quiet|].
      cbn beta. intros _ t4 Ht4. solve_quiet.
    + intros _ t2 Ht2. apply runs_ret. split; [assumption | solve_quiet].
  - intros page' t2 [Hpage' Ht2].
    apply runs_bind.
    apply runs_weaken with (P := fun _ t => no_out_of_range_log t).
    + destruct (_ && _); [apply runs_emit | apply runs_ret]; solve_quiet.
    + intros _ t3 Ht3. apply runs_ret. split; [assumption | solve_quiet].
Qed.

(** Inside the range dispatch finds the page's handler and logs nothing. *)
Lemma dispatch_in_range (buffer : page_buffer_t) (cells : static_cells)
    (page : display_page_id_t) (datastore : datastore_t) :
  page_in_range page = true ->
  runs (D := D) (dispatch_to_handler buffer cells page datastore)
       (fun _ t => t = []).
Proof.
  intros Hrange. unfold dispatch_to_handler, dispatch_to_handler_in.
  rewrite decide_True by reflexivity. rewrite Hrange.
  apply (registry_page_in_range (handlers := handlers)) in Hrange.
  rewrite page_specs_ids in Hrange.
  repeat (apply elem_of_cons in Hrange as [->|Hrange];
          [apply runs_bind;
           eapply runs_lift_Some; [reflexivity|];
           cbn [id handler state Z.eqb Pos.eqb DISPLAY_PAGE_BLANK DISPLAY_PAGE_MAIN
                DISPLAY_PAGE_SENSORS_TEMP DISPLAY_PAGE_SENSORS_TEMP_2
                DISPLAY_PAGE_SENSORS_LIGHT DISPLAY_PAGE_SENSORS_FLOW
                DISPLAY_PAGE_POWER DISPLAY_PAGE_SWITCHES DISPLAY_PAGE_PUMP_STATUS
                DISPLAY_PAGE_CP_CONTROL DISPLAY_PAGE_PP_CONTROL DISPLAY_PAGE_ALARM
                DISPLAY_PAGE_WIFI_STATUS DISPLAY_PAGE_MQTT_STATUS
                DISPLAY_PAGE_RESOURCE_STATUS DISPLAY_PAGE_AVR_STATUS];
           match goal with
           | |- context [let '(_, _) := ?call in _] => destruct call
           end;
           apply runs_ret; reflexivity|]).
  inversion Hrange.
Qed.

Lemma display_task_iteration_in_range (inp : iteration_input) (l : task_locals) :
  page_in_range (current_page l) = true ->
  runs (display_task_iteration inp l)
       (fun l' t => page_in_range (current_page l') = true
                    /\ no_out_of_range_log t).
Proof.
  intros Hrange. unfold display_task_iteration.
  apply runs_bind. eapply runs_weaken; [now apply dispatch_in_range|].
  cbn beta. intros r t0 ->.
  apply runs_bind. eapply runs_weaken; [apply render_page_buffer_quiet|].
  cbn beta. intros _ t1 Ht1.
  apply runs_bind.
  apply runs_weaken
    with (P := fun l' t => page_in_range (current_page l') = true
                            /\ no_out_of_range_log t).
  - destruct (queue_receive inp) as [input|].
    + apply runs_bind. eapply runs_weaken; [now apply handle_input_in_range|].
      cbn beta. intros page' t2 [Hpage' Ht2].
      apply runs_ret. split; [exact Hpage' | solve_quiet].
    + apply runs_ret. split; [exact Hrange | solve_quiet].
  - intros l' t2 [Hl' Ht2].
    apply runs_bind.
    apply runs_weaken with (P := fun _ t => no_out_of_range_log t).
    + destruct (_ && _); [|apply runs_ret; solve_quiet].
      apply runs_bind, runs_lcd_call. intros d. apply runs_ret. solve_quiet.
    + intros _ t3 Ht3. apply runs_ret. split; [exact Hl' | solve_quiet].
Qed.

(** C9.  The current page of the display loop is always a valid registry
    index.  It starts as the home page; however many iterations run and
    whatever they receive, the loop keeps running, the current page stays
    within [0, DISPLAY_PAGE_LAST), and dispatch never logs that it was
    handed a page out of range. *)
Theorem current_page_always_in_range (inputs : list iteration_input)
    (buffer0 : page_buffer_t) (now : Z) :
  current_page (display_task_locals buffer0 now) = INITIAL_PAGE
  /\ page_in_range INITIAL_PAGE = true
  /\ runs (display_task_run inputs (display_task_locals buffer0 now))
          (fun l t => page_in_range (current_page l) = true
                      /\ no_out_of_range_log t).
Proof.
  split; [reflexivity|]. split; [reflexivity|].
  assert (Hinit : page_in_range (current_page (display_task_locals buffer0 now)) = true)
    by reflexivity.
  revert Hinit. generalize (display_task_locals buffer0 now).
  induction inputs as [|inp rest IH]; intros l Hl; cbn [display_task_run].
  - apply runs_ret. split; [exact Hl | solve_quiet].
  - apply runs_bind.
    eapply runs_weaken; [now apply display_task_iteration_in_range|].
    cbn beta. intros l' t1 [Hl' Ht1].
    eapply runs_weaken; [now apply IH|].
    cbn beta. intros l'' t2 [Hl'' Ht2]. split; [exact Hl'' | solve_quiet].
Qed.

End Loop.


(** ** The properties on sample devices *)

Lemma transition_table_total_witness :
  entries_for DISPLAY_PAGE_MAIN = 1%nat
  /\ current <$> transitions !! Z.to_nat DISPLAY_PAGE_MAIN = Some DISPLAY_PAGE_MAIN
  /\ forall (input : input_t) (w : world unit),
       exists (next : display_page_id_t) (w' : world unit),
         _handle_transition input DISPLAY_PAGE_MAIN w = Some (next, w')
         /\ (next = DISPLAY_PAGE_IGNORE
             \/ next ∈ id <$> page_specs (handlers := blank_handlers))
         /\ (next = DISPLAY_PAGE_IGNORE ->
             exists w'',
               handle_input (driver := constant_driver ESP_OK) input
                 DISPLAY_PAGE_MAIN w = Some (DISPLAY_PAGE_MAIN, w'')).
Proof.
  apply (transition_table_total (driver := constant_driver ESP_OK)
           (handlers := blank_handlers) DISPLAY_PAGE_MAIN).
  vm_compute. repeat constructor.
Defined.

(** A device on which every primitive fails. *)
Lemma output_layer_bounded_retry_witness :
  gives_up i2c_lcd1602_clear 10 (empty_world tt)
    (_clear (driver := constant_driver ESP_FAIL) (empty_world tt))
  /\ gives_up (i2c_lcd1602_move_cursor 0 2) 10 (empty_world tt)
       (_move_cursor (driver := constant_driver ESP_FAIL) 0 2 (empty_world tt))
  /\ gives_up (i2c_lcd1602_write_string (list_byte_of_string "ALARM")) 10
       (empty_world tt)
       (_write_string (driver := constant_driver ESP_FAIL)
          (list_byte_of_string "ALARM") (empty_world tt)).
Proof.
  destruct (output_layer_bounded_retry (driver := constant_driver ESP_FAIL)
              (empty_world tt)) as (Hclear & Hmove & Hwrite).
  split; [|split].
  - apply Hclear. intros d. vm_compute. discriminate.
  - apply Hmove. intros d. vm_compute. discriminate.
  - apply Hwrite. intros d. vm_compute. discriminate.
Defined.

(** On a device whose clear fails three times the wrapper succeeds at the
    fourth attempt, after three resets. *)
Example clear_recovers :
  (fun r => (r.1, calls_of KClear (trace r.2), calls_of KReset (trace r.2)))
    <$> _clear (driver := flaky_driver) (empty_world 3%nat)
  = Some (ESP_OK, 4%nat, 3%nat).
Proof. vm_compute. reflexivity. Qed.

Example clear_gives_up :
  (fun r => (r.1, calls_of KClear (trace r.2), calls_of KReset (trace r.2)))
    <$> _clear (driver := flaky_driver) (empty_world 12%nat)
  = Some (ESP_FAIL, 10%nat, 10%nat).
Proof. vm_compute. reflexivity. Qed.

(** The rows of the sample buffer, cleared as the loop clears them: with
    an identifier out of range, and with a registry of the right size
    whose entries have no handler. *)
Lemma dispatch_failure_leaves_buffer_witness :
  ((forall (buffer0 : page_buffer_t) (state : option bool),
       clear_rows sample_buffer = clear_rows buffer0 ->
       exists message : string,
         dispatch_to_handler_in (D := unit)
           (page_specs (handlers := blank_handlers))
           (clear_rows sample_buffer)
           {| main_activity_value := false; blink_arrow_value := false |}
           DISPLAY_PAGE_LAST tt (empty_world tt)
         = Some (((_handle_page_blank (datastore_t := unit)
                     (clear_rows sample_buffer) state tt).1,
                  {| main_activity_value := false; blink_arrow_value := false |}),
                 {| device := tt;
                    trace := [] ++ [EvLogE message DISPLAY_PAGE_LAST] |}))
   /\ (exists message : string,
         dispatch_to_handler_in (D := unit)
           (page_specs (handlers := blank_handlers))
           (clear_rows sample_buffer)
           {| main_activity_value := false; blink_arrow_value := false |}
           DISPLAY_PAGE_LAST tt (empty_world tt)
         = Some ((clear_rows sample_buffer,
                  {| main_activity_value := false; blink_arrow_value := false |}),
                 {| device := tt;
                    trace := [] ++ [EvLogE message DISPLAY_PAGE_LAST] |})))
  /\ (forall (buffer0 : page_buffer_t) (state : option bool),
        clear_rows sample_buffer = clear_rows buffer0 ->
        exists message : string,
          dispatch_to_handler_in (D := unit)
            (replicate 16 (Build_page_spec_t (datastore_t := unit)
                             DISPLAY_PAGE_ALARM None None))
            (clear_rows sample_buffer)
            {| main_activity_value := false; blink_arrow_value := false |}
            DISPLAY_PAGE_ALARM tt (empty_world tt)
          = Some (((_handle_page_blank (datastore_t := unit)
                      (clear_rows sample_buffer) state tt).1,
                   {| main_activity_value := false; blink_arrow_value := false |}),
                  {| device := tt;
                     trace := [] ++ [EvLogE message DISPLAY_PAGE_ALARM] |})).
Proof.
  split.
  - apply (dispatch_failure_leaves_buffer (D := unit)
             (page_specs (handlers := blank_handlers))).
    + reflexivity.
    + left. reflexivity.
  - apply (dispatch_failure_leaves_buffer (D := unit)
             (replicate 16 (Build_page_spec_t (datastore_t := unit)
                              DISPLAY_PAGE_ALARM None None))
             (clear_rows sample_buffer)
             {| main_activity_value := false; blink_arrow_value := false |}
             DISPLAY_PAGE_ALARM tt (empty_world tt)).
    + reflexivity.
    + right. eexists. split; [reflexivity|]. right. reflexivity.
Defined.

(** The loop's own rows: handed [DISPLAY_PAGE_LAST], dispatch leaves four
    empty rows, as the blank page's handler does. *)
Example dispatch_failure_in_loop :
  exists (buffer' : page_buffer_t) (cells' : static_cells) (w' : world unit),
    dispatch_to_handler (D := unit) (handlers := blank_handlers)
      (clear_rows sample_buffer)
      {| main_activity_value := false; blink_arrow_value := false |}
      DISPLAY_PAGE_LAST tt (empty_world tt)
    = Some ((buffer', cells'), w')
    /\ buffer' = (_handle_page_blank (datastore_t := unit) sample_buffer None tt).1
    /\ c_string <$> buffer' = list_byte_of_string <$> [""; ""; ""; ""]%string.
Proof.
  eexists _, _, _. split; [vm_compute; reflexivity|].
  split; vm_compute; reflexivity.
Qed.

(** The assignment of [DISPLAY_PAGE_BLANK] to the parameter has no effect
    of its own: on rows that were not cleared first, which [display_task]
    never hands over, the text would stay. *)
Example dispatch_keeps_uncleared_rows :
  exists (buffer' : page_buffer_t) (cells' : static_cells) (w' : world unit),
    dispatch_to_handler (D := unit) (handlers := blank_handlers) sample_buffer
      {| main_activity_value := false; blink_arrow_value := false |}
      DISPLAY_PAGE_LAST tt (empty_world tt)
    = Some ((buffer', cells'), w')
    /\ c_string <$> buffer'
       = list_byte_of_string
           <$> ["ALARM"; ""; "Flow Rate  ---.- LPM"; "Tasks             12"]%string.
Proof.
  eexists _, _, _. split; vm_compute; reflexivity.
Qed.

(** Three turns clockwise from the home page, an ignored long press, and
    a turn back. *)
Example display_run_pages :
  (fun r => current_page r.1)
    <$> display_task_run (driver := constant_driver ESP_OK)
          (handlers := blank_handlers)
          (map (fun input => {| datastore := tt;
                                queue_receive := input;
                                seconds_at_input := 10;
                                backlight_timeout := 30;
                                seconds_at_timeout_check := 10 |})
               [Some ROTARY_ENCODER_EVENT_CLOCKWISE; None;
                Some ROTARY_ENCODER_EVENT_CLOCKWISE;
                Some ROTARY_ENCODER_EVENT_CLOCKWISE;
                Some BUTTON_EVENT_LONG;
                Some ROTARY_ENCODER_EVENT_COUNTER_CLOCKWISE])
          (display_task_locals sample_buffer 0) (empty_world tt)
  = Some DISPLAY_PAGE_SENSORS_LIGHT.
Proof. vm_compute. reflexivity. Qed.


(** One iteration on the alarm page: the junk left in the buffer is
    cleared, the handler prints its text, and the padded rows are what the
    device is sent. *)
Example alarm_page_rendered :
  (fun r => (c_string <$> buffer r.1,
             omap (fun e => match e with
                            | EvLcd (i2c_lcd1602_write_string s) _ => Some s
                            | _ => None
                            end) (trace r.2)))
    <$> display_task_iteration (driver := constant_driver ESP_OK)
          (handlers := blank_handlers)
          {| datastore := tt; queue_receive := None; seconds_at_input := 0;
             backlight_timeout := 0; seconds_at_timeout_check := 0 |}
          {| current_page := DISPLAY_PAGE_ALARM; buffer := sample_buffer;
             backlight_timestamp := 0;
             cells := {| main_activity_value := false;
                         blink_arrow_value := false |} |}
          (empty_world tt)
  = Some (list_byte_of_string
            <$> ["ALARM               "; "                    ";
                 "                    "; "                    "]%string,
          list_byte_of_string
            <$> ["ALARM               "; "                    ";
                 "                    "; "                    "]%string).
Proof. vm_compute. reflexivity. Qed.


End DisplayProperties.

(** * Further properties of the controllers *)

Section ControlRuns.

Import Control.

(** X1.  A reading that is not a number freezes the circulation-pump controller:
    whichever temperature is NaN, the state stays what it is and no call is
    made, so a pump that is on stays on. *)
Theorem cp_nan_freezes (datastore : datastore_t) (state : avr_pump_state_t) :
  RESOURCE_ID_TEMP_VALUE datastore 0 = S754_nan
  \/ RESOURCE_ID_TEMP_VALUE datastore 1 = S754_nan ->
  control_cp_tick datastore state = (state, []).
Proof.
  intros Hnan.
  assert (Hdiff : cp_diff datastore = S754_nan).
  { unfold cp_diff, Float32.sub. destruct Hnan as [-> | ->]; [reflexivity|].
    now destruct (RESOURCE_ID_TEMP_VALUE datastore 0). }
  unfold control_cp_tick, control_cp_transitions. fold (cp_diff datastore).
  rewrite Hdiff. now destruct state.
Qed.

Lemma cp_nan_freezes_witness :
  control_cp_tick sample_nan AVR_PUMP_STATE_ON = (AVR_PUMP_STATE_ON, []).
Proof. apply (cp_nan_freezes sample_nan). left. reflexivity. Defined.

Lemma adjacent_distinct_snoc {A : Type} (l : list A) (b c : A) :
  adjacent_distinct l -> last l = Some b -> b <> c -> adjacent_distinct (l ++ [c]).
Proof.
  induction l as [|a [|a' l] IH]; intros Hl Hlast Hbc; [discriminate| |].
  - cbn in *. simplify_eq. auto.
  - destruct Hl as [Haa Hl]. rewrite last_cons_cons in Hlast.
    split; [exact Haa|]. now apply IH.
Qed.

Lemma final_state_cons {S : Type} (init r : S * list actuation)
    (steps : list (S * list actuation)) :
  final_state init (r :: steps) = final_state (r.1, []) steps.
Proof.
  unfold final_state. rewrite last_cons.
  now destruct (last steps).
Qed.

(** One iteration of the CP loop either does nothing or switches to the
    other state and commands it. *)
Lemma control_cp_tick_cases (datastore : datastore_t) (state : avr_pump_state_t) :
  control_cp_tick datastore state = (state, [])
  \/ exists state', state' <> state
       /\ control_cp_tick datastore state = (state', [avr_support_set_cp_pump state']).
Proof.
  unfold control_cp_tick, control_cp_transitions.
  destruct state; case_decide; try congruence;
    match goal with |- context [if ?b then _ else _] => destruct b end;
    cbn; eauto; right; eexists; (split; [|reflexivity]); congruence.
Qed.

Lemma control_cp_run_commands (inputs : list datastore_t) :
  forall (state : avr_pump_state_t) (before : list actuation),
    last before = Some (avr_support_set_cp_pump state) ->
    adjacent_distinct before ->
    let steps := control_cp_run inputs state in
    last (before ++ concat (snd <$> steps))
    = Some (avr_support_set_cp_pump (final_state (state, []) steps))
    /\ adjacent_distinct (before ++ concat (snd <$> steps)).
Proof.
  induction inputs as [|datastore rest IH]; intros state before Hlast Hdist; cbn.
  - rewrite app_nil_r. auto.
  - rewrite final_state_cons.
    destruct (control_cp_tick_cases datastore state) as [-> | (state' & Hne & ->)];
      cbn [fst snd app].
    + now apply IH.
    + rewrite cons_middle, app_assoc. apply IH.
      * apply last_snoc.
      * eapply adjacent_distinct_snoc; eauto. congruence.
Qed.

(** X2.  Over any run of the circulation-pump controller, the last call it has
    made commands the state it is in, and no call repeats the one before:
    the pump is told OFF, ON, OFF, ... in turn. *)
Theorem cp_commands_alternate (inputs : list datastore_t) :
  let steps := control_cp_run inputs control_cp_init.1 in
  last (calls_made control_cp_init steps)
  = Some (avr_support_set_cp_pump (final_state control_cp_init steps))
  /\ adjacent_distinct (calls_made control_cp_init steps).
Proof.
  apply (control_cp_run_commands inputs AVR_PUMP_STATE_OFF
           [avr_support_set_cp_pump AVR_PUMP_STATE_OFF]);
    cbn; auto.
Qed.

Example cp_commands_sample :
  calls_made control_cp_init
    (control_cp_run
       [sample 300 240 50 20 0 AVR_PUMP_STATE_OFF 0 0 0 0;
        sample 270 240 50 20 0 AVR_PUMP_STATE_OFF 0 0 0 0;
        sample 255 240 50 20 0 AVR_PUMP_STATE_OFF 0 0 0 0;
        sample 255 240 50 20 0 AVR_PUMP_STATE_OFF 0 0 0 0]
       control_cp_init.1)
  = [avr_support_set_cp_pump AVR_PUMP_STATE_OFF;
     avr_support_set_cp_pump AVR_PUMP_STATE_ON;
     avr_support_set_cp_pump AVR_PUMP_STATE_OFF].
Proof. vm_compute. reflexivity. Qed.

(** One iteration of the PP loop either does nothing or commands the pump
    state that goes with the state it enters. *)
Lemma control_pp_tick_command (hz : Z) (datastore : datastore_t)
    (last_wake_time : Z) (l l' : pp_locals) (acts : list actuation) :
  control_pp_tick hz datastore last_wake_time l = Some (l', acts) ->
  (l' = l /\ acts = [])
  \/ acts = [avr_support_set_pp_pump (pump_of (state l'))].
Proof.
  unfold control_pp_tick. intros H.
  destruct (state l) eqn:Hs.
  - destruct (_ && _); simplify_eq; auto.
  - destruct (cycle_end_time _ _ _) as [e|]; cbn in H; [|discriminate].
    destruct (e <=? last_wake_time); simplify_eq; auto.
  - destruct (cycle_end_time _ _ _) as [e|]; cbn in H; [|discriminate].
    destruct (0 <? n l), (e <=? last_wake_time); simplify_eq; auto.
Qed.

Lemma control_pp_run_commands (hz : Z) (inputs : list (datastore_t * Z)) :
  forall (l : pp_locals) (before : list actuation)
         (steps : list (pp_locals * list actuation)),
    last before = Some (avr_support_set_pp_pump (pump_of (state l))) ->
    control_pp_run hz inputs l = Some steps ->
    last (before ++ concat (snd <$> steps))
    = Some (avr_support_set_pp_pump (pump_of (state (final_state (l, []) steps)))).
Proof.
  induction inputs as [|[datastore now] rest IH]; intros l before steps Hlast Hrun.
  - cbn in Hrun. simplify_eq. cbn. now rewrite app_nil_r.
  - cbn in Hrun.
    destruct (control_pp_tick hz datastore now l) as [[l' acts]|] eqn:Htick;
      cbn in Hrun; [|discriminate].
    destruct (control_pp_run hz rest l') as [tail|] eqn:Htail;
      cbn in Hrun; [|discriminate].
    injection Hrun as <-. rewrite final_state_cons. cbn [fst snd fmap list_fmap concat].
    rewrite app_assoc. apply IH; [|exact Htail].
    destruct (control_pp_tick_command _ _ _ _ _ _ Htick) as [[-> ->] | ->].
    + now rewrite app_nil_r.
    + apply last_snoc.
Qed.

(** X3.  Over any run of the pool-pump controller the last call it has made
    commands the pump ON if the controller is in its ON state and OFF
    otherwise: the pump runs exactly during the ON phases. *)
Theorem pp_pump_follows_state (hz : Z) (inputs : list (datastore_t * Z))
    (steps : list (pp_locals * list actuation)) :
  control_pp_run hz inputs control_pp_init.1 = Some steps ->
  last (calls_made control_pp_init steps)
  = Some (avr_support_set_pp_pump
            (pump_of (state (final_state control_pp_init steps)))).
Proof.
  intros Hrun.
  apply (control_pp_run_commands hz inputs control_pp_init.1
           [avr_support_set_pp_pump AVR_PUMP_STATE_OFF] steps);
    [reflexivity | exact Hrun].
Qed.

Lemma pp_pump_follows_state_witness :
  exists steps,
    control_pp_run 100
      [(sample 300 240 50 20 20 AVR_PUMP_STATE_ON 50 2 60 30, 1000);
       (sample 300 240 50 20 20 AVR_PUMP_STATE_ON 50 2 60 30, 7000)]
      control_pp_init.1 = Some steps
    /\ last (calls_made control_pp_init steps)
       = Some (avr_support_set_pp_pump
                 (pump_of (state (final_state control_pp_init steps)))).
Proof.
  eexists. split; [vm_compute; reflexivity|].
  apply (pp_pump_follows_state 100
           [(sample 300 240 50 20 20 AVR_PUMP_STATE_ON 50 2 60 30, 1000);
            (sample 300 240 50 20 20 AVR_PUMP_STATE_ON 50 2 60 30, 7000)]).
  vm_compute. reflexivity.
Defined.

(** The cast to ticks yields a 32-bit unsigned number. *)
Lemma to_uint32_range (x : float) (t : Z) :
  Float32.to_uint32 x = Some t -> is_uint32 t.
Proof.
  unfold Float32.to_uint32, is_uint32. destruct x as [s | s | | s m e]; try discriminate.
  - intros [= <-]. split; [lia | reflexivity].
  - destruct s.
    + destruct (_ =? 0); [|discriminate]. intros [= <-]. split; [lia | reflexivity].
    + destruct (Z.shiftl (Z.pos m) e <? UINT32_MODULUS) eqn:Hlt; [|discriminate].
      intros [= <-]. apply Z.ltb_lt in Hlt. split; [|exact Hlt].
      apply Z.shiftl_nonneg. lia.
Qed.

(** X4.  The end of a phase is computed modulo 2^32.  When the start of the
    phase plus its length in ticks passes 2^32, the end wraps below the
    start and the phase is over at the next iteration that still sees a
    tick count at or above the start, however little time has passed. *)
Theorem pp_phase_cut_by_tick_overflow (hz : Z) (datastore : datastore_t)
    (last_wake_time ticks : Z) (l : pp_locals) :
  state l <> STATE_PP_OFF ->
  is_uint32 (cycle_start_time l) ->
  Float32.to_uint32
    (Float32.mul (phase_duration datastore (state l)) (Float32.of_Z hz))
  = Some ticks ->
  UINT32_MODULUS <= cycle_start_time l + ticks ->
  cycle_start_time l <= last_wake_time ->
  exists l' acts,
    control_pp_tick hz datastore last_wake_time l = Some (l', acts)
    /\ state l' <> state l
    /\ cycle_end_time hz (cycle_start_time l) (phase_duration datastore (state l))
       = Some (cycle_start_time l + ticks - UINT32_MODULUS).
Proof.
  intros Hs Hstart Hticks Hwrap Hnow.
  pose proof (to_uint32_range _ _ Hticks) as Hrange.
  unfold is_uint32 in Hstart, Hrange.
  assert (Hend : cycle_end_time hz (cycle_start_time l)
                   (phase_duration datastore (state l))
                 = Some (cycle_start_time l + ticks - UINT32_MODULUS)).
  { unfold cycle_end_time. rewrite Hticks. cbn. f_equal. unfold wrap32.
    symmetry. apply Z.mod_unique with (q := 1); lia. }
  assert (Hdue : (cycle_start_time l + ticks - UINT32_MODULUS <=? last_wake_time) = true)
    by (apply Z.leb_le; lia).
  unfold control_pp_tick.
  destruct (state l) eqn:Hstate; [congruence| |]; cbn [phase_duration] in Hend;
    rewrite Hend; cbn; rewrite Hdue.
  - eexists _, _. repeat split; [discriminate | exact Hend].
  - destruct (0 <? n l); eexists _, _; repeat split;
      solve [discriminate | exact Hend].
Qed.

(** An ON phase of 60 s that starts 5000 ticks before the counter wraps is
    over one second later. *)
Lemma pp_phase_cut_by_tick_overflow_witness :
  exists l' acts,
    control_pp_tick 100 (sample 300 240 50 20 20 AVR_PUMP_STATE_ON 50 2 60 30)
      (UINT32_MODULUS - 4900)
      {| state := STATE_PP_ON; cycle_start_time := UINT32_MODULUS - 5000; n := 1 |}
    = Some (l', acts)
    /\ state l' <> STATE_PP_ON
    /\ cycle_end_time 100 (UINT32_MODULUS - 5000)
         (RESOURCE_ID_CONTROL_PP_CYCLE_ON_DURATION
            (sample 300 240 50 20 20 AVR_PUMP_STATE_ON 50 2 60 30))
       = Some (UINT32_MODULUS - 5000 + 6000 - UINT32_MODULUS).
Proof.
  apply (pp_phase_cut_by_tick_overflow 100
           (sample 300 240 50 20 20 AVR_PUMP_STATE_ON 50 2 60 30)
           (UINT32_MODULUS - 4900) 6000
           {| state := STATE_PP_ON; cycle_start_time := UINT32_MODULUS - 5000;
              n := 1 |}).
  - discriminate.
  - vm_compute. split; [discriminate | reflexivity].
  - vm_compute. reflexivity.
  - vm_compute. discriminate.
  - vm_compute. discriminate.
Defined.


End ControlRuns.

(** * Further properties of the display engine *)

Section DisplayRows.

Import Display.

(** ** Rows *)

Lemma strlen_take_nonzero (r : list byte) (k : nat) :
  (k <= strlen r)%nat -> Forall (fun c => c <> NUL) (take k r).
Proof.
  revert k. induction r as [|c r IH]; intros k Hk; cbn in *.
  - rewrite take_nil. constructor.
  - destruct k as [|k]; [constructor|]. cbn.
    destruct (Byte.eqb c NUL) eqn:E; [lia|].
    constructor; [now apply Byte.eqb_false | apply IH; lia].
Qed.

(** Whatever a handler leaves in a row, after [extend_row] the row holds
    exactly the visible width: the text it held, cut or space-filled to
    [LCD_NUM_VISIBLE_COLUMNS] characters. *)
Lemma extend_row_visible_width (r : list byte) :
  (LCD_NUM_VISIBLE_COLUMNS < length r)%nat ->
  c_string (extend_row r)
  = take LCD_NUM_VISIBLE_COLUMNS (c_string r ++ replicate LCD_NUM_VISIBLE_COLUMNS SPACE)
  /\ strlen (extend_row r) = LCD_NUM_VISIBLE_COLUMNS.
Proof.
  intros Hlen.
  destruct (decide (strlen r <= LCD_NUM_VISIBLE_COLUMNS)%nat) as [Hs|Hs].
  - rewrite extend_row_spec by assumption.
    set (text := c_string r ++ replicate (LCD_NUM_VISIBLE_COLUMNS - strlen r) SPACE).
    assert (Hclen : length (c_string r) = strlen r)
      by (unfold c_string; apply length_take_le, strlen_le_length).
    assert (Htext : length text = LCD_NUM_VISIBLE_COLUMNS)
      by (subst text; rewrite length_app, length_replicate; lia).
    assert (Hnz : Forall (fun c => c <> NUL) text).
    { subst text. apply Forall_app. split; [apply c_string_no_NUL|].
      apply Forall_replicate. discriminate. }
    split.
    + unfold c_string at 1. rewrite strlen_terminated by exact Hnz.
      rewrite take_app_length.
      rewrite take_app_ge by lia. rewrite Hclen, take_replicate.
      subst text. do 2 f_equal. lia.
    + now rewrite strlen_terminated.
  - assert (Hlong : (LCD_NUM_VISIBLE_COLUMNS < strlen r)%nat) by lia.
    unfold extend_row, for_range.
    replace (LCD_NUM_VISIBLE_COLUMNS - strlen r)%nat with 0%nat by lia.
    cbn [seq foldl].
    assert (Hnz : Forall (fun c => c <> NUL) (take LCD_NUM_VISIBLE_COLUMNS r))
      by (apply strlen_take_nonzero; lia).
    assert (Hr : <[LCD_NUM_VISIBLE_COLUMNS := NUL]> r
                 = take LCD_NUM_VISIBLE_COLUMNS r
                     ++ NUL :: drop (S LCD_NUM_VISIBLE_COLUMNS) r).
    { rewrite <- (take_drop LCD_NUM_VISIBLE_COLUMNS r) at 1.
      rewrite insert_app_r_alt by (rewrite length_take; lia).
      rewrite length_take_le by lia. rewrite Nat.sub_diag.
      destruct (lookup_lt_is_Some_2 r LCD_NUM_VISIBLE_COLUMNS Hlen) as [c Hc].
      now rewrite (drop_S _ c _ Hc). }
    rewrite Hr. split.
    + unfold c_string at 1. rewrite strlen_terminated by exact Hnz.
      rewrite take_app_length.
      rewrite take_app_le
        by (unfold c_string; rewrite length_take_le by apply strlen_le_length; lia).
      unfold c_string. rewrite take_take. f_equal. lia.
    + rewrite strlen_terminated by exact Hnz. apply length_take_le. lia.
Qed.

Lemma extended_row_text (buffer : page_buffer_t) (i : nat) :
  length buffer = LCD_NUM_ROWS ->
  Forall (fun r => (LCD_NUM_VISIBLE_COLUMNS < length r)%nat
                  /\ (strlen r < length r)%nat) buffer ->
  (i < LCD_NUM_ROWS)%nat ->
  strlen (row (_extend_page_buffer_rows buffer) i) = LCD_NUM_VISIBLE_COLUMNS
  /\ c_string (row (_extend_page_buffer_rows buffer) i)
     = take LCD_NUM_VISIBLE_COLUMNS
            (c_string (row buffer i) ++ replicate LCD_NUM_VISIBLE_COLUMNS SPACE).
Proof.
  intros Hrows Hlong Hi. rewrite extend_rows_fmap by exact Hrows.
  unfold row. rewrite list_lookup_fmap.
  destruct (lookup_lt_is_Some_2 buffer i ltac:(lia)) as [r Hr].
  rewrite Hr. cbn [fmap option_fmap option_map from_option Datatypes.id].
  rewrite Forall_lookup in Hlong.
  destruct (extend_row_visible_width r (proj1 (Hlong i r Hr))). auto.
Qed.

(** X5.  After the padding step every row of the buffer is exactly
    [LCD_NUM_VISIBLE_COLUMNS] characters long, whether the handler left it
    short, full or overlong: short text is space-filled, long text is cut.
    Each row is an array longer than the visible width that holds a
    terminated string. *)
Theorem extend_rows_always_visible_width (buffer : page_buffer_t) :
  length buffer = LCD_NUM_ROWS ->
  Forall (fun r => (LCD_NUM_VISIBLE_COLUMNS < length r)%nat
                  /\ (strlen r < length r)%nat) buffer ->
  forall i : nat, (i < LCD_NUM_ROWS)%nat ->
    strlen (row (_extend_page_buffer_rows buffer) i) = LCD_NUM_VISIBLE_COLUMNS
    /\ c_string (row (_extend_page_buffer_rows buffer) i)
       = take LCD_NUM_VISIBLE_COLUMNS
              (c_string (row buffer i) ++ replicate LCD_NUM_VISIBLE_COLUMNS SPACE).
Proof. intros Hrows Hlong i Hi. now apply extended_row_text. Qed.

(** A buffer whose third row overflows the visible width. *)
Lemma extend_rows_always_visible_width_witness :
  strlen (row (_extend_page_buffer_rows
                 [sample_row "ALARM"; sample_row "";
                  sample_row "T3 Heat exch   --.-  C";
                  sample_row "Tasks             12"]) 2)
  = LCD_NUM_VISIBLE_COLUMNS
  /\ c_string (row (_extend_page_buffer_rows
                      [sample_row "ALARM"; sample_row "";
                       sample_row "T3 Heat exch   --.-  C";
                       sample_row "Tasks             12"]) 2)
     = take LCD_NUM_VISIBLE_COLUMNS
            (c_string (row [sample_row "ALARM"; sample_row "";
                            sample_row "T3 Heat exch   --.-  C";
                            sample_row "Tasks             12"] 2)
               ++ replicate LCD_NUM_VISIBLE_COLUMNS SPACE).
Proof.
  apply (extend_rows_always_visible_width
           [sample_row "ALARM"; sample_row "";
            sample_row "T3 Heat exch   --.-  C";
            sample_row "Tasks             12"]).
  - reflexivity.
  - repeat constructor; vm_compute; lia.
  - vm_compute; lia.
Defined.

Example extend_rows_cut_sample :
  c_string (row (_extend_page_buffer_rows
                   [sample_row "ALARM"; sample_row "";
                    sample_row "T3 Heat exch   --.-  C";
                    sample_row "Tasks             12"]) 2)
  = list_byte_of_string "T3 Heat exch   --.- ".
Proof. vm_compute. reflexivity. Qed.

End DisplayRows.

(** ** Numbers the page handlers print *)

Section DisplayNumbers.

Import Display.

Lemma land_byte (x : Z) (k : Z) :
  0 <= k ->
  Z.shiftr (Z.land x (Z.shiftl 0xff k)) k = (x / 2 ^ k) mod 256.
Proof.
  intros Hk. rewrite Z.shiftr_land, Z.shiftr_shiftl_l by exact Hk.
  rewrite Z.sub_diag, Z.shiftl_0_r, Z.shiftr_div_pow2 by exact Hk.
  change 0xff with (Z.ones 8). now rewrite Z.land_ones by lia.
Qed.

(** X6.  The four numbers the WiFi page prints for the address are its four
    bytes, least significant first: each lies in 0..255 and together they
    recompose the 32-bit address. *)
Theorem ip_octets_are_the_bytes (ip_address : Z) :
  is_uint32 ip_address ->
  let '(a, b, c, d) := ip_octets ip_address in
  0 <= a < 256 /\ 0 <= b < 256 /\ 0 <= c < 256 /\ 0 <= d < 256
  /\ a + 256 * b + 65536 * c + 16777216 * d = ip_address.
Proof.
  unfold is_uint32, UINT32_MODULUS, ip_octets. intros Hip.
  pose proof (land_byte ip_address 0 ltac:(lia)) as H0.
  pose proof (land_byte ip_address 8 ltac:(lia)) as H1.
  pose proof (land_byte ip_address 16 ltac:(lia)) as H2.
  pose proof (land_byte ip_address 24 ltac:(lia)) as H3.
  rewrite Z.shiftr_0_r in H0.
  change (Z.shiftl 255 0) with 0xff in H0.
  change (Z.shiftl 255 8) with 0xff00 in H1.
  change (Z.shiftl 255 16) with 0xff0000 in H2.
  change (Z.shiftl 255 24) with 0xff000000 in H3.
  rewrite H0, H1, H2, H3.
  change (2 ^ 0) with 1. change (2 ^ 8) with 256.
  change (2 ^ 16) with 65536. change (2 ^ 24) with 16777216.
  change (2 ^ 32) with 4294967296 in Hip.
  Z.div_mod_to_equations. lia.
Qed.

(** 192.168.1.10, stored with the first number in the low byte. *)
Lemma ip_octets_are_the_bytes_witness :
  let '(a, b, c, d) := ip_octets 0x0a01a8c0 in
  0 <= a < 256 /\ 0 <= b < 256 /\ 0 <= c < 256 /\ 0 <= d < 256
  /\ a + 256 * b + 65536 * c + 16777216 * d = 0x0a01a8c0.
Proof.
  apply (ip_octets_are_the_bytes 0x0a01a8c0).
  unfold is_uint32, UINT32_MODULUS. lia.
Defined.

Example ip_octets_sample : ip_octets 0x0a01a8c0 = (192, 168, 1, 10).
Proof. reflexivity. Qed.

(** X7.  The countdown the pump-control page shows next to the daily time: for
    a valid local time of day ([tm_sec] may be 60) and a daily time within
    the day, the hours, minutes and seconds shown are those of a clock
    (below 24, 60 and 60), and adding them to the time of day gives the
    daily time, today or tomorrow.  At the daily time itself the countdown
    shows zero. *)
Theorem daily_countdown_reaches_daily_time
    (tm_hour tm_min tm_sec daily_hour daily_minute : Z) :
  0 <= tm_hour < 24 -> 0 <= tm_min < 60 -> 0 <= tm_sec <= 60 ->
  0 <= daily_hour < 24 -> 0 <= daily_minute < 60 ->
  let now_seconds := tm_hour * 3600 + tm_min * 60 + tm_sec in
  let set_seconds := daily_hour * 3600 + daily_minute * 60 in
  let '(h, m, s) := daily_countdown tm_hour tm_min tm_sec daily_hour daily_minute in
  0 <= h < 24 /\ 0 <= m < 60 /\ 0 <= s < 60
  /\ (now_seconds + (h * 3600 + m * 60 + s) = set_seconds
      \/ now_seconds + (h * 3600 + m * 60 + s) = set_seconds + 86400)
  /\ (now_seconds = set_seconds -> (h, m, s) = (0, 0, 0)).
Proof.
  intros Hh Hm Hs Hdh Hdm. cbn zeta. unfold daily_countdown.
  set (now_seconds := tm_hour * 60 * 60 + tm_min * 60 + tm_sec).
  set (set_seconds := daily_hour * 60 * 60 + daily_minute * 60).
  set (rem_seconds := if now_seconds - 1 <? set_seconds then _ else _).
  assert (Hrem : 0 <= rem_seconds < 86400
                 /\ (now_seconds + rem_seconds = set_seconds
                     \/ now_seconds + rem_seconds = set_seconds + 86400)).
  { subst rem_seconds. destruct (Z.ltb_spec (now_seconds - 1) set_seconds);
      subst now_seconds set_seconds; lia. }
  destruct Hrem as [Hrange Hsum].
  rewrite (Z.quot_div_nonneg rem_seconds 60) by lia.
  rewrite (Z.quot_div_nonneg (rem_seconds / 60) 60)
    by (try apply Z.div_pos; lia).
  assert (Hq : 0 <= rem_seconds / 60 / 60 < 24)
    by (split; [apply Z.div_pos; [apply Z.div_pos|]; lia
               | rewrite Z.div_div by lia; apply Z.div_lt_upper_bound; lia]).
  set (h := rem_seconds / 60 / 60) in *.
  assert (Hh' : h * 3600 <= rem_seconds < h * 3600 + 3600).
  { subst h. rewrite Z.div_div by lia. change (60 * 60) with 3600.
    pose proof (Z.div_mod rem_seconds 3600 ltac:(lia)).
    pose proof (Z.mod_pos_bound rem_seconds 3600 ltac:(lia)). lia. }
  rewrite Z.quot_div_nonneg by lia.
  pose proof (Z.div_mod (rem_seconds - h * 60 * 60) 60 ltac:(lia)) as Hd.
  pose proof (Z.mod_pos_bound (rem_seconds - h * 60 * 60) 60 ltac:(lia)) as Hb.
  set (m := (rem_seconds - h * 60 * 60) / 60) in *.
  repeat split; try lia.
  intros Heq. assert (rem_seconds = 0) by (subst now_seconds set_seconds; lia).
  assert (h = 0) by lia. assert (m = 0) by lia. f_equal; [f_equal|]; lia.
Qed.

(** 22:15:30 with the daily time at 06:30. *)
Lemma daily_countdown_reaches_daily_time_witness :
  let now_seconds := 22 * 3600 + 15 * 60 + 30 in
  let set_seconds := 6 * 3600 + 30 * 60 in
  let '(h, m, s) := daily_countdown 22 15 30 6 30 in
  0 <= h < 24 /\ 0 <= m < 60 /\ 0 <= s < 60
  /\ (now_seconds + (h * 3600 + m * 60 + s) = set_seconds
      \/ now_seconds + (h * 3600 + m * 60 + s) = set_seconds + 86400)
  /\ (now_seconds = set_seconds -> (h, m, s) = (0, 0, 0)).
Proof.
  apply (daily_countdown_reaches_daily_time 22 15 30 6 30); lia.
Defined.

Example daily_countdown_sample : daily_countdown 22 15 30 6 30 = (8, 14, 30).
Proof. reflexivity. Qed.

End DisplayNumbers.

(** ** Starting and stopping the display *)

Section DisplayLifecycle.

Import Display.

Lemma calls_to_none (c : lifecycle_call) (calls : list lifecycle_call) :
  c ∉ calls -> calls_to c calls = 0%nat.
Proof.
  induction calls as [|x calls IH]; intros Hc; [reflexivity|].
  apply not_elem_of_cons in Hc as [Hx Hc].
  unfold calls_to in *. rewrite filter_cons, decide_False by congruence. auto.
Qed.

(** Once [init] is set neither function changes the statics, and nothing
    is created any more. *)
Lemma lifecycle_run_initialised (requests : list lifecycle_request) (s : lifecycle) :
  init s = true ->
  fst (lifecycle_run requests s) = s
  /\ Forall (fun c => c = rotary_encoder_delete \/ c = button_delete
                      \/ c = LogE_display_already_initialised
                      \/ (c = vTaskDelete_task_handle /\ task_handle_set s = true))
            (snd (lifecycle_run requests s)).
Proof.
  intros Hinit. induction requests as [|request rest [IH1 IH2]]; cbn [lifecycle_run].
  - split; [reflexivity | constructor].
  - assert (Hstep : (match request with
                     | DisplayInit malloc_ok task_ok => display_init malloc_ok task_ok s
                     | DisplayDelete => display_delete s
                     end).1 = s).
    { destruct request; unfold display_init, display_delete;
        [rewrite Hinit|]; reflexivity. }
    cbn zeta. rewrite Hstep. cbn [fst snd]. split; [exact IH1|].
    apply Forall_app_2; [|exact IH2].
    destruct request as [malloc_ok task_ok|];
      unfold display_init, display_delete; [rewrite Hinit|]; cbn [negb fst snd].
    + repeat (apply Forall_cons_2; [intuition congruence|]). apply Forall_nil_2.
    + destruct (task_handle_set s);
        repeat (apply Forall_cons_2; [intuition congruence|]); apply Forall_nil_2.
Qed.

(** X8.  However [display_init] and [display_delete] are called, the display
    task and its input queue are created at most once, and a task is
    deleted only if one was created.  The first [display_init] is the only
    one that counts: when its allocation fails the module still records
    itself as initialised, so no later call creates the task. *)
Theorem display_task_created_at_most_once (requests : list lifecycle_request) :
  let calls := (lifecycle_run requests lifecycle_start).2 in
  (calls_to xTaskCreate_display_task calls <= 1)%nat
  /\ (calls_to xQueueCreate calls <= 1)%nat
  /\ (vTaskDelete_task_handle ∈ calls -> xTaskCreate_display_task ∈ calls)
  /\ forall (deletes : nat) (task_ok : bool) (rest : list lifecycle_request),
       requests = replicate deletes DisplayDelete ++ DisplayInit false task_ok :: rest ->
       xTaskCreate_display_task ∉ calls.
Proof.
  cbn zeta.
  assert (Hdeletes : forall (deletes : nat) (rest : list lifecycle_request),
            lifecycle_run (replicate deletes DisplayDelete ++ rest) lifecycle_start
            = ((lifecycle_run rest lifecycle_start).1,
               concat (replicate deletes [rotary_encoder_delete; button_delete])
                 ++ (lifecycle_run rest lifecycle_start).2)).
  { intros deletes rest. induction deletes as [|n IH]; cbn [replicate app concat].
    - now destruct (lifecycle_run rest lifecycle_start).
    - cbn [lifecycle_run].
      change (display_delete lifecycle_start)
        with (lifecycle_start, [rotary_encoder_delete; button_delete]).
      cbn [fst snd]. rewrite IH. reflexivity. }
  assert (Hquiet : forall deletes : nat,
            Forall (fun c => c = rotary_encoder_delete \/ c = button_delete)
                   (concat (replicate deletes [rotary_encoder_delete; button_delete]))).
  { induction deletes as [|n IH]; cbn; [constructor|].
    constructor; [now left|]. constructor; [now right | exact IH]. }
  assert (Hsplit : (exists deletes, requests = replicate deletes DisplayDelete)
                   \/ exists deletes malloc_ok task_ok rest,
                        requests = replicate deletes DisplayDelete
                                     ++ DisplayInit malloc_ok task_ok :: rest).
  { induction requests as [|request rest IH]; [left; now exists 0%nat|].
    destruct request as [malloc_ok task_ok|].
    - right. now exists 0%nat, malloc_ok, task_ok, rest.
    - destruct IH as [[n ->] | (n & m & k & rest' & ->)].
      + left. now exists (S n).
      + right. now exists (S n), m, k, rest'. }
  assert (Hnone : forall (c : lifecycle_call) (deletes : nat),
            c <> rotary_encoder_delete -> c <> button_delete ->
            c ∉ concat (replicate deletes [rotary_encoder_delete; button_delete])).
  { intros c deletes H1 H2 Hin.
    pose proof (Hquiet deletes) as HF. rewrite Forall_forall in HF.
    destruct (HF c Hin); congruence. }
  destruct Hsplit as [[n ->] | (n & malloc_ok & task_ok & rest & ->)].
  - pose proof (Hdeletes n []) as Hrun. rewrite app_nil_r in Hrun.
    rewrite Hrun. cbn [snd lifecycle_run]. rewrite app_nil_r.
    rewrite !calls_to_none by (apply Hnone; discriminate).
    repeat split; try lia.
    + intros Hin. now apply Hnone in Hin.
    + intros deletes task_ok rest _. apply Hnone; discriminate.
  - rewrite Hdeletes. cbn [snd lifecycle_run].
    set (s := {| init := true;
                 task_handle_set := if malloc_ok && task_ok then true else false |}).
    change (display_init malloc_ok task_ok lifecycle_start)
      with (s, [xQueueCreate]
                 ++ (if malloc_ok then [xTaskCreate_display_task] else [])
                 ++ [button_init; rotary_encoder_init]).
    cbn [fst snd].
    destruct (lifecycle_run_initialised rest s eq_refl) as [_ Htail].
    rewrite Forall_forall in Htail.
    set (tail := (lifecycle_run rest s).2) in *.
    assert (Htask : xTaskCreate_display_task ∉ tail)
      by (intros Hin; destruct (Htail _ Hin) as [H|[H|[H|[H _]]]]; discriminate).
    assert (Hqueue : xQueueCreate ∉ tail)
      by (intros Hin; destruct (Htail _ Hin) as [H|[H|[H|[H _]]]]; discriminate).
    assert (Hdel : vTaskDelete_task_handle ∈ tail -> task_handle_set s = true)
      by (intros Hin; destruct (Htail _ Hin) as [H|[H|[H|[_ H]]]];
          [discriminate..|exact H]).
    set (deleted := concat (replicate n [rotary_encoder_delete; button_delete])).
    assert (Hcount : forall (c : lifecycle_call) (l1 l2 : list lifecycle_call),
              calls_to c (l1 ++ l2) = (calls_to c l1 + calls_to c l2)%nat)
      by (intros; unfold calls_to; now rewrite filter_app, length_app).
    rewrite <- !app_assoc, !Hcount.
    rewrite !(calls_to_none _ deleted) by (apply Hnone; discriminate).
    rewrite !(calls_to_none _ tail) by assumption.
    repeat split.
    + destruct malloc_ok; vm_compute; lia.
    + destruct malloc_ok; vm_compute; lia.
    + intros Hin. rewrite !elem_of_app in Hin.
      destruct Hin as [Hin | [Hin | [Hin | [Hin | Hin]]]].
      * now apply Hnone in Hin.
      * apply list_elem_of_singleton in Hin. discriminate.
      * destruct malloc_ok; [|inversion Hin].
        apply list_elem_of_singleton in Hin. discriminate.
      * repeat (apply elem_of_cons in Hin as [Hin|Hin]; [discriminate|]).
        inversion Hin.
      * apply Hdel in Hin. subst s. cbn [task_handle_set] in Hin.
        destruct malloc_ok; [|discriminate].
        rewrite !elem_of_app. right. right. left. repeat constructor.
    + intros deletes task_ok' rest' Heq.
      assert (Hm : malloc_ok = false).
      { clear - Heq. revert deletes Heq.
        induction n as [|n IH]; intros [|deletes] Heq; cbn in Heq;
          try discriminate; [now injection Heq as -> _ _ | injection Heq as Heq; eauto]. }
      subst malloc_ok. rewrite !not_elem_of_app. repeat split.
      * apply Hnone; discriminate.
      * rewrite not_elem_of_cons. split; [discriminate | apply not_elem_of_nil].
      * apply not_elem_of_nil.
      * rewrite !not_elem_of_cons. repeat split; try discriminate. apply not_elem_of_nil.
      * exact Htask.
Qed.

(** A failed first initialisation followed by a second attempt and a
    delete: no task is created and none is deleted. *)
Example display_init_failure_is_permanent :
  (lifecycle_run [DisplayInit false true; DisplayInit true true; DisplayDelete]
                 lifecycle_start).2
  = [xQueueCreate; button_init; rotary_encoder_init;
     LogE_display_already_initialised;
     rotary_encoder_delete; button_delete].
Proof. reflexivity. Qed.

End DisplayLifecycle.

(** ** Pages without datastore content *)

Section DisplayFixedPages.

Import Display.

Context {datastore_t : Type}.

(** A row of the buffer starts with at least the visible width and one
    more byte. *)
Lemma long_row_split (r : list byte) :
  (LCD_NUM_VISIBLE_COLUMNS < length r)%nat ->
  exists (head : list byte) (tail : list byte),
    r = head ++ tail /\ length head = S LCD_NUM_VISIBLE_COLUMNS.
Proof.
  intros Hlen. exists (take (S LCD_NUM_VISIBLE_COLUMNS) r), (drop (S LCD_NUM_VISIBLE_COLUMNS) r).
  split; [now rewrite take_drop|]. rewrite length_take. lia.
Qed.

Ltac explicit_row r H :=
  let head := fresh "head" in
  let tail := fresh "tail" in
  let Hlen := fresh "Hlen" in
  destruct (long_row_split r H) as (head & tail & -> & Hlen);
  do 21 (destruct head as [|? head]; [discriminate Hlen|]);
  destruct head; [|discriminate Hlen]; clear Hlen.

(** X9.  What the alarm page and the blank page show does not depend on what
    the buffer held before: after the loop's clearing of the rows, the
    handler and the padding, the alarm page is the word ALARM and spaces on
    the first row and spaces on the others, and the blank page is four
    rows of spaces. *)
Theorem alarm_and_blank_pages_text (buffer : page_buffer_t)
    (state : option bool) (datastore : datastore_t) :
  length buffer = LCD_NUM_ROWS ->
  Forall (fun r => (LCD_NUM_VISIBLE_COLUMNS < length r)%nat) buffer ->
  c_string <$> _extend_page_buffer_rows
                 (_handle_page_alarm (clear_rows buffer) state datastore).1
  = list_byte_of_string
      <$> ["ALARM               "; "                    ";
           "                    "; "                    "]%string
  /\ c_string <$> _extend_page_buffer_rows
                    (_handle_page_blank (clear_rows buffer) state datastore).1
     = list_byte_of_string
         <$> ["                    "; "                    ";
              "                    "; "                    "]%string.
Proof.
  intros Hrows Hlong.
  destruct buffer as [|r0 [|r1 [|r2 [|r3 [|r4 rest]]]]]; try discriminate.
  apply Forall_cons in Hlong as [H0 Hlong].
  apply Forall_cons in Hlong as [H1 Hlong].
  apply Forall_cons in Hlong as [H2 Hlong].
  apply Forall_cons in Hlong as [H3 _].
  explicit_row r0 H0. explicit_row r1 H1. explicit_row r2 H2. explicit_row r3 H3.
  split; reflexivity.
Qed.

End DisplayFixedPages.


(** ** What the display task does to the LCD, the bus lock and the datastore *)

Section DisplayTraces.

Import Display.

Context {D : Type} {driver : LcdDriver D}.
Context {datastore_t : Type} {handlers : PageHandlers (datastore_t := datastore_t)}.

(** *** Reading traces *)

Lemma lcd_calls_app (t1 t2 : list event) :
  lcd_calls (t1 ++ t2) = lcd_calls t1 ++ lcd_calls t2.
Proof. apply omap_app. Qed.

Lemma results_of_app (k : lcd_op_kind) (t1 t2 : list event) :
  results_of k (t1 ++ t2) = results_of k t1 ++ results_of k t2.
Proof. apply omap_app. Qed.

Lemma published_app (t1 t2 : list event) :
  published (t1 ++ t2) = published t1 ++ published t2.
Proof. apply omap_app. Qed.

Lemma output_event_lcd (op : lcd_op) (err : esp_err_t) :
  kind_of op <> KSetBacklight -> output_event (EvLcd op err).
Proof. intros Hk. cbn. now rewrite bool_decide_false. Qed.

Lemma results_of_length (k : lcd_op_kind) (t : list event) :
  length (results_of k t) = calls_of k t.
Proof.
  unfold results_of, calls_of. induction t as [|e t IH]; [reflexivity|].
  rewrite filter_cons. destruct e as [op err| | | | | | | |]; cbn [omap list_omap is_call];
    try (rewrite decide_False by (intros H; exact H); exact IH).
  destruct (decide (kind_of op = k)) as [Hk|Hk].
  - rewrite bool_decide_true, decide_True by first [exact Hk | exact I].
    cbn. now rewrite IH.
  - rewrite bool_decide_false, decide_False by first [exact Hk | intros H; exact H].
    exact IH.
Qed.

Lemma published_output (t : list event) :
  Forall (fun e => output_event e) t -> published t = [].
Proof.
  induction 1 as [|e t He _ IH]; [reflexivity|].
  destruct e; cbn in He |- *; try exact IH; destruct He.
Qed.

(** Two facts about the same computation hold together. *)
Lemma runs_conj {A : Type} (c : M D A) (P Q : A -> list event -> Prop) :
  runs c P -> runs c Q -> runs c (fun a t => P a t /\ Q a t).
Proof.
  intros HP HQ w.
  destruct (HP w) as (a & t & d & Hc & Hp).
  destruct (HQ w) as (a' & t' & d' & Hc' & Hq).
  rewrite Hc in Hc'. injection Hc' as <- <- Ht.
  apply app_inv_head in Ht as <-.
  exists a, t, d. auto.
Qed.

Ltac solve_output :=
  repeat first
    [ assumption
    | apply Forall_nil_2
    | apply Forall_app_2
    | apply Forall_cons_2
    | exact I
    | (apply output_event_lcd; first [assumption | discriminate]) ].

(** *** Re-initialising the display *)

Lemma error_check_output (err : esp_err_t) :
  runs (D := D) (I2C_LCD1602_ERROR_CHECK err)
       (fun _ t => Forall (fun e => output_event e) t /\ lcd_calls t = []
                   /\ filter (fun e => is_delay e) t = []).
Proof.
  unfold I2C_LCD1602_ERROR_CHECK.
  destruct (err =? ESP_OK); [apply runs_ret | apply runs_emit];
    (split; [solve_output | split; reflexivity]).
Qed.

Lemma define_char_if_ok_calls (err : esp_err_t) (index : nat) (glyph : list Z) :
  runs (define_char_if_ok err index glyph)
       (fun err' t =>
          Forall (fun e => output_event e) t
          /\ filter (fun e => is_delay e) t = []
          /\ ((err = ESP_OK
               /\ lcd_calls t = [(i2c_lcd1602_define_char index glyph, err')])
              \/ (err <> ESP_OK /\ err' = err /\ lcd_calls t = []))).
Proof.
  unfold define_char_if_ok. destruct (Z.eqb_spec err ESP_OK) as [Hok|Hne].
  - apply runs_bind, runs_lcd_call. intros d.
    apply runs_bind. eapply runs_weaken; [apply error_check_output|].
    cbn beta. intros _ t (Ht & Hcalls & Hdelays). apply runs_ret.
    split; [solve_output|]. split.
    + rewrite !filter_app, Hdelays. reflexivity.
    + left. split; [exact Hok|].
      rewrite !lcd_calls_app, Hcalls. reflexivity.
  - apply runs_ret. split; [solve_output|]. split; [reflexivity|]. now right.
Qed.

Lemma display_reset_trace :
  runs _display_reset
       (fun err t =>
          Forall (fun e => output_event e) t
          /\ filter (fun e => is_delay e) t = []
          /\ exists n : nat,
               (n < length reset_sequence)%nat
               /\ lcd_calls t
                  = zip (take (S n) reset_sequence) (replicate n ESP_OK ++ [err])
               /\ (err = ESP_OK -> S n = length reset_sequence)).
Proof.
  unfold _display_reset.
  apply runs_bind, runs_emit.
  apply runs_bind, runs_lcd_call. intros d.
  generalize (lcd_exec i2c_lcd1602_reset d).1. intros e0.
  apply runs_bind. eapply runs_weaken; [apply define_char_if_ok_calls|].
  cbn beta. intros e1 t1 (Ho1 & Hd1 & H1).
  apply runs_bind. eapply runs_weaken; [apply define_char_if_ok_calls|].
  cbn beta. intros e2 t2 (Ho2 & Hd2 & H2).
  apply runs_bind. eapply runs_weaken; [apply define_char_if_ok_calls|].
  cbn beta. intros e3 t3 (Ho3 & Hd3 & H3).
  apply runs_bind. eapply runs_weaken; [apply define_char_if_ok_calls|].
  cbn beta. intros e4 t4 (Ho4 & Hd4 & H4).
  apply runs_ret. split; [solve_output|]. split.
  { rewrite !filter_app, Hd1, Hd2, Hd3, Hd4. reflexivity. }
  rewrite !lcd_calls_app. cbn [lcd_calls omap list_omap app].
  fold (lcd_calls t1) (lcd_calls t2) (lcd_calls t3) (lcd_calls t4).
  destruct H1 as [[E1 ->] | (N1 & E1 & ->)],
           H2 as [[E2 ->] | (N2 & E2 & ->)],
           H3 as [[E3 ->] | (N3 & E3 & ->)],
           H4 as [[E4 ->] | (N4 & E4 & ->)];
    subst; try congruence.
  - exists 4%nat. repeat split; cbn; lia.
  - exists 3%nat. repeat split; [cbn; lia|]. intros ->. congruence.
  - exists 2%nat. repeat split; [cbn; lia|]. intros ->. congruence.
  - exists 1%nat. repeat split; [cbn; lia|]. intros ->. congruence.
  - exists 0%nat. repeat split; [cbn; lia|]. intros ->. congruence.
Qed.

(** X10.  [_display_reset] stops at the first primitive that fails: it calls the
    reset and the four glyph definitions in order, every call before the
    last one made returns [ESP_OK], and the result is the code of the last
    call made; [ESP_OK] is returned only when all five calls were made. *)
Theorem display_reset_stops_at_first_failure :
  runs _display_reset
       (fun err t =>
          exists n : nat,
            (n < length reset_sequence)%nat
            /\ lcd_calls t
               = zip (take (S n) reset_sequence) (replicate n ESP_OK ++ [err])
            /\ (err = ESP_OK -> S n = length reset_sequence)).
Proof.
  eapply runs_weaken; [apply display_reset_trace|].
  cbn beta. intros err t (_ & _ & H). exact H.
Qed.

(** *** The wrappers on any device *)

Lemma results_of_lcd (k : lcd_op_kind) (op : lcd_op) (err : esp_err_t) :
  results_of k [EvLcd op err] = if decide (kind_of op = k) then [err] else [].
Proof. cbn. now destruct (decide (kind_of op = k)). Qed.

Lemma results_of_none (k : lcd_op_kind) (t : list event) :
  calls_of k t = 0%nat -> results_of k t = [].
Proof. intros H. apply nil_length_inv. now rewrite results_of_length. Qed.

Lemma retry_trace (name : string) (op : lcd_op) :
  kind_of op <> KReset -> kind_of op <> KDefineChar ->
  kind_of op <> KSetBacklight ->
  forall (attempts_left : nat) (err0 : esp_err_t),
    runs (retry name op attempts_left err0)
         (fun err t =>
            Forall (fun e => output_event e) t
            /\ match attempts_left with
               | O => err = err0 /\ t = []
               | S _ => stops_at_first_success (kind_of op) attempts_left err t
               end).
Proof.
  intros Hk1 Hk2 Hk3. induction attempts_left as [|k IH]; intros err0; cbn [retry].
  - apply runs_ret. split; [solve_output | now split].
  - apply runs_bind, runs_lcd_call. intros d.
    generalize (lcd_exec op d).1. intros e.
    destruct (Z.eqb_spec e ESP_OK) as [Hok|Hne].
    + apply runs_ret. split; [solve_output|].
      exists []. rewrite app_nil_r, results_of_lcd, decide_True by reflexivity.
      rewrite calls_of_lcd, decide_False by exact Hk1.
      repeat split; [constructor | cbn; lia | congruence |].
      destruct (Z.eqb_spec e ESP_OK); [reflexivity | contradiction].
    + apply runs_bind, runs_emit.
      apply runs_bind. eapply runs_weaken;
        [apply runs_conj; [apply display_reset_trace | apply display_reset_runs]|].
      cbn beta. intros _ rs [(Hors & Hdrs & _) [Hreset Hother]].
      apply runs_bind, runs_emit.
      eapply runs_weaken; [apply IH|].
      cbn beta. intros err t' [Hot' Hk]. split; [solve_output|].
      assert (Hresults : results_of (kind_of op)
                           ([EvLcd op e] ++ [EvTaskDelay 10] ++ rs
                              ++ [EvLogW name (10 - Z.of_nat k)] ++ t')
                         = e :: results_of (kind_of op) t').
      { rewrite !results_of_app, results_of_lcd, decide_True by reflexivity.
        rewrite (results_of_none _ rs) by now apply Hother. reflexivity. }
      assert (Hresets : calls_of KReset
                          ([EvLcd op e] ++ [EvTaskDelay 10] ++ rs
                             ++ [EvLogW name (10 - Z.of_nat k)] ++ t')
                        = S (calls_of KReset t')).
      { rewrite !calls_of_app, calls_of_lcd, decide_False by exact Hk1.
        rewrite Hreset. reflexivity. }
      assert (Hdelays : length (filter (fun e => is_delay e)
                                  ([EvLcd op e] ++ [EvTaskDelay 10] ++ rs
                                     ++ [EvLogW name (10 - Z.of_nat k)] ++ t'))
                        = S (length (filter (fun e => is_delay e) t'))).
      { rewrite !filter_app, Hdrs, !length_app. reflexivity. }
      unfold stops_at_first_success. rewrite Hresults, Hresets, Hdelays.
      destruct k as [|k'].
      * destruct Hk as [-> ->]. exists [].
        destruct (Z.eqb_spec e ESP_OK); [contradiction|].
        repeat split; first [constructor | cbn; lia].
      * destruct Hk as (failures & Hr & Hf & Hlen & Hlast & Hrs & Hds).
        exists (e :: failures). rewrite Hr, Hrs, Hds. cbn [length].
        repeat split;
          first [constructor; assumption | lia | intros H; apply Hlast in H; lia].
Qed.

(** *** The exact trace of a wrapper *)

Lemma error_check_run (err : esp_err_t) :
  runs (D := D) (I2C_LCD1602_ERROR_CHECK err)
       (fun _ t => t = error_check_events err).
Proof.
  unfold I2C_LCD1602_ERROR_CHECK, error_check_events.
  destruct (err =? ESP_OK); [apply runs_ret | apply runs_emit]; reflexivity.
Qed.

Lemma define_char_if_ok_run (err : esp_err_t) (index : nat) (glyph : list Z) :
  runs (define_char_if_ok err index glyph)
       (fun err' t =>
          (err = ESP_OK
           /\ t = EvLcd (i2c_lcd1602_define_char index glyph) err'
                    :: error_check_events err')
          \/ (err <> ESP_OK /\ err' = err /\ t = [])).
Proof.
  unfold define_char_if_ok. destruct (Z.eqb_spec err ESP_OK) as [Hok|Hne].
  - apply runs_bind, runs_lcd_call. intros d.
    apply runs_bind. eapply runs_weaken; [apply error_check_run|].
    cbn beta. intros _ t ->. apply runs_ret.
    left. split; [exact Hok|]. cbn [app]. now rewrite app_nil_r.
  - apply runs_ret. now right.
Qed.

Lemma display_reset_run :
  runs _display_reset (fun err rs => display_reset_done err rs).
Proof.
  unfold _display_reset.
  apply runs_bind, runs_emit.
  apply runs_bind, runs_lcd_call. intros d.
  generalize (lcd_exec i2c_lcd1602_reset d).1. intros e0.
  apply runs_bind. eapply runs_weaken; [apply define_char_if_ok_run|].
  cbn beta. intros e1 t1 H1.
  apply runs_bind. eapply runs_weaken; [apply define_char_if_ok_run|].
  cbn beta. intros e2 t2 H2.
  apply runs_bind. eapply runs_weaken; [apply define_char_if_ok_run|].
  cbn beta. intros e3 t3 H3.
  apply runs_bind. eapply runs_weaken; [apply define_char_if_ok_run|].
  cbn beta. intros e4 t4 H4.
  apply runs_ret. unfold display_reset_done.
  destruct H1 as [[E1 ->] | (N1 & E1 & ->)],
           H2 as [[E2 ->] | (N2 & E2 & ->)],
           H3 as [[E3 ->] | (N3 & E3 & ->)],
           H4 as [[E4 ->] | (N4 & E4 & ->)];
    subst; try congruence.
  - exists 4%nat. split; [cbn; lia|]. split; [reflexivity|].
    cbn. rewrite ?app_nil_r. reflexivity.
  - exists 3%nat. split; [cbn; lia|]. split; [intros ->; congruence|].
    cbn. rewrite ?app_nil_r. reflexivity.
  - exists 2%nat. split; [cbn; lia|]. split; [intros ->; congruence|].
    cbn. rewrite ?app_nil_r. reflexivity.
  - exists 1%nat. split; [cbn; lia|]. split; [intros ->; congruence|].
    cbn. rewrite ?app_nil_r. reflexivity.
  - exists 0%nat. split; [cbn; lia|]. split; [intros ->; congruence|].
    cbn. rewrite ?app_nil_r. reflexivity.
Qed.

Lemma retry_run (name : string) (op : lcd_op) :
  forall (attempts_left : nat) (err0 : esp_err_t),
    runs (retry name op attempts_left err0)
         (fun err t =>
            exists failures : list (esp_err_t * list event),
              failures_reset failures
              /\ ((err = ESP_OK /\ (length failures < attempts_left)%nat
                   /\ t = failed_attempts name op (11 - Z.of_nat attempts_left) failures
                            ++ [EvLcd op ESP_OK])
                  \/ (length failures = attempts_left
                      /\ fst <$> last failures
                         = match attempts_left with
                           | O => None
                           | S _ => Some err
                           end
                      /\ (attempts_left = 0%nat -> err = err0)
                      /\ (attempts_left <> 0%nat -> err <> ESP_OK)
                      /\ t = failed_attempts name op (11 - Z.of_nat attempts_left)
                               failures))).
Proof.
  induction attempts_left as [|k IH]; intros err0; cbn [retry].
  - apply runs_ret. exists []. split; [constructor|]. right.
    split; [reflexivity|]. split; [reflexivity|].
    split; [reflexivity|]. split; [congruence | reflexivity].
  - apply runs_bind, runs_lcd_call. intros d.
    generalize (lcd_exec op d).1. intros e.
    destruct (Z.eqb_spec e ESP_OK) as [Hok|Hne].
    + apply runs_ret. exists []. split; [constructor|]. left.
      subst e. split; [reflexivity|]. split; [cbn; lia | reflexivity].
    + apply runs_bind, runs_emit.
      apply runs_bind. eapply runs_weaken; [apply display_reset_run|].
      cbn beta. intros e' rs Hrs.
      apply runs_bind, runs_emit.
      eapply runs_weaken; [apply IH|].
      cbn beta. intros err t' (failures & Hfailures & Hshape).
      exists ((e, rs) :: failures).
      split; [constructor; [split; [exact Hne | now exists e'] | exact Hfailures]|].
      assert (Hcount : 11 - Z.of_nat (S k) + 1 = 11 - Z.of_nat k) by lia.
      assert (Hfirst : 10 - Z.of_nat k = 11 - Z.of_nat (S k)) by lia.
      cbn [failed_attempts]. rewrite Hcount, Hfirst.
      destruct Hshape as [(-> & Hlen & ->) | (Hlen & Hlast & Hzero & Hnonzero & ->)].
      * left. split; [reflexivity|]. split; [cbn [length]; lia|].
        cbn [app]. rewrite <- ?app_assoc. reflexivity.
      * right. split; [|split; [|split; [|split]]].
        -- cbn [length]. now rewrite Hlen.
        -- destruct k as [|k'].
           ++ destruct failures; [|discriminate Hlen].
              cbn. now rewrite Hzero.
           ++ rewrite last_cons. destruct (last failures); [exact Hlast | discriminate Hlast].
        -- discriminate.
        -- intros _. destruct k as [|k']; [now rewrite Hzero | now apply Hnonzero].
        -- cbn [app]. rewrite <- ?app_assoc. reflexivity.
Qed.

Lemma wrapper_run (name : string) (op : lcd_op) (err0 : esp_err_t) :
  runs (retry name op 10 err0) (fun err t => wrapper_done name op err t).
Proof.
  eapply runs_weaken; [apply retry_run|].
  cbn beta. intros err t (failures & Hfailures & Hshape).
  exists failures. split; [exact Hfailures|].
  destruct Hshape as [(-> & Hlen & ->) | (Hlen & Hlast & _ & Hne & ->)].
  - left. split; [reflexivity|]. split; [exact Hlen | reflexivity].
  - right. split; [now apply Hne|]. split; [exact Hlen|].
    split; [exact Hlast | reflexivity].
Qed.

(** X11.  Each of the three wrappers, on any device.  Its trace is a
    sequence of failed attempts followed, unless there are ten of them, by
    the call that succeeds.  A failed attempt is the call of the primitive
    with a code other than [ESP_OK], then the wait of 10 ms, then one
    [_display_reset], then the warning that numbers the attempt from 1.
    The wrapper returns the code of its last call: [ESP_OK] after fewer
    than ten failures, the code of the tenth failure otherwise.  So the
    primitive is called until its first success and at most ten times, and
    there are as many waits and re-initialisations as failures. *)
Theorem wrappers_stop_at_first_success :
  runs _clear
       (fun err t =>
          wrapper_done "retry _clear" i2c_lcd1602_clear err t
          /\ stops_at_first_success KClear 10 err t)
  /\ (forall col row : Z,
        runs (_move_cursor col row)
             (fun err t =>
                wrapper_done "retry _move_cursor"
                             (i2c_lcd1602_move_cursor col row) err t
                /\ stops_at_first_success KMoveCursor 10 err t))
  /\ (forall s : list byte,
        runs (_write_string s)
             (fun err t =>
                wrapper_done "retry _write_string"
                             (i2c_lcd1602_write_string s) err t
                /\ stops_at_first_success KWriteString 10 err t)).
Proof.
  repeat split; intros;
    (eapply runs_weaken;
     [apply runs_conj;
      [apply wrapper_run
      |apply retry_trace with (attempts_left := 10%nat); discriminate]|]);
    cbn beta; intros err t [Hdone [_ Hcount]]; split; assumption.
Qed.

(** *** Rendering *)

Lemma for_each_all (ok : event -> Prop) (body : nat -> M D unit) (k : nat) :
  (forall i, runs (body i) (fun _ t => Forall ok t)) ->
  forall lo, runs (foldr (fun i rest => bind (body i) (fun _ => rest)) (ret tt)
                         (seq lo k))
                  (fun _ t => Forall ok t).
Proof.
  intros Hbody. induction k as [|k IH]; intros lo; cbn [seq foldr].
  - apply runs_ret. constructor.
  - apply (runs_bind (body lo)). eapply runs_weaken; [apply Hbody|].
    cbn beta. intros _ t1 Ht1.
    eapply runs_weaken; [apply IH|].
    cbn beta. intros _ t2 Ht2. now apply Forall_app_2.
Qed.

Lemma render_trace (buffer : page_buffer_t) :
  runs (_render_page_buffer buffer)
       (fun _ t => exists mid,
            t = EvI2cLock :: mid ++ [EvI2cUnlock]
            /\ Forall (fun e => output_event e) mid).
Proof.
  unfold _render_page_buffer.
  apply runs_bind, runs_emit.
  apply runs_bind. eapply runs_weaken.
  - apply for_each_all with (ok := fun e => output_event e). intros i.
    apply runs_bind. eapply runs_weaken;
      [apply retry_trace with (attempts_left := 10%nat); discriminate|].
    cbn beta. intros err t1 [Ht1 _].
    apply runs_bind. eapply runs_weaken; [apply error_check_output|].
    cbn beta. intros _ t2 [Ht2 _].
    apply runs_bind. eapply runs_weaken;
      [apply retry_trace with (attempts_left := 10%nat); discriminate|].
    cbn beta. intros err' t3 [Ht3 _].
    eapply runs_weaken; [apply error_check_output|].
    cbn beta. intros _ t4 [Ht4 _]. solve_output.
  - cbn beta. intros _ mid Hmid. apply runs_emit. now exists mid.
Qed.

(** On a device whose primitive succeeds the wrapper makes one call. *)
Lemma retry_healthy (name : string) (op : lcd_op) (k : nat) (err0 : esp_err_t) :
  (forall d, (lcd_exec op d).1 = ESP_OK) ->
  runs (retry name op (S k) err0) (fun err t => err = ESP_OK /\ t = [EvLcd op ESP_OK]).
Proof.
  intros Hok. cbn [retry]. apply runs_bind, runs_lcd_call. intros d.
  rewrite Hok. cbn. apply runs_ret. split; reflexivity.
Qed.

(** X12.  What one iteration puts on a healthy display: with the bus locked, for
    each of the four rows in order, the cursor is moved to the start of the
    row and the row's text is written at exactly the visible width, cut or
    space-filled; there is one call of each per row, no wait and no
    re-initialisation.  So every visible character cell is rewritten. *)
Theorem render_rewrites_every_cell (buffer : page_buffer_t) :
  (forall op d, (lcd_exec op d).1 = ESP_OK) ->
  length buffer = LCD_NUM_ROWS ->
  Forall (fun r => (LCD_NUM_VISIBLE_COLUMNS < length r)%nat
                  /\ (strlen r < length r)%nat) buffer ->
  runs (_render_page_buffer (_extend_page_buffer_rows buffer))
       (fun _ t =>
          t = [EvI2cLock]
                ++ concat ((fun i => row_shown i (visible_text (row buffer i)))
                             <$> seq 0 LCD_NUM_ROWS)
                ++ [EvI2cUnlock]
          /\ Forall (fun i => length (visible_text (row buffer i))
                              = LCD_NUM_VISIBLE_COLUMNS)
                    (seq 0 LCD_NUM_ROWS)).
Proof.
  intros Hok Hrows Hlong.
  assert (Htext : forall i, (i < LCD_NUM_ROWS)%nat ->
            c_string (row (_extend_page_buffer_rows buffer) i)
            = visible_text (row buffer i)
            /\ length (visible_text (row buffer i)) = LCD_NUM_VISIBLE_COLUMNS).
  { intros i Hi. destruct (extended_row_text buffer i Hrows Hlong Hi) as [Hs Hc].
    split; [exact Hc|]. unfold visible_text. rewrite <- Hc.
    unfold c_string. rewrite length_take_le by apply strlen_le_length. exact Hs. }
  unfold _render_page_buffer, for_each.
  cbn [LCD_NUM_ROWS Nat.sub seq foldr].
  destruct (Htext 0%nat ltac:(unfold LCD_NUM_ROWS; lia)) as [-> L0].
  destruct (Htext 1%nat ltac:(unfold LCD_NUM_ROWS; lia)) as [-> L1].
  destruct (Htext 2%nat ltac:(unfold LCD_NUM_ROWS; lia)) as [-> L2].
  destruct (Htext 3%nat ltac:(unfold LCD_NUM_ROWS; lia)) as [-> L3].
  apply runs_bind, runs_emit.
  apply runs_bind.
  do 4 (apply (runs_bind (A := unit));
        apply runs_bind; (eapply runs_weaken; [apply retry_healthy, Hok|]);
        cbn beta; intros ? ? [-> ->];
        apply runs_bind, runs_ret;
        apply runs_bind; (eapply runs_weaken; [apply retry_healthy, Hok|]);
        cbn beta; intros ? ? [-> ->];
        apply runs_ret).
  apply runs_ret. apply runs_emit.
  split; [reflexivity|]. repeat constructor; assumption.
Qed.


(** *** Handling an input *)

Lemma handle_transition_target (input : input_t) (page : display_page_id_t) :
  runs (D := D) (_handle_transition input page)
       (fun new_page t => new_page = transition_target input page
                          /\ Forall (fun e => log_event e) t).
Proof.
  unfold _handle_transition, handle_transition_in, transition_target.
  destruct (page_in_range page) eqn:Hrange;
    [|apply runs_ret; split; [reflexivity | constructor]].
  assert (Hentry : is_Some (transitions !! Z.to_nat page)).
  { apply lookup_lt_is_Some_2. unfold page_in_range, DISPLAY_PAGE_LAST in Hrange.
    apply andb_true_iff in Hrange as [H0 H1].
    apply Z.leb_le in H0. apply Z.ltb_lt in H1. cbn [transitions length]. lia. }
  destruct Hentry as [entry ->].
  destruct input;
    try (apply runs_bind; apply runs_ret; apply runs_ret;
         split; [reflexivity | constructor]).
  apply runs_bind, runs_emit, runs_ret. split; [reflexivity|].
  repeat constructor.
Qed.

Lemma handle_input_trace (input : input_t) (page : display_page_id_t) :
  runs (handle_input input page)
       (fun page' t => input_handled input page page' t).
Proof.
  unfold handle_input.
  apply runs_bind, runs_emit.
  apply runs_bind, runs_lcd_call. intros d.
  generalize (lcd_exec (i2c_lcd1602_set_backlight true) d).1. intros err.
  apply runs_bind. eapply runs_weaken; [apply handle_transition_target|].
  cbn beta. intros new_page tr [Hnew Htr].
  apply runs_bind.
  apply runs_weaken
    with (P := fun page' t =>
                 page' = next_page input page
                 /\ exists out,
                      t = (if negb (page' =? page)
                           then [EvLogI "change to page"; EvDatastoreSetPage page']
                           else []) ++ out
                      /\ Forall (fun e => output_event e) out
                      /\ (if negb (page' =? page) && (page' =? DISPLAY_PAGE_MAIN)
                          then (1 <= calls_of KReset out)%nat
                          else out = [])).
  - unfold next_page. rewrite <- Hnew.
    destruct (negb (new_page =? page) && page_in_range new_page) eqn:Hcommit.
    + apply andb_true_iff in Hcommit as [Hchanged _].
      apply runs_bind, runs_emit.
      apply runs_bind, runs_emit.
      apply runs_bind.
      apply runs_weaken
        with (P := fun _ out =>
                     Forall (fun e => output_event e) out
                     /\ (if new_page =? DISPLAY_PAGE_MAIN
                         then (1 <= calls_of KReset out)%nat
                         else out = [])).
      * destruct (new_page =? DISPLAY_PAGE_MAIN); [|apply runs_ret; now split].
        apply runs_bind. eapply runs_weaken;
          [apply runs_conj; [apply display_reset_trace | apply display_reset_runs]|].
        cbn beta. intros _ rs [(Hrs & _) [Hreset _]].
        apply runs_bind. eapply runs_weaken;
          [apply retry_trace with (attempts_left := 10%nat); discriminate|].
        cbn beta. intros e t1 [Ht1 _].
        eapply runs_weaken; [apply error_check_output|].
        cbn beta. intros _ t2 [Ht2 _].
        split; [solve_output|]. rewrite !calls_of_app, Hreset. lia.
      * intros _ out [Hout Hmain]. apply runs_ret.
        split; [reflexivity|]. exists out. rewrite Hchanged.
        split; [|now split]. cbn [app]. now rewrite app_nil_r.
    + apply runs_ret. split; [reflexivity|]. exists [].
      rewrite Z.eqb_refl. cbn [negb andb]. split; [reflexivity|].
      split; [constructor | reflexivity].
  - intros page' t1 (Hpage' & out & -> & Hout & Hmain).
    apply runs_bind.
    apply runs_weaken
      with (P := fun _ t =>
                   t = if (page' =? DISPLAY_PAGE_MAIN)
                          && bool_decide (input = BUTTON_EVENT_SHORT)
                       then [EvDumpDatastore] else []).
    + destruct ((page' =? DISPLAY_PAGE_MAIN)
                && bool_decide (input = BUTTON_EVENT_SHORT));
        [apply runs_emit | apply runs_ret]; reflexivity.
    + intros _ t2 ->. apply runs_ret.
      split; [exact Hpage'|]. exists err, tr, out.
      split; [|now repeat split].
      cbn [app]. now rewrite !app_nil_r, <- !app_assoc.
Qed.

(** *** Pages *)

Lemma in_range_cases (P : display_page_id_t -> Prop) :
  (forall n : nat, (n < 16)%nat -> P (Z.of_nat n)) ->
  forall page, page_in_range page = true -> P page.
Proof.
  intros HP page Hrange. unfold page_in_range, DISPLAY_PAGE_LAST in Hrange.
  apply andb_true_iff in Hrange as [H0 H1].
  apply Z.leb_le in H0. apply Z.ltb_lt in H1.
  rewrite <- (Z2Nat.id page) by exact H0. apply HP. lia.
Qed.

Ltac each_page :=
  apply in_range_cases; intros n Hn;
  do 16 (destruct n as [|n]; [vm_compute; try tauto|]); lia.

Lemma next_page_out_of_range (input : input_t) (page : display_page_id_t) :
  page_in_range page = false -> next_page input page = DISPLAY_PAGE_BLANK.
Proof.
  intros Hrange. unfold next_page, transition_target. rewrite Hrange.
  destruct (DISPLAY_PAGE_BLANK =? page) eqn:Heq; [|reflexivity].
  apply Z.eqb_eq in Heq. now subst.
Qed.

Lemma next_page_in_range (input : input_t) (page : display_page_id_t) :
  page_in_range page = true -> page_in_range (next_page input page) = true.
Proof.
  intros Hrange. unfold next_page.
  destruct (negb _ && page_in_range _) eqn:Hcommit; [|exact Hrange].
  now apply andb_true_iff in Hcommit as [_ H].
Qed.

(** A short press leads to the main page only from the main page. *)
Lemma next_page_short_main (page : display_page_id_t) :
  (next_page BUTTON_EVENT_SHORT page =? DISPLAY_PAGE_MAIN)
  = (page =? DISPLAY_PAGE_MAIN).
Proof.
  destruct (page_in_range page) eqn:Hrange.
  - revert page Hrange. each_page.
  - rewrite next_page_out_of_range by exact Hrange.
    destruct (Z.eqb_spec page DISPLAY_PAGE_MAIN) as [->|]; [discriminate|reflexivity].
Qed.

(** No input leads to the blank page, and none leaves the shown pages. *)
Lemma next_page_shown (input : input_t) (page : display_page_id_t) :
  page_shown page = true -> page_shown (next_page input page) = true.
Proof.
  intros Hshown.
  assert (Hrange : page_in_range page = true).
  { unfold page_shown, page_in_range, DISPLAY_PAGE_MAIN in *.
    apply andb_true_iff in Hshown as [H0 H1]. apply andb_true_iff.
    split; [apply Z.leb_le; apply Z.leb_le in H0; lia | exact H1]. }
  revert Hshown. revert page Hrange.
  apply (in_range_cases
           (fun page => page_shown page = true ->
                        page_shown (next_page input page) = true)).
  intros n Hn.
  do 16 (destruct n as [|n]; [destruct input; vm_compute; tauto|]). lia.
Qed.

Lemma next_page_ignored (input : input_t) (page : display_page_id_t) :
  page_in_range page = true ->
  input <> ROTARY_ENCODER_EVENT_CLOCKWISE ->
  input <> ROTARY_ENCODER_EVENT_COUNTER_CLOCKWISE ->
  input <> BUTTON_EVENT_SHORT ->
  next_page input page = page.
Proof.
  intros Hrange H1 H2 H3. destruct input as [| | | |code]; try contradiction.
  - revert page Hrange. each_page.
  - unfold next_page, transition_target. rewrite Hrange, Z.eqb_refl. reflexivity.
Qed.

(** *** Classes of events *)

Lemma log_events_facts (t : list event) :
  Forall (fun e => log_event e) t ->
  Forall (fun e => output_event e) t
  /\ lcd_calls t = []
  /\ forall k, calls_of k t = 0%nat.
Proof.
  induction 1 as [|e t He _ (IH1 & IH2 & IH3)].
  - repeat split; constructor.
  - destruct e; cbn in He; try destruct He.
    all: repeat split; [constructor; [exact I | exact IH1] | exact IH2 |].
    all: intros k; rewrite calls_of_cons, IH3; reflexivity.
Qed.

Lemma output_events_facts (t : list event) :
  Forall (fun e => output_event e) t ->
  published t = []
  /\ (EvDumpDatastore ∉ t)
  /\ Forall (fun e => lock_event e = false) t
  /\ Forall (fun e => backlight_off e = false) t.
Proof.
  induction 1 as [|e t He _ (IH1 & IH2 & IH3 & IH4)].
  - repeat split; try constructor. apply not_elem_of_nil.
  - destruct e as [op err| | | | | | | |]; cbn in He; try destruct He.
    all: repeat split;
      [exact IH1
      | apply not_elem_of_cons; split; [discriminate | exact IH2]
      | constructor; [reflexivity | exact IH3]
      | constructor; [|exact IH4] ].
    all: try reflexivity.
    destruct op as [| | | | |on]; try reflexivity.
    cbn in He. rewrite bool_decide_true in He by reflexivity. destruct He.
Qed.


(** *** What an input does *)

(** The parts of the trace of a handled input. *)
Lemma input_handled_parts (input : input_t) (page page' : display_page_id_t)
    (t : list event) :
  input_handled input page page' t ->
  page' = next_page input page
  /\ published t = (if negb (page' =? page) then [page'] else [])
  /\ (EvDumpDatastore ∈ t
      <-> (page' =? DISPLAY_PAGE_MAIN) && bool_decide (input = BUTTON_EVENT_SHORT) = true)
  /\ ((1 <= calls_of KReset t)%nat
      <-> negb (page' =? page) && (page' =? DISPLAY_PAGE_MAIN) = true)
  /\ Forall (fun e => lock_event e = false) t
  /\ Forall (fun e => backlight_off e = false) t
  /\ (exists err, (i2c_lcd1602_set_backlight true, err) ∈ lcd_calls t)
  /\ (negb (page' =? page) = false ->
      exists err, lcd_calls t = [(i2c_lcd1602_set_backlight true, err)]).
Proof.
  intros (Hpage & err & tr & out & -> & Htr & Hout & Hmain).
  destruct (log_events_facts tr Htr) as (Htr1 & Htr2 & Htr3).
  destruct (output_events_facts tr Htr1) as (Htr4 & Htr5 & Htr6 & Htr7).
  destruct (output_events_facts out Hout) as (Hout1 & Hout2 & Hout3 & Hout4).
  set (changed := negb (page' =? page)) in *.
  set (dump := (page' =? DISPLAY_PAGE_MAIN) && bool_decide (input = BUTTON_EVENT_SHORT)).
  split; [exact Hpage|]. split; [|split; [|split; [|split; [|split; [|split]]]]].
  - rewrite !published_app, Htr4, Hout1.
    destruct changed, dump; reflexivity.
  - rewrite !elem_of_app. split.
    + intros [H | [H | [H | [H | H]]]].
      * repeat (apply elem_of_cons in H as [H|H]; [discriminate|]). inversion H.
      * contradiction.
      * destruct changed;
          repeat (apply elem_of_cons in H as [H|H]; [discriminate|]); inversion H.
      * contradiction.
      * destruct dump; [reflexivity | inversion H].
    + intros ->. do 4 right. repeat constructor.
  - rewrite !calls_of_app, Htr3.
    assert (H0 : calls_of KReset
                   [EvLogI "from queue"; EvLcd (i2c_lcd1602_set_backlight true) err]
                 = 0%nat) by reflexivity.
    assert (H1 : calls_of KReset
                   (if changed
                    then [EvLogI "change to page"; EvDatastoreSetPage page']
                    else []) = 0%nat) by (now destruct changed).
    assert (H2 : calls_of KReset (if dump then [EvDumpDatastore] else []) = 0%nat)
      by (now destruct dump).
    rewrite H0, H1, H2. cbn [Nat.add]. rewrite Nat.add_0_r.
    destruct (changed && (page' =? DISPLAY_PAGE_MAIN)).
    + split; auto.
    + subst out. split; [cbn; lia | discriminate].
  - repeat first [assumption | apply Forall_app_2 | apply Forall_cons_2
                 | apply Forall_nil_2 | reflexivity
                 | (destruct changed; repeat constructor)
                 | (destruct dump; repeat constructor) ].
  - repeat first [assumption | apply Forall_app_2 | apply Forall_cons_2
                 | apply Forall_nil_2 | reflexivity
                 | (destruct changed; repeat constructor)
                 | (destruct dump; repeat constructor) ].
  - exists err. rewrite !lcd_calls_app. apply elem_of_app. left. repeat constructor.
  - intros ->. cbn [andb] in Hmain. subst out. exists err.
    rewrite !lcd_calls_app, Htr2. now destruct dump.
Qed.

(** X13.  The datastore is dumped to the console exactly when a short press
    arrives while the main page is shown; the press then changes no page
    and publishes none.  No page reaches the main page by a short press, so
    the dump never accompanies a page change. *)
Theorem datastore_dump_only_on_main_short (input : input_t)
    (page : display_page_id_t) :
  runs (handle_input input page)
       (fun page' t =>
          (EvDumpDatastore ∈ t
           <-> page = DISPLAY_PAGE_MAIN /\ input = BUTTON_EVENT_SHORT)
          /\ (EvDumpDatastore ∈ t -> page' = page /\ published t = [])).
Proof.
  eapply runs_weaken; [apply handle_input_trace|].
  cbn beta. intros page' t H.
  apply input_handled_parts in H as (Hpage & Hpub & Hdump & _).
  assert (Hiff : (page' =? DISPLAY_PAGE_MAIN) && bool_decide (input = BUTTON_EVENT_SHORT) = true
                 <-> page = DISPLAY_PAGE_MAIN /\ input = BUTTON_EVENT_SHORT).
  { rewrite andb_true_iff, bool_decide_eq_true. split.
    - intros [Hmain ->]. rewrite Hpage, next_page_short_main in Hmain.
      now apply Z.eqb_eq in Hmain.
    - intros [-> ->]. subst page'. now split. }
  split; [now rewrite Hdump|].
  intros Hin. apply Hdump, Hiff in Hin as [-> ->].
  subst page'. split; reflexivity || exact Hpub.
Qed.

(** X14.  The display is re-initialised while an input is handled exactly when
    the input changes the page to the main page. *)
Theorem display_reset_on_return_to_main (input : input_t)
    (page : display_page_id_t) :
  runs (handle_input input page)
       (fun page' t =>
          (1 <= calls_of KReset t)%nat
          <-> page' = DISPLAY_PAGE_MAIN /\ page <> DISPLAY_PAGE_MAIN).
Proof.
  eapply runs_weaken; [apply handle_input_trace|].
  cbn beta. intros page' t H.
  apply input_handled_parts in H as (_ & _ & _ & Hreset & _).
  rewrite Hreset, andb_true_iff, negb_true_iff, Z.eqb_eq, Z.eqb_neq.
  split; intros [H1 H2]; split; congruence.
Qed.

(** X15.  A long press, or an input that is none of the four events, on a page
    of the registry: the backlight is switched on, and nothing else happens
    to the display; the page stays and none is published. *)
Theorem ignored_input_only_lights (input : input_t) (page : display_page_id_t) :
  page_in_range page = true ->
  input <> ROTARY_ENCODER_EVENT_CLOCKWISE ->
  input <> ROTARY_ENCODER_EVENT_COUNTER_CLOCKWISE ->
  input <> BUTTON_EVENT_SHORT ->
  runs (handle_input input page)
       (fun page' t =>
          page' = page /\ published t = [] /\ (EvDumpDatastore ∉ t)
          /\ exists err, lcd_calls t = [(i2c_lcd1602_set_backlight true, err)]).
Proof.
  intros Hrange H1 H2 H3.
  eapply runs_weaken; [apply handle_input_trace|].
  cbn beta. intros page' t H.
  apply input_handled_parts in H as (Hpage & Hpub & Hdump & _ & _ & _ & _ & Hcalls).
  rewrite next_page_ignored in Hpage by assumption. subst page'.
  rewrite Z.eqb_refl in *. cbn [negb] in *.
  split; [reflexivity|]. split; [exact Hpub|]. split; [|now apply Hcalls].
  rewrite Hdump, andb_true_iff, bool_decide_eq_true. now intros [_ ?].
Qed.

(** X16.  Turning the knob one step clockwise and one step back returns to the
    page one came from, except from the blank page, the second temperature
    page and the power page; one step counter-clockwise and one step back,
    except from the blank page, the second temperature page and the
    switches page.  (The counter-clockwise entry of the switches page names
    the flow page.) *)
Theorem rotation_back_and_forth (page : display_page_id_t) :
  page_in_range page = true ->
  runs (page1 ← handle_input ROTARY_ENCODER_EVENT_CLOCKWISE page;
        handle_input ROTARY_ENCODER_EVENT_COUNTER_CLOCKWISE page1)
       (fun page2 _ =>
          page2 = page
          <-> page <> DISPLAY_PAGE_BLANK /\ page <> DISPLAY_PAGE_SENSORS_TEMP_2
              /\ page <> DISPLAY_PAGE_POWER)
  /\ runs (page1 ← handle_input ROTARY_ENCODER_EVENT_COUNTER_CLOCKWISE page;
           handle_input ROTARY_ENCODER_EVENT_CLOCKWISE page1)
          (fun page2 _ =>
             page2 = page
             <-> page <> DISPLAY_PAGE_BLANK /\ page <> DISPLAY_PAGE_SENSORS_TEMP_2
                 /\ page <> DISPLAY_PAGE_SWITCHES).
Proof.
  intros Hrange. split.
  - apply runs_bind. eapply runs_weaken; [apply handle_input_trace|].
    cbn beta. intros page1 t1 [-> _].
    eapply runs_weaken; [apply handle_input_trace|].
    cbn beta. intros page2 t2 [-> _].
    revert page Hrange. apply in_range_cases. intros n Hn.
    do 16 (destruct n as [|n]; [vm_compute; intuition congruence|]). lia.
  - apply runs_bind. eapply runs_weaken; [apply handle_input_trace|].
    cbn beta. intros page1 t1 [-> _].
    eapply runs_weaken; [apply handle_input_trace|].
    cbn beta. intros page2 t2 [-> _].
    revert page Hrange. apply in_range_cases. intros n Hn.
    do 16 (destruct n as [|n]; [vm_compute; intuition congruence|]). lia.
Qed.


(** *** One iteration of the loop *)

Lemma dispatch_logs (buffer : page_buffer_t) (cells : static_cells)
    (page : display_page_id_t) (datastore : datastore_t) :
  runs (D := D) (dispatch_to_handler buffer cells page datastore)
       (fun _ t => Forall (fun e => log_event e) t).
Proof.
  destruct (page_in_range page) eqn:Hrange.
  - eapply runs_weaken; [now apply dispatch_in_range|].
    cbn beta. intros _ t ->. constructor.
  - unfold dispatch_to_handler, dispatch_to_handler_in.
    rewrite decide_True by reflexivity. rewrite Hrange.
    apply runs_bind, runs_emit, runs_ret. repeat constructor.
Qed.

Lemma iteration_trace (inp : iteration_input) (l : task_locals) :
  runs (display_task_iteration inp l)
       (fun l' t =>
          exists (pre mid post off : list event),
            t = pre ++ [EvI2cLock] ++ mid ++ [EvI2cUnlock] ++ post ++ off
            /\ Forall (fun e => log_event e) pre
            /\ Forall (fun e => output_event e) mid
            /\ match queue_receive inp with
               | Some input =>
                   input_handled input (current_page l) (current_page l') post
                   /\ backlight_timestamp l' = seconds_at_input inp
               | None =>
                   post = [] /\ current_page l' = current_page l
                   /\ backlight_timestamp l' = backlight_timestamp l
               end
            /\ exists err,
                 off = if backlight_due (backlight_timeout inp)
                                        (seconds_at_timeout_check inp)
                                        (backlight_timestamp l')
                       then [EvLcd (i2c_lcd1602_set_backlight false) err]
                       else []).
Proof.
  unfold display_task_iteration.
  apply runs_bind. eapply runs_weaken; [apply dispatch_logs|].
  cbn beta. intros r pre Hpre.
  apply runs_bind. eapply runs_weaken; [apply render_trace|].
  cbn beta. intros _ t1 (mid & -> & Hmid).
  apply runs_bind.
  apply runs_weaken
    with (P := fun l' post =>
                 match queue_receive inp with
                 | Some input =>
                     input_handled input (current_page l) (current_page l') post
                     /\ backlight_timestamp l' = seconds_at_input inp
                 | None =>
                     post = [] /\ current_page l' = current_page l
                     /\ backlight_timestamp l' = backlight_timestamp l
                 end).
  - destruct (queue_receive inp) as [input|].
    + apply runs_bind. eapply runs_weaken; [apply handle_input_trace|].
      cbn beta. intros page' t2 Ht2. apply runs_ret.
      rewrite app_nil_r. now split.
    + apply runs_ret. now repeat split.
  - intros l' post Hpost.
    apply runs_bind.
    apply runs_weaken
      with (P := fun _ off =>
                   exists err,
                     off = if backlight_due (backlight_timeout inp)
                                            (seconds_at_timeout_check inp)
                                            (backlight_timestamp l')
                           then [EvLcd (i2c_lcd1602_set_backlight false) err]
                           else []).
    + unfold backlight_due. destruct (_ && _).
      * apply runs_bind, runs_lcd_call. intros d. apply runs_ret.
        now exists (lcd_exec (i2c_lcd1602_set_backlight false) d).1.
      * apply runs_ret. now exists ESP_OK.
    + intros _ off Hoff. apply runs_ret.
      exists pre, mid, post, off. rewrite app_nil_r.
      split; [|now repeat split].
      cbn [app]. now rewrite <- !app_assoc.
Qed.


(** *** The exact trace of an iteration *)

Lemma row_run (buffer : page_buffer_t) (i : nat) :
  runs (err ← _move_cursor 0 (Z.of_nat i);
        I2C_LCD1602_ERROR_CHECK err;;
        err ← _write_string (c_string (row buffer i));
        I2C_LCD1602_ERROR_CHECK err)
       (fun _ t => row_rendered buffer i t).
Proof.
  apply runs_bind. eapply runs_weaken; [apply wrapper_run|].
  cbn beta. intros moved tm Hm.
  apply runs_bind. eapply runs_weaken; [apply error_check_run|].
  cbn beta. intros _ cm ->.
  apply runs_bind. eapply runs_weaken; [apply wrapper_run|].
  cbn beta. intros written tw Hw.
  eapply runs_weaken; [apply error_check_run|].
  cbn beta. intros _ cw ->.
  exists moved, written, tm, tw. split; [exact Hm|]. split; [exact Hw | reflexivity].
Qed.

Lemma render_run (buffer : page_buffer_t) :
  runs (_render_page_buffer buffer)
       (fun _ t => exists mid,
            t = EvI2cLock :: mid ++ [EvI2cUnlock]
            /\ page_rendered buffer mid
            /\ Forall (fun e => output_event e) mid).
Proof.
  assert (Hexact : runs (_render_page_buffer buffer)
                        (fun _ t => exists mid,
                             t = EvI2cLock :: mid ++ [EvI2cUnlock]
                             /\ page_rendered buffer mid)).
  2: { eapply runs_weaken; [apply runs_conj; [apply render_trace | exact Hexact]|].
       cbn beta. intros _ t [(mid & Ht & Hmid) (mid' & Ht' & Hrendered)].
       exists mid. split; [exact Ht|]. split; [|exact Hmid].
       rewrite Ht in Ht'. injection Ht' as Heq.
       apply app_inv_tail in Heq. now subst mid'. }
  - unfold _render_page_buffer, for_each.
    cbn [LCD_NUM_ROWS Nat.sub seq foldr].
    apply runs_bind, runs_emit.
    apply (runs_bind (A := unit)).
    apply (runs_bind (A := unit)). eapply runs_weaken; [apply (row_run buffer 0)|].
    cbn beta. intros _ t0 H0.
    apply (runs_bind (A := unit)). eapply runs_weaken; [apply (row_run buffer 1)|].
    cbn beta. intros _ t1 H1.
    apply (runs_bind (A := unit)). eapply runs_weaken; [apply (row_run buffer 2)|].
    cbn beta. intros _ t2 H2.
    apply (runs_bind (A := unit)). eapply runs_weaken; [apply (row_run buffer 3)|].
    cbn beta. intros _ t3 H3.
    apply runs_ret. apply runs_emit.
    cbn beta. exists (t0 ++ t1 ++ t2 ++ t3).
    split; [cbn [app]; rewrite ?app_nil_r, <- ?app_assoc; reflexivity|].
    exists t0, t1, t2, t3. repeat (split; [assumption|]). reflexivity.
Qed.

Lemma handle_transition_run (input : input_t) (page : display_page_id_t) :
  runs (D := D) (_handle_transition input page)
       (fun new_page t =>
          new_page = transition_target input page
          /\ t = match input with
                 | INPUT_OTHER code =>
                     if page_in_range page
                     then [EvLogE "invalid input %d" code] else []
                 | _ => []
                 end).
Proof.
  unfold _handle_transition, handle_transition_in, transition_target.
  destruct (page_in_range page) eqn:Hrange;
    [|apply runs_ret; split; [reflexivity | now destruct input]].
  assert (Hentry : is_Some (transitions !! Z.to_nat page)).
  { apply lookup_lt_is_Some_2. unfold page_in_range, DISPLAY_PAGE_LAST in Hrange.
    apply andb_true_iff in Hrange as [H0 H1].
    apply Z.leb_le in H0. apply Z.ltb_lt in H1. cbn [transitions length]. lia. }
  destruct Hentry as [entry ->].
  destruct input;
    try (apply runs_bind; apply runs_ret; apply runs_ret; split; reflexivity).
  apply runs_bind, runs_emit, runs_ret. split; reflexivity.
Qed.

Lemma handle_input_run (input : input_t) (page : display_page_id_t) :
  runs (handle_input input page)
       (fun page' t => input_run input page page' t).
Proof.
  unfold handle_input.
  apply runs_bind, runs_emit.
  apply runs_bind, runs_lcd_call. intros d.
  generalize (lcd_exec (i2c_lcd1602_set_backlight true) d).1. intros lit.
  apply runs_bind. eapply runs_weaken; [apply handle_transition_run|].
  cbn beta. intros new_page tr [Hnew ->].
  apply runs_bind.
  apply runs_weaken
    with (P := fun page' t =>
                 page' = next_page input page
                 /\ exists to_main,
                      t = (if negb (page' =? page)
                           then [EvLogI "change to page"; EvDatastoreSetPage page']
                           else []) ++ to_main
                      /\ (if negb (page' =? page) && (page' =? DISPLAY_PAGE_MAIN)
                          then main_entered to_main
                          else to_main = [])).
  - unfold next_page. rewrite <- Hnew.
    destruct (negb (new_page =? page) && page_in_range new_page) eqn:Hcommit.
    + apply andb_true_iff in Hcommit as [Hchanged _].
      apply runs_bind, runs_emit.
      apply runs_bind, runs_emit.
      apply runs_bind.
      apply runs_weaken
        with (P := fun _ to_main =>
                     if new_page =? DISPLAY_PAGE_MAIN
                     then main_entered to_main
                     else to_main = []).
      * destruct (new_page =? DISPLAY_PAGE_MAIN); [|now apply runs_ret].
        apply runs_bind. eapply runs_weaken; [apply display_reset_run|].
        cbn beta. intros e rs Hrs.
        apply runs_bind. eapply runs_weaken; [apply wrapper_run|].
        cbn beta. intros cleared tc Htc.
        eapply runs_weaken; [apply error_check_run|].
        cbn beta. intros _ tcheck ->.
        exists e, cleared, rs, tc. split; [exact Hrs|]. split; [exact Htc | reflexivity].
      * intros _ to_main Hmain. apply runs_ret.
        split; [reflexivity|]. exists to_main. rewrite Hchanged.
        split; [|exact Hmain]. cbn [app]. now rewrite app_nil_r.
    + apply runs_ret. split; [reflexivity|]. exists [].
      rewrite Z.eqb_refl. cbn [negb andb]. split; reflexivity.
  - intros page' t1 (Hpage' & to_main & -> & Hmain).
    apply runs_bind.
    apply runs_weaken
      with (P := fun _ t =>
                   t = if (page' =? DISPLAY_PAGE_MAIN)
                          && bool_decide (input = BUTTON_EVENT_SHORT)
                       then [EvDumpDatastore] else []).
    + destruct ((page' =? DISPLAY_PAGE_MAIN)
                && bool_decide (input = BUTTON_EVENT_SHORT));
        [apply runs_emit | apply runs_ret]; reflexivity.
    + intros _ t2 ->. apply runs_ret.
      split; [exact Hpage'|]. exists lit, to_main.
      split; [|exact Hmain].
      cbn [app]. rewrite !app_nil_r, <- ?app_assoc. reflexivity.
Qed.

Lemma output_events_no_backlight (t : list event) :
  Forall (fun e => output_event e) t -> calls_of KSetBacklight t = 0%nat.
Proof.
  induction 1 as [|e t He _ IH]; [reflexivity|].
  rewrite calls_of_cons, IH.
  destruct e as [op err| | | | | | | |]; try reflexivity.
  cbn in He |- *. now destruct (bool_decide (kind_of op = KSetBacklight)).
Qed.

Lemma no_backlight_off (t : list event) :
  Forall (fun e => backlight_off e = false) t ->
  ~ Exists (fun e => backlight_off e) t.
Proof.
  intros Hall Hex. apply Exists_exists in Hex as (e & Hin & He).
  rewrite Forall_forall in Hall. rewrite (Hall e Hin) in He. exact He.
Qed.

Lemma wrapper_done_calls (name : string) (op : lcd_op) (err : esp_err_t)
    (t : list event) :
  wrapper_done name op err t -> (1 <= calls_of (kind_of op) t)%nat.
Proof.
  intros (failures & _ & [(_ & _ & ->) | (_ & Hlen & _ & ->)]).
  - rewrite calls_of_app, calls_of_lcd, decide_True by reflexivity. lia.
  - destruct failures as [|[e rs] rest]; [discriminate Hlen|].
    cbn [failed_attempts app]. rewrite calls_of_cons. cbn [is_call].
    rewrite bool_decide_true by reflexivity. lia.
Qed.

Lemma display_reset_done_calls (err : esp_err_t) (rs : list event) :
  display_reset_done err rs -> (1 <= calls_of KReset rs)%nat.
Proof.
  intros (n & _ & _ & ->).
  destruct n as [|n]; cbn [replicate app reset_events_of reset_sequence];
    rewrite !calls_of_cons; cbn [is_call kind_of];
    rewrite bool_decide_true by reflexivity; lia.
Qed.

Lemma main_entered_calls (t : list event) :
  main_entered t ->
  (1 <= calls_of KReset t)%nat /\ (1 <= calls_of KClear t)%nat.
Proof.
  intros (e & cleared & rs & tc & Hrs & Htc & ->).
  apply display_reset_done_calls in Hrs. apply wrapper_done_calls in Htc.
  cbn [kind_of] in Htc. rewrite !calls_of_app. lia.
Qed.

Lemma iteration_run (inp : iteration_input) (l : task_locals) :
  runs (display_task_iteration inp l)
       (fun l' t =>
          exists (pre mid post off : list event),
            t = pre ++ [EvI2cLock] ++ mid ++ [EvI2cUnlock] ++ post ++ off
            /\ Forall (fun e => log_event e) pre
            /\ Forall (fun e => output_event e) mid
            /\ page_rendered (buffer l') mid
            /\ match queue_receive inp with
               | Some input =>
                   input_handled input (current_page l) (current_page l') post
                   /\ input_run input (current_page l) (current_page l') post
               | None => post = [] /\ current_page l' = current_page l
               end
            /\ (if backlight_due (backlight_timeout inp)
                                 (seconds_at_timeout_check inp)
                                 (backlight_timestamp l')
                then exists err, off = [EvLcd (i2c_lcd1602_set_backlight false) err]
                else off = [])).
Proof.
  unfold display_task_iteration.
  apply runs_bind. eapply runs_weaken; [apply dispatch_logs|].
  cbn beta. intros r pre Hpre.
  apply runs_bind. eapply runs_weaken; [apply render_run|].
  cbn beta. intros _ t1 (mid & -> & Hrendered & Hmid).
  apply runs_bind.
  apply runs_weaken
    with (P := fun l' post =>
                 buffer l' = _extend_page_buffer_rows r.1
                 /\ match queue_receive inp with
                    | Some input =>
                        input_handled input (current_page l) (current_page l') post
                        /\ input_run input (current_page l) (current_page l') post
                    | None => post = [] /\ current_page l' = current_page l
                    end).
  - destruct (queue_receive inp) as [input|].
    + apply runs_bind. eapply runs_weaken;
        [apply runs_conj; [apply handle_input_trace | apply handle_input_run]|].
      cbn beta. intros page' t2 [Ht2 Ht2']. apply runs_ret.
      rewrite app_nil_r. split; [reflexivity|]. now split.
    + apply runs_ret. split; [reflexivity|]. now split.
  - intros l' post [Hbuffer Hpost].
    apply runs_bind.
    apply runs_weaken
      with (P := fun _ off =>
                   if backlight_due (backlight_timeout inp)
                                    (seconds_at_timeout_check inp)
                                    (backlight_timestamp l')
                   then exists err, off = [EvLcd (i2c_lcd1602_set_backlight false) err]
                   else off = []).
    + unfold backlight_due.
      destruct ((0 <? backlight_timeout inp)
                && (backlight_timeout inp
                    <? wrap32 (seconds_at_timeout_check inp - backlight_timestamp l'))).
      * apply runs_bind, runs_lcd_call. intros d. apply runs_ret.
        now exists (lcd_exec (i2c_lcd1602_set_backlight false) d).1.
      * now apply runs_ret.
    + intros _ off Hoff. apply runs_ret.
      exists pre, mid, post, off. rewrite app_nil_r, Hbuffer.
      split; [cbn [app]; now rewrite <- !app_assoc|].
      split; [exact Hpre|]. split; [exact Hmid|]. split; [exact Hrendered|].
      split; [exact Hpost | exact Hoff].
Qed.

(** X17.  The trace of an iteration, in order.  Before the bus lock is
    taken only log lines are written.  Between the taking and the release
    of the lock lies exactly the rendering of the page: for each of the
    four rows the cursor move and the writing of the row, through their
    wrappers.  After the release come the handling of the input received,
    if any - the backlight switched on and, on the way to the main page,
    the re-initialisation and the clearing of the display - and the
    switching off of the backlight when it is due.  So the lock is taken
    once, the backlight is never switched while it is held, and the reset
    and the clear of a return to the main page are made without it. *)
Theorem bus_lock_only_around_rendering (inp : iteration_input) (l : task_locals) :
  runs (display_task_iteration inp l)
       (fun l' t =>
          exists (before inside after : list event),
            t = before ++ [EvI2cLock] ++ inside ++ [EvI2cUnlock] ++ after
            /\ Forall (fun e => log_event e) before
            /\ page_rendered (buffer l') inside
            /\ after_unlock (queue_receive inp) (current_page l) (current_page l')
                            (backlight_due (backlight_timeout inp)
                                           (seconds_at_timeout_check inp)
                                           (backlight_timestamp l'))
                            after
            /\ Forall (fun e => lock_event e = false) (before ++ inside ++ after)
            /\ lcd_calls before = []
            /\ calls_of KSetBacklight inside = 0%nat
            /\ (is_Some (queue_receive inp) ->
                exists err,
                  (i2c_lcd1602_set_backlight true, err) ∈ lcd_calls after)
            /\ (current_page l' = DISPLAY_PAGE_MAIN ->
                current_page l <> DISPLAY_PAGE_MAIN ->
                (1 <= calls_of KReset after)%nat
                /\ (1 <= calls_of KClear after)%nat)).
Proof.
  eapply runs_weaken; [apply iteration_run|].
  cbn beta. intros l' t
    (pre & mid & post & off & -> & Hpre & Hmid & Hrendered & Hpost & Hoff).
  destruct (log_events_facts pre Hpre) as (Hpre1 & Hpre2 & _).
  destruct (output_events_facts pre Hpre1) as (_ & _ & Hpre3 & _).
  destruct (output_events_facts mid Hmid) as (_ & _ & Hmid3 & _).
  exists pre, mid, (post ++ off).
  assert (Hoff' : Forall (fun e => lock_event e = false) off).
  { destruct (backlight_due _ _ _); [destruct Hoff as [err ->] | subst off];
      repeat constructor. }
  split; [reflexivity|]. split; [exact Hpre|]. split; [exact Hrendered|].
  split; [|split; [|split; [exact Hpre2|split; [|split]]]].
  - exists post, off. split; [reflexivity|]. split; [|exact Hoff].
    destruct (queue_receive inp) as [input|]; [now destruct Hpost | exact Hpost].
  - destruct (queue_receive inp) as [input|].
    + destruct Hpost as [Hpost _].
      apply input_handled_parts in Hpost as (_ & _ & _ & _ & Hlock & _).
      repeat (apply Forall_app_2; try assumption).
    + destruct Hpost as (-> & _).
      repeat first [assumption | apply Forall_app_2 | apply Forall_nil_2].
  - now apply output_events_no_backlight.
  - intros [input Hinput]. rewrite Hinput in Hpost. destruct Hpost as [Hpost _].
    apply input_handled_parts in Hpost as (_ & _ & _ & _ & _ & _ & [e He] & _).
    exists e. rewrite lcd_calls_app. apply elem_of_app. now left.
  - intros Hmain Hchanged.
    destruct (queue_receive inp) as [input|];
      [|destruct Hpost as [_ Hsame]; congruence].
    destruct Hpost as [_ (_ & lit & to_main & -> & Hto_main)].
    rewrite Hmain in Hto_main.
    destruct (Z.eqb_spec DISPLAY_PAGE_MAIN (current_page l)) as [Heq|_];
      [congruence|].
    cbn [negb andb Z.eqb DISPLAY_PAGE_MAIN Pos.eqb] in Hto_main.
    apply main_entered_calls in Hto_main as [Hreset Hclear].
    rewrite !calls_of_app. lia.
Qed.

(** X18.  An iteration switches the backlight off exactly when the timeout is
    not zero and more than the timeout has passed, in 32-bit seconds, since
    the timestamp; an input received in the same iteration has renewed the
    timestamp first, whatever the input was.  With a timeout of zero the
    backlight is never switched off. *)
Theorem backlight_switched_off_iff (inp : iteration_input) (l : task_locals) :
  runs (display_task_iteration inp l)
       (fun l' t =>
          (Exists (fun e => backlight_off e) t
           <-> backlight_due (backlight_timeout inp) (seconds_at_timeout_check inp)
                            (backlight_timestamp l') = true)
          /\ backlight_timestamp l'
             = match queue_receive inp with
               | Some _ => seconds_at_input inp
               | None => backlight_timestamp l
               end
          /\ (backlight_timeout inp = 0 ->
              Forall (fun e => backlight_off e = false) t)).
Proof.
  eapply runs_weaken; [apply iteration_trace|].
  cbn beta. intros l' t (pre & mid & post & off & -> & Hpre & Hmid & Hpost & err & Hoff).
  destruct (log_events_facts pre Hpre) as (Hpre1 & _).
  destruct (output_events_facts pre Hpre1) as (_ & _ & _ & Hpre4).
  destruct (output_events_facts mid Hmid) as (_ & _ & _ & Hmid4).
  assert (Hpost4 : Forall (fun e => backlight_off e = false) post
                   /\ backlight_timestamp l'
                      = match queue_receive inp with
                        | Some _ => seconds_at_input inp
                        | None => backlight_timestamp l
                        end).
  { destruct (queue_receive inp) as [input|].
    - destruct Hpost as [Hpost Hstamp]. split; [|exact Hstamp].
      now apply input_handled_parts in Hpost as (_ & _ & _ & _ & _ & H & _).
    - destruct Hpost as (-> & _ & Hstamp). split; [constructor | exact Hstamp]. }
  destruct Hpost4 as [Hpost4 Hstamp].
  assert (Hrest : Forall (fun e => backlight_off e = false)
                         (pre ++ [EvI2cLock] ++ mid ++ [EvI2cUnlock] ++ post))
    by (repeat (apply Forall_app_2; try assumption); repeat constructor).
  split; [|split; [exact Hstamp|]].
  - rewrite !app_assoc, Exists_app, <- !app_assoc. split.
    + intros [H|H]; [now apply no_backlight_off in H|].
      subst off. destruct (backlight_due _ _ _); [reflexivity | inversion H].
    + intros Hdue. right. subst off. rewrite Hdue. now constructor.
  - intros Hzero. rewrite !app_assoc. apply Forall_app_2;
      [now rewrite <- !app_assoc|].
    subst off. unfold backlight_due. rewrite Hzero. constructor.
Qed.

(** *** The loop *)

Lemma iteration_page (inp : iteration_input) (l : task_locals) :
  runs (display_task_iteration inp l)
       (fun l' t =>
          current_page l'
          = match queue_receive inp with
            | Some input => next_page input (current_page l)
            | None => current_page l
            end
          /\ published t
             = if negb (current_page l' =? current_page l)
               then [current_page l'] else []).
Proof.
  eapply runs_weaken; [apply iteration_trace|].
  cbn beta. intros l' t (pre & mid & post & off & -> & Hpre & Hmid & Hpost & err & Hoff).
  destruct (log_events_facts pre Hpre) as (Hpre1 & _).
  destruct (output_events_facts pre Hpre1) as (Hpre2 & _).
  destruct (output_events_facts mid Hmid) as (Hmid2 & _).
  assert (Hoff' : published off = [])
    by (subst off; now destruct (backlight_due _ _ _)).
  rewrite !published_app, Hpre2, Hmid2, Hoff', app_nil_r. cbn [published omap list_omap app].
  destruct (queue_receive inp) as [input|].
  - destruct Hpost as [Hpost _].
    now apply input_handled_parts in Hpost as (Hpage & Hpub & _).
  - destruct Hpost as (-> & -> & _). rewrite Z.eqb_refl. now split.
Qed.

(** X19.  The blank page is never shown.  The loop starts on the main page, and
    whatever inputs arrive the current page stays among the pages from the
    main page to the last one; the blank page is never published either,
    so its handler never runs in the loop. *)
Theorem blank_page_never_shown (inputs : list iteration_input)
    (buffer0 : page_buffer_t) (now : Z) :
  runs (display_task_run inputs (display_task_locals buffer0 now))
       (fun l t =>
          page_shown (current_page l) = true
          /\ current_page l <> DISPLAY_PAGE_BLANK
          /\ Forall (fun page => page_shown page = true) (published t)).
Proof.
  assert (Hinit : page_shown (current_page (display_task_locals buffer0 now)) = true)
    by reflexivity.
  revert Hinit. generalize (display_task_locals buffer0 now).
  assert (Hblank : forall page, page_shown page = true -> page <> DISPLAY_PAGE_BLANK)
    by (intros page H ->; discriminate).
  induction inputs as [|inp rest IH]; intros l Hl; cbn [display_task_run].
  - apply runs_ret. repeat split; [exact Hl | now apply Hblank | constructor].
  - apply runs_bind. eapply runs_weaken; [apply iteration_page|].
    cbn beta. intros l' t1 [Hpage Hpub].
    assert (Hl' : page_shown (current_page l') = true).
    { rewrite Hpage. destruct (queue_receive inp); [now apply next_page_shown | exact Hl]. }
    eapply runs_weaken; [now apply IH|].
    cbn beta. intros l'' t2 (Hl'' & _ & Hpub2).
    repeat split; [exact Hl'' | now apply Hblank |].
    rewrite published_app, Hpub. apply Forall_app_2; [|exact Hpub2].
    destruct (negb _); repeat constructor. exact Hl'.
Qed.

(** X20.  The page the task has published last is the page it shows: once the
    task has written [RESOURCE_ID_DISPLAY_PAGE], [display_is_currently]
    answers for exactly the current page; until its first page change the
    task writes nothing and shows the initial page. *)
Theorem published_page_is_current (inputs : list iteration_input)
    (buffer0 : page_buffer_t) (now : Z) :
  runs (display_task_run inputs (display_task_locals buffer0 now))
       (fun l t =>
          match last (published t) with
          | Some page =>
              forall queried,
                display_is_currently (Some (Some page)) queried = true
                <-> queried = current_page l
          | None => current_page l = INITIAL_PAGE
          end).
Proof.
  apply runs_weaken
    with (P := fun l t =>
                 current_page l
                 = default (current_page (display_task_locals buffer0 now))
                           (last (published t))).
  - generalize (display_task_locals buffer0 now).
    induction inputs as [|inp rest IH]; intros l; cbn [display_task_run].
    + apply runs_ret. reflexivity.
    + apply runs_bind. eapply runs_weaken; [apply iteration_page|].
      cbn beta. intros l' t1 [_ Hpub].
      eapply runs_weaken; [apply IH|].
      cbn beta. intros l'' t2 ->.
      rewrite published_app, last_app.
      destruct (last (published t2)) as [page|]; [reflexivity|].
      rewrite Hpub. cbn [default from_option].
      destruct (Z.eqb_spec (current_page l') (current_page l)) as [Heq|Hne];
        cbn [negb last default from_option]; [exact Heq | reflexivity].
  - intros l t Hl. destruct (last (published t)) as [page|];
      cbn [default from_option] in Hl; [|exact Hl].
    intros queried. unfold display_is_currently. rewrite Z.eqb_eq. now rewrite Hl.
Qed.


End DisplayTraces.
(** ** Formatted rows *)

Section DisplayFormatted.

Import Display.

Lemma all_from_spec (P : Z -> bool) (count : nat) :
  forall n : Z, all_from count n P = true ->
  forall k : Z, n <= k < n + Z.of_nat count -> P k = true.
Proof.
  induction count as [|count IH]; intros n Hall k Hk; [lia|].
  cbn [all_from] in Hall. apply andb_true_iff in Hall as [Hn Hrest].
  destruct (Z.eq_dec k n) as [->|Hne]; [exact Hn|].
  apply (IH (n + 1) Hrest). lia.
Qed.

Lemma no_NUL_spec (text : list byte) :
  no_NUL text = true <-> Forall (fun c => c <> NUL) text.
Proof.
  unfold no_NUL. induction text as [|c text IH]; cbn.
  - split; [constructor | reflexivity].
  - rewrite andb_true_iff, IH, Forall_cons, negb_true_iff. split.
    + intros [Hc Ht]. split; [now apply Byte.eqb_false | exact Ht].
    + intros [Hc Ht]. split; [|exact Ht].
      destruct (Byte.eqb c NUL) eqn:E; [|reflexivity].
      apply Byte.byte_dec_bl in E. contradiction.
Qed.

Lemma no_NUL_app (s t : list byte) :
  no_NUL (s ++ t) = no_NUL s && no_NUL t.
Proof. unfold no_NUL. apply forallb_app. Qed.

(** What [snprintf] leaves in the array: the text, cut to the room. *)
Lemma snprintf_text_shown (dst : list byte) (size : nat) (text : list byte) :
  (0 < size <= length dst)%nat ->
  no_NUL text = true ->
  c_string (snprintf_text dst size text) = take (size - 1) text.
Proof.
  intros [Hsize Hdst] Htext. destruct size as [|room]; [lia|].
  cbn [snprintf_text]. replace (S room - 1)%nat with room by lia.
  set (ins := take room text ++ [NUL]).
  assert (Hins : (length ins <= length dst)%nat).
  { subst ins. rewrite length_app, length_take. cbn. lia. }
  rewrite <- (take_drop (length ins) dst).
  rewrite list_inserts_0_r by (rewrite length_take; lia).
  subst ins. rewrite <- app_assoc. cbn [app].
  assert (Hnz : Forall (fun c => c <> NUL) (take room text))
    by (apply Forall_take; now apply no_NUL_spec).
  unfold c_string. rewrite strlen_terminated by exact Hnz.
  now rewrite take_app_length.
Qed.

(** The bounds of the four numbers. *)
Lemma split_time_bounds (time : Z) :
  is_uint32 time ->
  let '(days, hours, minutes, seconds) := _split_time time in
  0 <= days < 49711 /\ 0 <= hours < 24 /\ 0 <= minutes < 60 /\ 0 <= seconds < 60
  /\ days * 86400 <= time < days * 86400 + 86400.
Proof.
  unfold is_uint32, UINT32_MODULUS, _split_time. intros Htime.
  change (2 ^ 32) with 4294967296 in Htime.
  Z.div_mod_to_equations. lia.
Qed.

(** The numbers the rows print, by enumeration. *)
Lemma decimal_of_day (days : Z) :
  0 <= days < 50000 ->
  no_NUL (format_d 4 days) = true
  /\ length (format_d 4 days) = if days <? 10000 then 4%nat else 5%nat.
Proof.
  intros Hdays.
  assert (Hall : all_from (Z.to_nat 50000) 0
                   (fun d => no_NUL (format_d 4 d)
                             && (length (format_d 4 d)
                                 =? if (d <? 10000)%Z then 4 else 5)%nat) = true)
    by (vm_compute; reflexivity).
  pose proof (all_from_spec _ _ _ Hall days) as H.
  assert (Hr : 0 <= days < 0 + Z.of_nat (Z.to_nat 50000)) by lia.
  specialize (H Hr). clear Hall. cbn beta in H.
  apply andb_true_iff in H as [H1 H2].
  apply Nat.eqb_eq in H2. split; assumption.
Qed.

Lemma decimal_of_clock (n : Z) :
  0 <= n < 60 ->
  no_NUL (format_0d 2 n) = true /\ length (format_0d 2 n) = 2%nat.
Proof.
  intros Hn.
  assert (Hall : all_from 60 0
                   (fun d => no_NUL (format_0d 2 d)
                             && (length (format_0d 2 d) =? 2)%nat) = true)
    by (vm_compute; reflexivity).
  pose proof (all_from_spec _ _ _ Hall n) as H.
  assert (Hr : 0 <= n < 0 + Z.of_nat 60) by lia.
  specialize (H Hr). clear Hall. cbn beta in H.
  apply andb_true_iff in H as [H1 H2].
  apply Nat.eqb_eq in H2. split; assumption.
Qed.

(** X21.  The uptime line is never cut: for every 32-bit number of seconds the
    text of [_render_uptime] has 17 characters, or 18 from 10000 days on,
    and the row of [ROW_STRING_WIDTH] bytes holds all of it. *)
Theorem uptime_line_fits (buffer : list byte) (uptime : Z) :
  is_uint32 uptime ->
  (ROW_STRING_WIDTH <= length buffer)%nat ->
  c_string (_render_uptime buffer ROW_STRING_WIDTH uptime) = uptime_text uptime
  /\ length (uptime_text uptime)
     = (if uptime <? 10000 * 86400 then 17%nat else 18%nat)
  /\ (length (uptime_text uptime) <= LCD_NUM_VISIBLE_COLUMNS)%nat.
Proof.
  intros Huptime Hbuffer.
  pose proof (split_time_bounds uptime Huptime) as Hsplit.
  unfold _render_uptime, uptime_text in *.
  destruct (_split_time uptime) as [[[days hours] minutes] seconds].
  destruct Hsplit as (Hd & Hh & Hm & Hs & Hday).
  unfold int_of_uint32.
  rewrite !(proj2 (Z.ltb_lt _ (2 ^ 31))) by lia.
  destruct (decimal_of_day days ltac:(lia)) as [Nd Ld].
  destruct (decimal_of_clock hours ltac:(lia)) as [Nh Lh].
  destruct (decimal_of_clock minutes ltac:(lia)) as [Nm Lm].
  destruct (decimal_of_clock seconds ltac:(lia)) as [Ns Ls].
  assert (Hlen : length (list_byte_of_string "Up " ++ format_d 4 days
                           ++ list_byte_of_string "d " ++ format_0d 2 hours
                           ++ list_byte_of_string ":" ++ format_0d 2 minutes
                           ++ list_byte_of_string ":" ++ format_0d 2 seconds)
                 = if uptime <? 10000 * 86400 then 17%nat else 18%nat).
  { rewrite !length_app, Ld, Lh, Lm, Ls.
    replace (uptime <? 10000 * 86400) with (days <? 10000)
      by (destruct (Z.ltb_spec days 10000), (Z.ltb_spec uptime (10000 * 86400));
          try reflexivity; lia).
    now destruct (days <? 10000). }
  split; [|split; [exact Hlen|]].
  - rewrite snprintf_text_shown.
    + apply take_ge. rewrite Hlen. unfold ROW_STRING_WIDTH, DISPLAY_WIDTH, LCD_NUM_VISIBLE_COLUMNS.
      destruct (uptime <? 10000 * 86400); lia.
    + unfold ROW_STRING_WIDTH, DISPLAY_WIDTH, LCD_NUM_VISIBLE_COLUMNS in *. lia.
    + rewrite !no_NUL_app, Nd, Nh, Nm, Ns. reflexivity.
  - rewrite Hlen. unfold LCD_NUM_VISIBLE_COLUMNS.
    destruct (uptime <? 10000 * 86400); lia.
Qed.

(** Cutting a string by writing a NUL into its array. *)
Lemma c_string_cut (s : list byte) :
  forall k : nat, (k < length s)%nat ->
  c_string (<[k := NUL]> s) = take k (c_string s).
Proof.
  unfold c_string. induction s as [|c s IH]; intros k Hk; [cbn in Hk; lia|].
  destruct k as [|k]; [reflexivity|].
  cbn [insert list_insert strlen]. fold (@insert nat byte (list byte) _ k NUL s).
  destruct (Byte.eqb c NUL); [reflexivity|].
  cbn [take]. f_equal. apply IH. cbn in Hk. lia.
Qed.

Lemma strlen_c_string (s : list byte) : length (c_string s) = strlen s.
Proof. unfold c_string. apply length_take_le, strlen_le_length. Qed.

Lemma no_NUL_c_string (s : list byte) : no_NUL (c_string s) = true.
Proof. apply no_NUL_spec, c_string_no_NUL. Qed.

Lemma no_NUL_take (k : nat) (s : list byte) :
  no_NUL s = true -> no_NUL (take k s) = true.
Proof. rewrite !no_NUL_spec. apply Forall_take. Qed.

Lemma no_NUL_spaces (k : nat) : no_NUL (replicate k SPACE) = true.
Proof. apply no_NUL_spec, Forall_replicate. discriminate. Qed.

Lemma decimal_of_rssi (rssi : Z) :
  -128 <= rssi <= 127 ->
  no_NUL (format_d 3 rssi) = true
  /\ (3 <= length (format_d 3 rssi))%nat
  /\ take 3 (format_d 3 rssi)
     = if -100 <? rssi then format_d 3 rssi else decimal (rssi ÷ 10).
Proof.
  intros Hrssi.
  assert (Hall : all_from 256 (-128)
                   (fun n => no_NUL (format_d 3 n)
                             && (3 <=? length (format_d 3 n))%nat
                             && bool_decide
                                  (take 3 (format_d 3 n)
                                   = if -100 <? n then format_d 3 n
                                     else decimal (n ÷ 10))) = true)
    by (vm_compute; reflexivity).
  pose proof (all_from_spec _ _ _ Hall rssi) as H.
  assert (Hr : -128 <= rssi < -128 + Z.of_nat 256) by lia.
  specialize (H Hr). clear Hall. cbn beta in H.
  apply andb_true_iff in H as [H H3]. apply andb_true_iff in H as [H1 H2].
  apply Nat.leb_le in H2. apply bool_decide_eq_true in H3. auto.
Qed.

(** X22.  The signal row of the WiFi page.  The network name is cut to its
    first eight characters and filled to sixteen columns; a signal
    strength above -100 is shown in the last three columns; at -100 and
    below its four characters do not fit the row and the last digit is
    lost, so that the row shows the strength divided by ten. *)
Theorem wifi_signal_row_shown (row ssid : list byte) (rssi : Z) :
  (8 < length ssid)%nat ->
  (ROW_STRING_WIDTH <= length row)%nat ->
  -128 <= rssi <= 127 ->
  c_string (wifi_signal_row row ssid rssi)
  = format_s_left 16 (take 8 (c_string ssid)) ++ [SPACE]
      ++ (if -100 <? rssi then format_d 3 rssi else decimal (rssi ÷ 10))
  /\ length (c_string (wifi_signal_row row ssid rssi)) = LCD_NUM_VISIBLE_COLUMNS.
Proof.
  intros Hssid Hrow Hrssi.
  destruct (decimal_of_rssi rssi Hrssi) as (Nn & Ln & Hshown).
  unfold wifi_signal_row, wifi_signal_text.
  rewrite c_string_cut by exact Hssid.
  set (name := format_s_left 16 (take 8 (c_string ssid))).
  assert (Hname : length name = 16%nat).
  { subst name. unfold format_s_left.
    rewrite length_app, length_replicate, length_take. lia. }
  assert (Nname : no_NUL name = true).
  { subst name. unfold format_s_left.
    rewrite no_NUL_app, no_NUL_take, no_NUL_spaces by apply no_NUL_c_string.
    reflexivity. }
  assert (Hcut : c_string (snprintf_text row ROW_STRING_WIDTH
                             (name ++ [SPACE] ++ format_d 3 rssi))
                 = name ++ [SPACE] ++ take 3 (format_d 3 rssi)).
  { rewrite snprintf_text_shown;
      [| unfold ROW_STRING_WIDTH, DISPLAY_WIDTH, LCD_NUM_VISIBLE_COLUMNS in *; lia
       | rewrite !no_NUL_app, Nname, Nn; reflexivity ].
    change (ROW_STRING_WIDTH - 1)%nat with (16 + (1 + 3))%nat.
    rewrite <- Hname at 1. rewrite take_app_add.
    change (take (1 + 3) ([SPACE] ++ format_d 3 rssi))
      with (SPACE :: take 3 (format_d 3 rssi)).
    reflexivity. }
  rewrite Hcut, Hshown. split; [reflexivity|].
  rewrite <- Hshown, !length_app, Hname, length_take. cbn [length].
  unfold LCD_NUM_VISIBLE_COLUMNS. lia.
Qed.

(** A network name of eleven characters at -105 dBm. *)
Lemma wifi_signal_row_shown_witness :
  c_string (wifi_signal_row (sample_row "") (sample_row "poolmon-net") (-105))
  = format_s_left 16 (take 8 (c_string (sample_row "poolmon-net"))) ++ [SPACE]
      ++ (if -100 <? -105 then format_d 3 (-105) else decimal (-105 ÷ 10))
  /\ length (c_string (wifi_signal_row (sample_row "") (sample_row "poolmon-net")
                         (-105)))
     = LCD_NUM_VISIBLE_COLUMNS.
Proof.
  apply (wifi_signal_row_shown (sample_row "") (sample_row "poolmon-net") (-105)).
  - vm_compute. lia.
  - vm_compute. lia.
  - lia.
Defined.

Example wifi_signal_row_sample :
  c_string (wifi_signal_row (sample_row "") (sample_row "poolmon-net") (-105))
  = list_byte_of_string "poolmon-         -10".
Proof. vm_compute. reflexivity. Qed.

Lemma decimal_of_port (port : Z) :
  0 <= port < 100000 ->
  no_NUL (decimal port) = true
  /\ (1 <= length (decimal port) <= 5)%nat.
Proof.
  intros Hport.
  assert (Hall : all_from (Z.to_nat 100000) 0
                   (fun n => no_NUL (decimal n)
                             && (1 <=? length (decimal n))%nat
                             && (length (decimal n) <=? 5)%nat) = true)
    by (vm_compute; reflexivity).
  pose proof (all_from_spec _ _ _ Hall port) as H.
  assert (Hr : 0 <= port < 0 + Z.of_nat (Z.to_nat 100000)) by lia.
  specialize (H Hr). clear Hall. cbn beta in H.
  apply andb_true_iff in H as [H H3]. apply andb_true_iff in H as [H1 H2].
  apply Nat.leb_le in H2. apply Nat.leb_le in H3. auto.
Qed.

(** X23.  The broker row of the MQTT page.  For every port of up to five
    digits the row shows the whole port after the colon, and as much of
    the address as the remaining columns hold; the row never exceeds the
    visible width. *)
Theorem mqtt_broker_row_shown (row broker_address : list byte) (broker_port : Z) :
  0 <= broker_port < 100000 ->
  (ROW_STRING_WIDTH <= length row)%nat ->
  c_string (mqtt_broker_row row broker_address broker_port)
  = take (19 - length (decimal broker_port)) (c_string broker_address)
      ++ list_byte_of_string ":" ++ decimal broker_port
  /\ (length (c_string (mqtt_broker_row row broker_address broker_port))
      <= LCD_NUM_VISIBLE_COLUMNS)%nat.
Proof.
  intros Hport Hrow.
  destruct (decimal_of_port broker_port Hport) as (Np & Lp).
  unfold mqtt_broker_row, int_of_uint32.
  rewrite (proj2 (Z.ltb_lt broker_port (2 ^ 31))) by lia.
  assert (Hmeasure : strlen (snprintf_text (replicate 6 NUL) 6 (decimal broker_port))
                     = length (decimal broker_port)).
  { rewrite <- strlen_c_string, snprintf_text_shown;
      [| rewrite length_replicate; lia | exact Np].
    now rewrite take_ge by (cbn; lia). }
  rewrite Hmeasure.
  unfold format_d_left, format_s_max. rewrite Nat.sub_diag. cbn [replicate].
  rewrite app_nil_r.
  replace (DISPLAY_WIDTH - length (decimal broker_port) - 1)%nat
    with (19 - length (decimal broker_port))%nat
    by (unfold DISPLAY_WIDTH, LCD_NUM_VISIBLE_COLUMNS; lia).
  set (text := take _ (c_string broker_address) ++ _ ++ decimal broker_port).
  assert (Hlen : (length text <= 20)%nat).
  { subst text. rewrite !length_app, length_take.
    change (length (list_byte_of_string ":")) with 1%nat. lia. }
  rewrite snprintf_text_shown.
  - rewrite take_ge
      by (unfold ROW_STRING_WIDTH, DISPLAY_WIDTH, LCD_NUM_VISIBLE_COLUMNS; lia).
    split; [reflexivity | exact Hlen].
  - unfold ROW_STRING_WIDTH, DISPLAY_WIDTH, LCD_NUM_VISIBLE_COLUMNS in *. lia.
  - subst text. rewrite !no_NUL_app, no_NUL_take, Np by apply no_NUL_c_string.
    reflexivity.
Qed.

(** A long host name with the usual port. *)
Lemma mqtt_broker_row_shown_witness :
  c_string (mqtt_broker_row (sample_row "") (sample_row "broker.example.org") 1883)
  = take (19 - length (decimal 1883)) (c_string (sample_row "broker.example.org"))
      ++ list_byte_of_string ":" ++ decimal 1883
  /\ (length (c_string (mqtt_broker_row (sample_row "")
                          (sample_row "broker.example.org") 1883))
      <= LCD_NUM_VISIBLE_COLUMNS)%nat.
Proof.
  apply (mqtt_broker_row_shown (sample_row "") (sample_row "broker.example.org") 1883).
  - lia.
  - vm_compute. lia.
Defined.

Example mqtt_broker_row_sample :
  c_string (mqtt_broker_row (sample_row "") (sample_row "broker.example.org") 1883)
  = list_byte_of_string "broker.example.:1883".
Proof. vm_compute. reflexivity. Qed.

(** Two days, 7:33:20 after boot. *)
Lemma uptime_line_fits_witness :
  c_string (_render_uptime (sample_row "") ROW_STRING_WIDTH 200000)
  = uptime_text 200000
  /\ length (uptime_text 200000)
     = (if 200000 <? 10000 * 86400 then 17%nat else 18%nat)
  /\ (length (uptime_text 200000) <= LCD_NUM_VISIBLE_COLUMNS)%nat.
Proof.
  apply (uptime_line_fits (sample_row "") 200000).
  - unfold is_uint32, UINT32_MODULUS. lia.
  - vm_compute. lia.
Defined.

Example uptime_line_sample :
  c_string (_render_uptime (sample_row "") ROW_STRING_WIDTH 200000)
  = list_byte_of_string "Up    2d 07:33:20".
Proof. vm_compute. reflexivity. Qed.


End DisplayFormatted.


(** ** The display task on sample devices *)

Section DisplaySamples.

Import Display.

(** The sample buffer on a device that never fails. *)
Lemma render_rewrites_every_cell_witness :
  runs (_render_page_buffer (driver := constant_driver ESP_OK)
          (_extend_page_buffer_rows sample_buffer))
       (fun _ t =>
          t = [EvI2cLock]
                ++ concat ((fun i => row_shown i (visible_text (row sample_buffer i)))
                             <$> seq 0 LCD_NUM_ROWS)
                ++ [EvI2cUnlock]
          /\ Forall (fun i => length (visible_text (row sample_buffer i))
                              = LCD_NUM_VISIBLE_COLUMNS)
                    (seq 0 LCD_NUM_ROWS)).
Proof.
  apply (render_rewrites_every_cell (driver := constant_driver ESP_OK) sample_buffer).
  - intros op d. reflexivity.
  - reflexivity.
  - repeat constructor; vm_compute; lia.
Defined.

(** A long press on the alarm page. *)
Lemma ignored_input_only_lights_witness :
  runs (handle_input (driver := constant_driver ESP_OK)
          BUTTON_EVENT_LONG DISPLAY_PAGE_ALARM)
       (fun page' t =>
          page' = DISPLAY_PAGE_ALARM /\ published t = [] /\ (EvDumpDatastore ∉ t)
          /\ exists err, lcd_calls t = [(i2c_lcd1602_set_backlight true, err)]).
Proof.
  apply (ignored_input_only_lights (driver := constant_driver ESP_OK)
           BUTTON_EVENT_LONG DISPLAY_PAGE_ALARM).
  - reflexivity.
  - discriminate.
  - discriminate.
  - discriminate.
Defined.

(** The switches page: clockwise and back returns to it, counter-clockwise
    and back does not. *)
Lemma rotation_back_and_forth_witness :
  runs (page1 ← handle_input (driver := constant_driver ESP_OK)
                  ROTARY_ENCODER_EVENT_CLOCKWISE DISPLAY_PAGE_SWITCHES;
        handle_input (driver := constant_driver ESP_OK)
          ROTARY_ENCODER_EVENT_COUNTER_CLOCKWISE page1)
       (fun page2 _ =>
          page2 = DISPLAY_PAGE_SWITCHES
          <-> DISPLAY_PAGE_SWITCHES <> DISPLAY_PAGE_BLANK
              /\ DISPLAY_PAGE_SWITCHES <> DISPLAY_PAGE_SENSORS_TEMP_2
              /\ DISPLAY_PAGE_SWITCHES <> DISPLAY_PAGE_POWER)
  /\ runs (page1 ← handle_input (driver := constant_driver ESP_OK)
                     ROTARY_ENCODER_EVENT_COUNTER_CLOCKWISE DISPLAY_PAGE_SWITCHES;
           handle_input (driver := constant_driver ESP_OK)
             ROTARY_ENCODER_EVENT_CLOCKWISE page1)
          (fun page2 _ =>
             page2 = DISPLAY_PAGE_SWITCHES
             <-> DISPLAY_PAGE_SWITCHES <> DISPLAY_PAGE_BLANK
                 /\ DISPLAY_PAGE_SWITCHES <> DISPLAY_PAGE_SENSORS_TEMP_2
                 /\ DISPLAY_PAGE_SWITCHES <> DISPLAY_PAGE_SWITCHES).
Proof.
  apply (rotation_back_and_forth (driver := constant_driver ESP_OK)
           DISPLAY_PAGE_SWITCHES).
  reflexivity.
Defined.

(** From the switches page, counter-clockwise and then clockwise: the flow
    page, then the power page. *)
Example rotation_from_switches :
  next_page ROTARY_ENCODER_EVENT_COUNTER_CLOCKWISE DISPLAY_PAGE_SWITCHES
  = DISPLAY_PAGE_SENSORS_FLOW
  /\ next_page ROTARY_ENCODER_EVENT_CLOCKWISE DISPLAY_PAGE_SENSORS_FLOW
     = DISPLAY_PAGE_POWER.
Proof. split; reflexivity. Qed.


(** The sample buffer, which holds text in three rows. *)
Lemma alarm_and_blank_pages_text_witness :
  c_string <$> _extend_page_buffer_rows
                 (_handle_page_alarm (datastore_t := unit)
                    (clear_rows sample_buffer) None tt).1
  = list_byte_of_string
      <$> ["ALARM               "; "                    ";
           "                    "; "                    "]%string
  /\ c_string <$> _extend_page_buffer_rows
                    (_handle_page_blank (datastore_t := unit)
                       (clear_rows sample_buffer) None tt).1
     = list_byte_of_string
         <$> ["                    "; "                    ";
              "                    "; "                    "]%string.
Proof.
  apply (alarm_and_blank_pages_text (datastore_t := unit) sample_buffer None tt).
  - reflexivity.
  - repeat constructor; vm_compute; lia.
Defined.

(** [_clear] on a device whose clear fails once: the failed attempt with
    its wait, its re-initialisation and its warning, then the call that
    succeeds. *)
Example clear_after_one_failure :
  (fun r => (r.1, trace r.2)) <$> _clear (driver := flaky_driver) (empty_world 1%nat)
  = Some (ESP_OK,
          failed_attempts "retry _clear" i2c_lcd1602_clear 1
                          [(ESP_FAIL, reset_events_of (replicate 5 ESP_OK))]
            ++ [EvLcd i2c_lcd1602_clear ESP_OK]).
Proof. vm_compute. reflexivity. Qed.


End DisplaySamples.
